(** * Simple Board (server.js): a shallow embedding and its properties

    The server is one Node.js file: two in-memory arrays ([topics],
    [users]) mirrored to JSON files, a session table, an auth resolver, a
    listing engine (sort + slice) and a request router.

    Conventions of the embedding.
    - JavaScript strings are [string]s holding their UTF-8 bytes.
    - JavaScript numbers are doubles. The numbers the files hold (ids,
      epoch milliseconds) are integers, kept as [Z]; the numbers the
      program computes ([parseInt], page arithmetic, the counters) are
      [num]: an integer-valued double, an infinity or NaN, every operation
      rounding as the double operation does.
    - Objects and arrays live in a heap of cells addressed by locations, so
      that copies ([{...user}], [[...topicArray]]) and in-place updates
      ([topics.push], [topics[i].title = ...]) keep their identity.
    - [url.parse] and [qs.parse] are library collaborators: a request
      arrives with its path name, its query object and its form object
      already parsed; a key given several times is an array of strings.
    - HTML is kept as the arguments of the template that renders it.
    - A request is served in one step; requests do not interleave. What
      the process reads from outside (clock, random bytes, collation,
      Markdown renderer, file system) comes with the request as [Env]. *)

From Stdlib Require Import ZArith Ascii String List Sorting.Sorted Sorting.Permutation.
From stdpp Require Import gmap strings list fin_maps sorting pretty.

Local Open Scope string_scope.
Local Open Scope list_scope.
Local Open Scope Z_scope.

(** ** The JavaScript built-ins the server calls *)

Module JS.

(** *** Numbers

    A double that holds an integer, an infinity, or NaN. The program
    computes with integers only; a fraction appears as the quotient inside
    [Math.ceil(a / b)] and nowhere else, so that [Math.ceil] of a quotient
    is one operation here. The two zeros are one value: the program never
    divides by a computed zero, and a zero prints, compares and indexes
    the same with either sign. *)
Inductive num :=
  | Fin (z : Z)
  | Inf (negative : bool)
  | NaN.

#[global] Instance num_eq_dec : EqDecision num.
Proof. solve_decision. Defined.

Module Num.

(** The double nearest to an integer, ties to the even significand: every
    integer up to 2^53 in absolute value is a double; beyond, the doubles
    are the multiples of [u], the power of two that leaves 53 bits. *)
Definition nearest (z : Z) : Z :=
  let a := Z.abs z in
  if a <=? 2 ^ 53 then z
  else
    let u := 2 ^ (Z.log2 a - 52) in
    let q := a / u in
    let r := a mod u in
    let m := if 2 * r <? u then q
             else if u <? 2 * r then q + 1
             else if Z.even q then q else q + 1 in
    Z.sgn z * (m * u).

(** The largest double is 2^1024 - 2^971; what rounds to 2^1024 or more
    is an infinity. *)
Definition overflow : Z := 2 ^ 1024.

(** The number an integer result is stored as. *)
Definition round (z : Z) : num :=
  let r := nearest z in
  if overflow <=? Z.abs r then Inf (z <? 0) else Fin r.

(** [a + b] *)
Definition add (a b : num) : num :=
  match a, b with
  | NaN, _ | _, NaN => NaN
  | Inf s, Inf t => if Bool.eqb s t then Inf s else NaN
  | Inf s, Fin _ | Fin _, Inf s => Inf s
  | Fin x, Fin y => round (x + y)
  end.

(** [- a] *)
Definition opp (a : num) : num :=
  match a with
  | Fin x => Fin (- x)
  | Inf s => Inf (negb s)
  | NaN => NaN
  end.

(** [a - b] *)
Definition sub (a b : num) : num := add a (opp b).

(** [a * b] *)
Definition mul (a b : num) : num :=
  match a, b with
  | NaN, _ | _, NaN => NaN
  | Inf s, Inf t => Inf (xorb s t)
  | Inf s, Fin x | Fin x, Inf s => if x =? 0 then NaN else Inf (xorb s (x <? 0))
  | Fin x, Fin y => round (x * y)
  end.

(** [a < b], [a <= b] and [a === b]: false when one side is NaN. *)
Definition lt (a b : num) : bool :=
  match a, b with
  | NaN, _ | _, NaN => false
  | Inf s, Inf t => s && negb t
  | Inf s, Fin _ => s
  | Fin _, Inf t => negb t
  | Fin x, Fin y => x <? y
  end.

Definition eq (a b : num) : bool :=
  match a, b with
  | Fin x, Fin y => x =? y
  | Inf s, Inf t => Bool.eqb s t
  | _, _ => false
  end.

Definition le (a b : num) : bool := lt a b || eq a b.

(** [Math.min(a, b)] *)
Definition min (a b : num) : num :=
  match a, b with
  | NaN, _ | _, NaN => NaN
  | _, _ => if lt b a then b else a
  end.

(** The double nearest to the quotient [p / q] of two positive integers,
    as a significand and an exponent, [(m, e)] for [m * 2^e]: [e] leaves
    53 bits to [m], and is at least -1074, where the doubles end. *)
Definition quotient (p q : Z) : Z * Z :=
  let scaled e := if 0 <=? e then p / (q * 2 ^ e) else (p * 2 ^ (- e)) / q in
  let e0 := Z.log2 p - Z.log2 q - 52 in
  let e := Z.max (if scaled e0 <? 2 ^ 52 then e0 - 1 else e0) (-1074) in
  let n := if 0 <=? e then p else p * 2 ^ (- e) in
  let d := if 0 <=? e then q * 2 ^ e else q in
  let m := n / d in
  let r := n mod d in
  (if 2 * r <? d then m
   else if d <? 2 * r then m + 1
   else if Z.even m then m else m + 1, e).

(** The integers next to [m * 2^e]. *)
Definition ceil_scaled (me : Z * Z) : Z :=
  let '(m, e) := me in if 0 <=? e then m * 2 ^ e else - ((- m) / 2 ^ (- e)).

Definition floor_scaled (me : Z * Z) : Z :=
  let '(m, e) := me in if 0 <=? e then m * 2 ^ e else m / 2 ^ (- e).

(** [Math.ceil(a / b)]: the quotient is rounded to a double, then taken
    up to an integer. The quotient of two doubles that hold integers does
    not overflow. A division by zero is by the one zero there is here. *)
Definition ceil_div (a b : num) : num :=
  match a, b with
  | NaN, _ | _, NaN => NaN
  | Inf _, Inf _ => NaN
  | Inf s, Fin y => Inf (xorb s (y <? 0))
  | Fin _, Inf _ => Fin 0
  | Fin x, Fin y =>
      if y =? 0 then (if x =? 0 then NaN else Inf (x <? 0))
      else if x =? 0 then Fin 0
      else if Bool.eqb (x <? 0) (y <? 0)
      then Fin (ceil_scaled (quotient (Z.abs x) (Z.abs y)))
      else Fin (- floor_scaled (quotient (Z.abs x) (Z.abs y)))
  end.

End Num.

(** Values that reach the handlers: [undefined], a number, a string, or
    the array of strings [qs.parse] builds for a repeated key. *)
Inductive val :=
  | VUndef
  | VNum (n : num)
  | VStr (s : string)
  | VArr (l : list string).

#[global] Instance val_eq_dec : EqDecision val.
Proof. solve_decision. Defined.

(** A value, a thrown exception, or a loop whose test holds for ever.
    (An engine gives such a loop up when the string it builds reaches the
    largest length; the request is not answered then either.) *)
Inductive result (A : Type) :=
  | Ok (a : A)
  | Throw (e : string)
  | Diverge.
Arguments Ok {A} a.
Arguments Throw {A} e.
Arguments Diverge {A}.

#[global] Instance result_ret : MRet result := fun A a => Ok a.
#[global] Instance result_bind : MBind result := fun A B k m =>
  match m with
  | Ok a => k a
  | Throw e => Throw e
  | Diverge => Diverge
  end.

Definition code (c : ascii) : N := N_of_ascii c.

(** [String.prototype.split] with a one-character separator. *)
Fixpoint split (sep : ascii) (s : string) : list string :=
  match s with
  | EmptyString => [EmptyString]
  | String c r =>
      if Ascii.eqb c sep then EmptyString :: split sep r
      else match split sep r with
           | [] => [String c EmptyString]
           | p :: ps => String c p :: ps
           end
  end.

(** [Array.prototype.join] on strings. *)
Fixpoint join (sep : string) (l : list string) : string :=
  match l with
  | [] => EmptyString
  | [x] => x
  | x :: r => (x ++ sep ++ join sep r)%string
  end.

Fixpoint drop_str (n : nat) (s : string) : string :=
  match n, s with
  | S n, String _ r => drop_str n r
  | _, _ => s
  end.

Fixpoint rev_str (acc s : string) : string :=
  match s with
  | EmptyString => acc
  | String c r => rev_str (String c acc) r
  end.

(** ECMAScript WhiteSpace and LineTerminator code points, in UTF-8:
    U+0009..U+000D, U+0020, U+00A0, U+1680, U+2000..U+200A, U+2028,
    U+2029, U+202F, U+205F, U+3000, U+FEFF. *)
Definition is_ws1 (a : N) : bool :=
  ((9 <=? a) && (a <=? 13) || (a =? 32))%N.

Definition is_ws2 (a b : N) : bool :=
  ((a =? 194) && (b =? 160))%N.

Definition is_ws3 (a b c : N) : bool :=
  ((a =? 225) && (b =? 154) && (c =? 128)
   || (a =? 226) && (b =? 128)
      && ((128 <=? c) && (c <=? 138) || (c =? 168) || (c =? 169) || (c =? 175))
   || (a =? 226) && (b =? 129) && (c =? 159)
   || (a =? 227) && (b =? 128) && (c =? 128)
   || (a =? 239) && (b =? 187) && (c =? 191))%N.

(** Number of bytes of the white-space character [s] starts with, or 0. *)
Definition ws_head (s : string) : nat :=
  match s with
  | String a r =>
      if is_ws1 (code a) then 1%nat
      else match r with
           | String b r' =>
               if is_ws2 (code a) (code b) then 2%nat
               else match r' with
                    | String c _ =>
                        if is_ws3 (code a) (code b) (code c) then 3%nat else 0%nat
                    | EmptyString => 0%nat
                    end
           | EmptyString => 0%nat
           end
  | EmptyString => 0%nat
  end.

(** The same for a string read backwards: the bytes of the last character
    come in reverse order. *)
Definition ws_last (s : string) : nat :=
  match s with
  | String c r =>
      if is_ws1 (code c) then 1%nat
      else match r with
           | String b r' =>
               if is_ws2 (code b) (code c) then 2%nat
               else match r' with
                    | String a _ =>
                        if is_ws3 (code a) (code b) (code c) then 3%nat else 0%nat
                    | EmptyString => 0%nat
                    end
           | EmptyString => 0%nat
           end
  | EmptyString => 0%nat
  end.

Fixpoint strip (head : string -> nat) (fuel : nat) (s : string) : string :=
  match fuel with
  | O => s
  | S fuel =>
      match head s with
      | O => s
      | k => strip head fuel (drop_str k s)
      end
  end.

Definition trimStart (s : string) : string :=
  strip ws_head (String.length s) s.

Definition trimEnd (s : string) : string :=
  rev_str EmptyString (strip ws_last (String.length s) (rev_str EmptyString s)).

(** [String.prototype.trim]. *)
Definition trim (s : string) : string := trimEnd (trimStart s).

(** Value of a digit in radix 10 or 16. *)
Definition digit (radix : Z) (c : ascii) : option Z :=
  let a := Z.of_N (code c) in
  if (48 <=? a) && (a <=? 57) then Some (a - 48)
  else if (radix =? 16) && (97 <=? a) && (a <=? 102) then Some (a - 87)
  else if (radix =? 16) && (65 <=? a) && (a <=? 70) then Some (a - 55)
  else None.

(** The longest prefix of radix digits, as a number; [None] when there is
    no digit at all. *)
Fixpoint digits (radix : Z) (acc : option Z) (s : string) : option Z :=
  match s with
  | EmptyString => acc
  | String c r =>
      match digit radix c with
      | Some d => digits radix (Some (radix * default 0 acc + d)) r
      | None => acc
      end
  end.

(** [parseInt(string)] with no radix argument: the integer the digits
    write, rounded to a double, as V8 does it. *)
Definition parseInt_str (s : string) : num :=
  let s0 := trimStart s in
  let '(sign, s1) :=
    match s0 with
    | String "-" r => (-1, r)
    | String "+" r => (1, r)
    | _ => (1, s0)
    end in
  let '(radix, s2) :=
    match s1 with
    | String "0" (String "x" r) => (16, r)
    | String "0" (String "X" r) => (16, r)
    | _ => (10, s1)
    end in
  match digits radix None s2 with
  | Some n => Num.round (sign * n)
  | None => NaN
  end.

(** [ToString] of a number. An integer below 2^53 in absolute value
    prints as its decimal digits, and these are the numbers the program
    prints where the text matters (ids in links, the defaults 1 and 10);
    a larger one prints in a shortened form that is not followed here. *)
Definition number_text (n : num) : string :=
  match n with
  | Fin z => pretty z
  | Inf false => "Infinity"
  | Inf true => "-Infinity"
  | NaN => "NaN"
  end.

(** [ToString] of the values that [parseInt] and template strings meet. *)
Definition toString (v : val) : string :=
  match v with
  | VUndef => "undefined"
  | VNum n => number_text n
  | VStr s => s
  | VArr l => join "," l
  end.

(** [parseInt(v)]. What the URL and form parsers hand over is never a
    number; a number is its own integer. *)
Definition parseInt (v : val) : num :=
  match v with
  | VNum n => n
  | _ => parseInt_str (toString v)
  end.

(** JavaScript truthiness: zero and NaN are falsy. *)
Definition truthy (v : val) : bool :=
  match v with
  | VUndef => false
  | VNum n => negb (Num.eq n (Fin 0)) && Num.eq n n
  | VStr s => negb (String.eqb s EmptyString)
  | VArr _ => true
  end.

(** [a || b]. *)
Definition or_else (a b : val) : val := if truthy a then a else b.

(** [a === b]: arrays are compared by identity, and two arrays built by
    the parser or read from a file are never the same object. *)
Definition strict_eq (a b : val) : bool :=
  match a, b with
  | VUndef, VUndef => true
  | VNum x, VNum y => Num.eq x y
  | VStr x, VStr y => String.eqb x y
  | _, _ => false
  end.

(** *** Header values

    The characters [http] lets into a header value are the tab and
    U+0020 to U+007E, U+0080 to U+00FF; in UTF-8 the latter are the
    two-byte characters whose first byte is 0xC2 or 0xC3. *)
Fixpoint header_ok (s : string) : bool :=
  match s with
  | EmptyString => true
  | String a r =>
      let c := code a in
      if ((c =? 9) || (32 <=? c) && (c <=? 126))%N then header_ok r
      else if ((c =? 194) || (c =? 195))%N then
        match r with
        | String b r' => ((128 <=? code b) && (code b <=? 191))%N && header_ok r'
        | EmptyString => false
        end
      else false
  end.

(** *** decodeURIComponent *)

Definition hex (c : ascii) : option N := Z.to_N <$> digit 16 c.

(** One escape [%XY] at the head of [s]: its byte and the rest. *)
Definition escape (s : string) : option (N * string) :=
  match s with
  | String "%" (String x (String y r)) =>
      match hex x, hex y with
      | Some a, Some b => Some (16 * a + b, r)%N
      | _, _ => None
      end
  | _ => None
  end.

(** [n] continuation escapes (bytes 10xxxxxx), folded into a code point. *)
Fixpoint continuation (n : nat) (cp : N) (s : string) : option (N * string * string) :=
  match n with
  | O => Some (cp, EmptyString, s)
  | S n =>
      match escape s with
      | Some (b, r) =>
          if (N.land b 192 =? 128)%N then
            match continuation n (cp * 64 + N.land b 63)%N r with
            | Some (cp', bytes, r') => Some (cp', String (ascii_of_N b) bytes, r')
            | None => None
            end
          else None
      | None => None
      end
  end.

(** Length of the UTF-8 sequence a leading byte announces and the bits it
    contributes; [None] for a continuation byte or more than four bytes. *)
Definition leading (b : N) : option (nat * N) :=
  (if b <? 128 then Some (0%nat, b)
   else if b <? 192 then None
   else if b <? 224 then Some (1%nat, N.land b 31)
   else if b <? 240 then Some (2%nat, N.land b 15)
   else if b <? 248 then Some (3%nat, N.land b 7)
   else None)%N.

(** A code point is well encoded by [n] continuation bytes: shortest
    form, no surrogate, at most U+10FFFF. *)
Definition well_encoded (n : nat) (cp : N) : bool :=
  match n with
  | 0%nat => true
  | 1%nat => (128 <=? cp)%N
  | 2%nat => ((2048 <=? cp) && negb ((55296 <=? cp) && (cp <=? 57343)))%N
  | _ => ((65536 <=? cp) && (cp <=? 1114111))%N
  end.

Fixpoint decode (fuel : nat) (s : string) : option string :=
  match fuel with
  | O => Some EmptyString
  | S fuel =>
      match s with
      | EmptyString => Some EmptyString
      | String "%" _ =>
          match escape s with
          | Some (b, r) =>
              match leading b with
              | Some (n, bits) =>
                  match continuation n bits r with
                  | Some (cp, bytes, r') =>
                      if well_encoded n cp then
                        String.append (String (ascii_of_N b) bytes) <$> decode fuel r'
                      else None
                  | None => None
                  end
              | None => None
              end
          | None => None
          end
      | String c r => String c <$> decode fuel r
      end
  end.

(** [decodeURIComponent]: a URIError on a [%] that does not start a
    well-formed escape of a UTF-8 encoded character. *)
Definition decodeURIComponent (s : string) : result string :=
  match decode (S (String.length s)) s with
  | Some d => Ok d
  | None => Throw "URIError"
  end.

End JS.
Export JS.

(** ** Data model *)

Module Topic.
Record t := mk {
  id : Z;
  title : val;
  description : val;
  created_at : Z;   (* epoch milliseconds of the ISO string *)
  updated_at : Z;
  author : Z
}.
End Topic.

Module User.
(** [password] is [None] once the property has been deleted. *)
Record t := mk {
  id : Z;
  username : val;
  password : option val;
  nickname : val
}.
End User.

#[global] Instance topic_eq_dec : EqDecision Topic.t.
Proof. solve_decision. Defined.
#[global] Instance user_eq_dec : EqDecision User.t.
Proof. solve_decision. Defined.

Abbreviation loc := positive (only parsing).

(** A heap cell: a post object, a user object, or an array of references. *)
Inductive cell :=
  | TopicObj (t : Topic.t)
  | UserObj (u : User.t)
  | Arr (l : list loc).

(** A JSON file as [fs.readFileSync] finds it. *)
Inductive file (A : Type) :=
  | Missing              (* ENOENT *)
  | Unreadable           (* any other read or parse error *)
  | Content (data : list A).
Arguments Missing {A}.
Arguments Unreadable {A}.
Arguments Content {A} data.

Record Disk := {
  topics_json : file Topic.t;
  users_json : file User.t
}.

(** The module-level variables of server.js, the heap they point into and
    the two files. *)
Record State := {
  heap : gmap loc cell;
  topics : loc;
  users : loc;
  nextId : Z;
  nextUserId : Z;
  sessions : gmap string Z;
  disk : Disk
}.

Definition set_heap (h : gmap loc cell) (st : State) : State :=
  {| heap := h; topics := topics st; users := users st; nextId := nextId st;
     nextUserId := nextUserId st; sessions := sessions st; disk := disk st |}.
Definition set_topics (a : loc) (st : State) : State :=
  {| heap := heap st; topics := a; users := users st; nextId := nextId st;
     nextUserId := nextUserId st; sessions := sessions st; disk := disk st |}.
Definition set_users (a : loc) (st : State) : State :=
  {| heap := heap st; topics := topics st; users := a; nextId := nextId st;
     nextUserId := nextUserId st; sessions := sessions st; disk := disk st |}.
Definition set_nextId (n : Z) (st : State) : State :=
  {| heap := heap st; topics := topics st; users := users st; nextId := n;
     nextUserId := nextUserId st; sessions := sessions st; disk := disk st |}.
Definition set_nextUserId (n : Z) (st : State) : State :=
  {| heap := heap st; topics := topics st; users := users st; nextId := nextId st;
     nextUserId := n; sessions := sessions st; disk := disk st |}.
Definition set_sessions (s : gmap string Z) (st : State) : State :=
  {| heap := heap st; topics := topics st; users := users st; nextId := nextId st;
     nextUserId := nextUserId st; sessions := s; disk := disk st |}.
Definition set_disk (d : Disk) (st : State) : State :=
  {| heap := heap st; topics := topics st; users := users st; nextId := nextId st;
     nextUserId := nextUserId st; sessions := sessions st; disk := d |}.

(** How a call of [fs.writeFileSync] ends. It opens the file with flag
    ['w'], which creates or empties it, and then writes: the call succeeds;
    or it fails at the open, and the file is as it was; or it fails after
    the open, and the file is there but holds no JSON text, being empty or
    cut short. *)
Inductive write :=
  | Written
  | NotOpened
  | Cut.

(** What the process reads from outside while it serves one request. *)
Record Env := {
  now : nat -> Z;                        (* successive [new Date()] readings *)
  randomBytes : string;                  (* [crypto.randomBytes(16)] in hex *)
  localeCompare : string -> string -> Z; (* the collation of the locale *)
  marked_parse : val -> result string;   (* the Markdown renderer *)
  writeFileSync : write                  (* how a write to a file ends *)
}.

Record Request := {
  method : string;
  pathname : string;
  query : gmap string val;
  cookie : option string;   (* [request.headers.cookie] *)
  body : gmap string val    (* [qs.parse] of the body *)
}.

(** Reading the heap. A reference of the wrong kind reads as nothing; the
    states the server reaches never hold one ([wf] below). *)
Definition arr (h : gmap loc cell) (a : loc) : list loc :=
  match h !! a with
  | Some (Arr l) => l
  | _ => []
  end.

Definition topic_at (h : gmap loc cell) (l : loc) : option Topic.t :=
  match h !! l with
  | Some (TopicObj t) => Some t
  | _ => None
  end.

Definition user_at (h : gmap loc cell) (l : loc) : option User.t :=
  match h !! l with
  | Some (UserObj u) => Some u
  | _ => None
  end.

(** The two collections as sequences of records. *)
Definition topicsV (st : State) : list Topic.t :=
  omap (topic_at (heap st)) (arr (heap st) (topics st)).

Definition usersV (st : State) : list User.t :=
  omap (user_at (heap st)) (arr (heap st) (users st)).

(** [o.key] on a parsed query or form object. *)
Definition get (o : gmap string val) (key : string) : val :=
  default VUndef (o !! key).

(** ** State and exceptions *)

Definition M (A : Type) : Type := State -> State * result A.

Definition ret {A} (a : A) : M A := fun st => (st, Ok a).
Definition throw {A} (e : string) : M A := fun st => (st, Throw e).
Definition bind {A B} (m : M A) (k : A -> M B) : M B := fun st =>
  match m st with
  | (st', Ok a) => k a st'
  | (st', Throw e) => (st', Throw e)
  | (st', Diverge) => (st', Diverge)
  end.
Definition lift {A} (r : result A) : M A := fun st => (st, r).
Definition gets {A} (f : State -> A) : M A := fun st => (st, Ok (f st)).
Definition modify (f : State -> State) : M unit := fun st => (f st, Ok tt).

Notation "'do' x <- m ; k" := (bind m (fun x => k))
  (at level 10, x name, m at level 100, k at level 200).
Notation "m ;; k" := (bind m (fun _ => k))
  (at level 100, k at level 200, right associativity).

(** A new object or array. *)
Definition alloc (c : cell) : M loc := fun st =>
  let l := fresh (dom (heap st)) in
  (set_heap (<[l := c]> (heap st)) st, Ok l).

(** ** Persistence *)

(** [saveData]: a failed write is logged and nothing else; the file is
    what [fs.writeFileSync] left of it. *)
Definition saveData {A} (env : Env) (f : file A) (data : list A) : file A :=
  match writeFileSync env with
  | Written => Content data
  | NotOpened => f
  | Cut => Unreadable
  end.

Definition loadData {A} (env : Env) (f : file A) (initialData : list A)
  : file A * list A :=
  match f with
  | Content data => (f, data)
  | Missing => (saveData env f initialData, initialData)
  | Unreadable => (f, initialData)
  end.

Definition saveTopics (env : Env) : M unit :=
  modify (fun st =>
    set_disk {| topics_json := saveData env (topics_json (disk st)) (topicsV st);
                users_json := users_json (disk st) |} st).

Definition saveUsers (env : Env) : M unit :=
  modify (fun st =>
    set_disk {| topics_json := topics_json (disk st);
                users_json := saveData env (users_json (disk st)) (usersV st) |} st).

(** ** Helpers *)

(** [(!str || str.trim().length === 0)]; [trim] is not a function on an
    array. *)
Definition isEmptyOrWhitespace (str : val) : result bool :=
  match str with
  | VUndef => Ok true
  | VNum n => if truthy (VNum n) then Throw "TypeError" else Ok true
  | VStr s => Ok (String.eqb s EmptyString || (String.length (trim s) =? 0)%nat)
  | VArr _ => Throw "TypeError"
  end.

(** [parts[1]] of a split. *)
Definition second (parts : list string) : option string := parts !! 1%nat.

Definition parseCookies (req : Request) : result (gmap string string) :=
  match cookie req with
  | None => Ok ∅
  | Some cookieHeader =>
      if String.eqb cookieHeader EmptyString then Ok ∅
      else
        foldl (fun acc c =>
                 list ← acc;
                 let parts := split "=" c in
                 let key := trim (default EmptyString (head parts)) in
                 match second parts with
                 | Some p =>
                     if String.eqb p EmptyString then Ok (<[key := EmptyString]> list)
                     else v ← decodeURIComponent (trim p); Ok (<[key := v]> list)
                 | None => Ok (<[key := EmptyString]> list)
                 end)
              (Ok ∅) (split ";" cookieHeader)
  end.

Definition has_user_id (h : gmap loc cell) (userId : Z) (l : loc) : bool :=
  match user_at h l with
  | Some u => User.id u =? userId
  | None => false
  end.

(** [t.id === topicId] for the result of a [parseInt]. *)
Definition has_topic_id (h : gmap loc cell) (topicId : num) (l : loc) : bool :=
  match topic_at h l with
  | Some t => Num.eq (Fin (Topic.id t)) topicId
  | None => false
  end.

(** [{ ...user }] followed by [delete loggedInUser.password]. *)
Definition strip_password (u : User.t) : User.t :=
  {| User.id := User.id u; User.username := User.username u;
     User.password := None; User.nickname := User.nickname u |}.

(** The session table is a plain object: a key it inherits from
    [Object.prototype] reads as a truthy value that is no user id, which
    ends in [null] like a key that is absent. *)
Definition getLoggedInUser (req : Request) : M (option loc) :=
  do cookies <- lift (parseCookies req);
  do ss <- gets sessions;
  match cookies !! "sessionId" with
  | Some sessionId =>
      if negb (String.eqb sessionId EmptyString) then
        match ss !! sessionId with
        | Some userId =>
            if negb (userId =? 0) then
              do h <- gets heap;
              do us <- gets users;
              match find (has_user_id h userId) (arr h us) with
              | Some user =>
                  match user_at h user with
                  | Some u =>
                      do loggedInUser <- alloc (UserObj u);
                      modify (fun st =>
                        set_heap (<[loggedInUser := UserObj (strip_password u)]> (heap st)) st);;
                      ret (Some loggedInUser)
                  | None => ret None
                  end
              | None => ret None
              end
            else ret None
        | None => ret None
        end
      else ret None
  | None => ret None
  end.

(** ** Listing engine *)

(** [Array.prototype.sort(compareFn)]: a stable sort; [compareFn a b < 0]
    puts [a] first. The comparator may throw; which pairs an engine
    compares before the exception is its own business, here they are those
    of an insertion sort. *)
Fixpoint insertM {A} (cmp : A -> A -> result Z) (x : A) (l : list A) : result (list A) :=
  match l with
  | [] => Ok [x]
  | y :: r =>
      c ← cmp x y;
      if c <=? 0 then Ok (x :: y :: r)
      else r' ← insertM cmp x r; Ok (y :: r')
  end.

Fixpoint sortM {A} (cmp : A -> A -> result Z) (l : list A) : result (list A) :=
  match l with
  | [] => Ok []
  | x :: r => r' ← sortM cmp r; insertM cmp x r'
  end.

(** Reading a property of what a reference holds. *)
Definition topic_of (h : gmap loc cell) (l : loc) : result Topic.t :=
  match topic_at h l with
  | Some t => Ok t
  | None => Throw "TypeError"
  end.

Definition user_of (h : gmap loc cell) (l : loc) : result User.t :=
  match user_at h l with
  | Some u => Ok u
  | None => Throw "TypeError"
  end.

(** [new Date(b.created_at) - new Date(a.created_at)] *)
Definition by_latest (h : gmap loc cell) (a b : loc) : result Z :=
  ta ← topic_of h a; tb ← topic_of h b;
  Ok (Topic.created_at tb - Topic.created_at ta).

(** [new Date(a.created_at) - new Date(b.created_at)] *)
Definition by_oldest (h : gmap loc cell) (a b : loc) : result Z :=
  ta ← topic_of h a; tb ← topic_of h b;
  Ok (Topic.created_at ta - Topic.created_at tb).

(** [a.title.localeCompare(b.title)] *)
Definition by_title (env : Env) (h : gmap loc cell) (a b : loc) : result Z :=
  ta ← topic_of h a; tb ← topic_of h b;
  match Topic.title ta with
  | VStr s => Ok (localeCompare env s (toString (Topic.title tb)))
  | _ => Throw "TypeError"
  end.

(** The [switch (sort)]: its cases compare with [===]. *)
Definition comparator (env : Env) (h : gmap loc cell) (sort : val)
  : loc -> loc -> result Z :=
  if strict_eq sort (VStr "latest") then by_latest h
  else if strict_eq sort (VStr "oldest") then by_oldest h
  else if strict_eq sort (VStr "title_asc") then by_title env h
  else by_latest h.

(** [sorted = [...topicArray]] is a new array; [sorted.sort] reorders it
    in place and returns it. *)
Definition sortTopics (env : Env) (topicArray : loc) (sort : val) : M loc :=
  do h <- gets heap;
  do sorted <- alloc (Arr (arr h topicArray));
  do l <- lift (sortM (comparator env h sort) (arr h topicArray));
  modify (fun st => set_heap (<[sorted := Arr l]> (heap st)) st);;
  ret sorted.

(** The index that [slice] makes of an argument, for an array of length
    [len]: NaN counts as 0, a negative number counts from the end. *)
Definition index (len : Z) (i : num) : Z :=
  match i with
  | NaN => 0
  | Inf true => 0
  | Inf false => len
  | Fin z => if z <? 0 then Z.max (len + z) 0 else Z.min z len
  end.

(** [Array.prototype.slice(start, end)] *)
Definition slice {A} (l : list A) (start end_ : num) : list A :=
  let len := Z.of_nat (length l) in
  let k := index len start in
  let final := index len end_ in
  take (Z.to_nat (final - k)) (drop (Z.to_nat k) l).

(** [parseInt(x) || d] *)
Definition parseInt_or (x : val) (d : num) : num :=
  if truthy (VNum (parseInt x)) then parseInt x else d.

Definition DEFAULT_ITEMS_PER_PAGE : num := Fin 10.

(** The window of the '/' handler: [sortedTopics.slice(startIndex, endIndex)]. *)
Definition pagedTopics {A} (sortedTopics : list A) (page limit : num) : list A :=
  let startIndex := Num.mul (Num.sub page (Fin 1)) limit in
  let endIndex := Num.add startIndex limit in
  slice sortedTopics startIndex endIndex.

(** ** Views *)

(** The pager: the link to the group before, the page links, the page
    marked as current, the link to the group after, and the [limit] and
    [sort] that every link carries. *)
Record Pager := {
  pg_prev : option num;
  pg_pages : list num;
  pg_current : num;
  pg_next : option num;
  pg_limit : num;
  pg_sort : val
}.

(** [for (let i = startPage; i <= endPage; i++)]: the pages the loop
    visits. When [i++] does not take [i] further, the test holds for ever
    and the loop does not end: [None]. Each turn that goes on takes [i] at
    least 1 further, so the loop is over after [fuel] turns when [fuel]
    is the distance to [endPage]. *)
Fixpoint pageLinks (fuel : nat) (i endPage : num) : option (list num) :=
  if Num.le i endPage then
    match fuel with
    | O => None
    | S fuel =>
        let i' := Num.add i (Fin 1) in
        if Num.lt i i' then cons i <$> pageLinks fuel i' endPage else None
    end
  else Some [].

Definition distance (startPage endPage : num) : nat :=
  match startPage, endPage with
  | Fin s, Fin e => Z.to_nat (e - s + 1)
  | _, _ => 1
  end.

(** [None] is the empty string. The function does not return when its
    loop does not end. *)
Definition templatePagination (totalTopics : nat) (page limit : num) (sort : val)
  : result (option Pager) :=
  let totalPages := Num.ceil_div (Fin (Z.of_nat totalTopics)) limit in
  if Num.le totalPages (Fin 1) then Ok None
  else
    let pageGroupSize := Fin 5 in
    let currentGroup := Num.ceil_div page pageGroupSize in
    let startPage := Num.add (Num.mul (Num.sub currentGroup (Fin 1)) pageGroupSize) (Fin 1) in
    let endPage := Num.min (Num.sub (Num.add startPage pageGroupSize) (Fin 1)) totalPages in
    match pageLinks (distance startPage endPage) startPage endPage with
    | None => Diverge
    | Some pages =>
        Ok (Some {|
          pg_prev := if Num.lt (Fin 1) currentGroup
                     then Some (Num.sub startPage (Fin 1)) else None;
          pg_pages := pages;
          pg_current := page;
          pg_next := if Num.lt (Num.mul currentGroup pageGroupSize) totalPages
                     then Some (Num.add endPage (Fin 1)) else None;
          pg_limit := limit;
          pg_sort := sort
        |})
    end.

Definition system_name : val := VStr "시스템".

(** [authorUser ? authorUser.nickname : '시스템'] *)
Definition authorName (h : gmap loc cell) (us : loc) (author : Z) : val :=
  match find (has_user_id h author) (arr h us) with
  | Some l =>
      match user_at h l with
      | Some u => User.nickname u
      | None => system_name
      end
  | None => system_name
  end.

Record ListItem := {
  li_topic : Topic.t;
  li_author : val
}.

Record ListHtml := {
  l_pager : option Pager;
  l_items : list ListItem;
  l_page : val;
  l_limit : val;
  l_sort : val
}.

Definition templateList (h : gmap loc cell) (us : loc) (topics : list loc)
    (page limit sort : val) : ListHtml :=
  {| l_pager := None;
     l_items := omap (fun l => (fun t => {| li_topic := t;
                                             li_author := authorName h us (Topic.author t) |})
                                <$> topic_at h l) topics;
     l_page := page; l_limit := limit; l_sort := sort |}.

(** The bodies the handlers pass to [templateHTML]. *)
Inductive Body :=
  | BodyIntro
  | BodyTopic (title author : val) (created_at : Z) (markdown : string)
  | BodyTopicNotFound
  | BodyCreateForm (page limit sort : val)
  | BodyUpdateForm (t : Topic.t) (page limit sort : val)
  | BodyLoginForm
  | BodyRegisterForm
  | Body400Create
  | Body400Register
  | Body403Update
  | Body403Delete
  | Body409
  | Body401
  | Body500
  | Body404.

(** [templateHTML(title, list, body, control, sort, limit, page, loggedInUser)];
    [control] is the topic id of the edit and delete controls, if shown. *)
Record Html := {
  h_title : val;
  h_list : ListHtml;
  h_body : Body;
  h_control : option val;
  h_sort : val;
  h_limit : val;
  h_page : val;
  h_user : option User.t
}.

Definition templateHTML (title : val) (list : ListHtml) (body : Body)
    (control : option val) (sort limit page : val) (loggedInUser : option User.t) : Html :=
  {| h_title := title; h_list := list; h_body := body; h_control := control;
     h_sort := sort; h_limit := limit; h_page := page; h_user := loggedInUser |}.

(** ** Responses *)

Inductive Location :=
  | ToLogin                                   (* /login *)
  | ToRoot                                    (* / *)
  | ToList (page limit sort : val)            (* /?page=..&limit=..&sort=.. *)
  | ToTopic (id : num) (page limit sort : val).  (* /?id=..&page=.. *)

(** [`page=${page}&limit=${limit}&sort=${sort}`] *)
Definition listBaseQuery (page limit sort : val) : string :=
  ("page=" ++ toString page ++ "&limit=" ++ toString limit
   ++ "&sort=" ++ toString sort)%string.

(** The text of the [Location] header. *)
Definition location_text (to : Location) : string :=
  match to with
  | ToLogin => "/login"
  | ToRoot => "/"
  | ToList page limit sort => ("/?" ++ listBaseQuery page limit sort)%string
  | ToTopic id page limit sort =>
      ("/?id=" ++ number_text id ++ "&" ++ listBaseQuery page limit sort)%string
  end.

Inductive SetCookie :=
  | SessionCookie (sessionId : string)        (* HttpOnly, Max-Age 30 days *)
  | ExpiredCookie.                            (* Max-Age=0 *)

Record Response := {
  status : Z;
  location : option Location;
  set_cookie : option SetCookie;
  html : option Html
}.

Definition page (code : Z) (h : Html) : Response :=
  {| status := code; location := None; set_cookie := None; html := Some h |}.

Definition redirect (to : Location) (c : option SetCookie) : Response :=
  {| status := 302; location := Some to; set_cookie := c; html := None |}.

(** What a request ends in: a response; no response at all (the socket
    stays open); an exception nobody catches, on which the process exits;
    or a listener that does not return, after which the process serves
    nothing. In the last two cases the state is what the memory held at
    that moment, and only the files outlive it. *)
Inductive Outcome :=
  | Responded (r : Response)
  | NoResponse
  | Crashed (e : string)
  | Hangs.

(** ** Request router *)

Fixpoint findIndex {A} (p : A -> bool) (l : list A) : option nat :=
  match l with
  | [] => None
  | x :: r => if p x then Some 0%nat else S <$> findIndex p r
  end.

(** The record a reference to the logged-in user holds, for the views. *)
Definition snapshot (h : gmap loc cell) (loggedInUser : option loc) : option User.t :=
  loggedInUser ≫= user_at h.

(** [templateList([], 1, DEFAULT_ITEMS_PER_PAGE, 'latest')] *)
Definition emptyListHtml (st : State) : ListHtml :=
  templateList (heap st) (users st) [] (VNum (Fin 1)) (VNum DEFAULT_ITEMS_PER_PAGE) (VStr "latest").

(** [loggedInUser && loggedInUser.id === topic.author] *)
Definition is_author (h : gmap loc cell) (loggedInUser : option loc) (t : Topic.t) : bool :=
  match snapshot h loggedInUser with
  | Some u => User.id u =? Topic.author t
  | None => false
  end.

Definition root (env : Env) (req : Request) (loggedInUser : option loc) : M Response :=
  let topicId := get (query req) "id" in
  let page_ := parseInt_or (get (query req) "page") (Fin 1) in
  let limit := parseInt_or (get (query req) "limit") DEFAULT_ITEMS_PER_PAGE in
  let sort := or_else (get (query req) "sort") (VStr "latest") in
  do ts <- gets topics;
  do sortedTopics <- sortTopics env ts sort;
  do h <- gets heap;
  do us <- gets users;
  let totalTopics := length (arr h sortedTopics) in
  let paged := pagedTopics (arr h sortedTopics) page_ limit in
  do paginationHtml <- lift (templatePagination totalTopics page_ limit sort);
  let list := templateList h us paged (VNum page_) (VNum limit) sort in
  let listHtml :=
    {| l_pager := paginationHtml; l_items := l_items list; l_page := l_page list;
       l_limit := l_limit list; l_sort := l_sort list |} in
  let render title bodyHtml controlHtml :=
    page 200 (templateHTML title listHtml bodyHtml controlHtml sort (VNum limit)
                (VNum page_) (snapshot h loggedInUser)) in
  if truthy topicId then
    match find (has_topic_id h (parseInt topicId)) (arr h ts) with
    | Some l =>
        do topic <- lift (topic_of h l);
        do markdownContent <- lift (marked_parse env (Topic.description topic));
        ret (render (Topic.title topic)
               (BodyTopic (Topic.title topic) (authorName h us (Topic.author topic))
                  (Topic.created_at topic) markdownContent)
               (if is_author h loggedInUser topic then Some topicId else None))
    | None => ret (render (VStr "404 Not Found") BodyTopicNotFound None)
    end
  else ret (render (VStr "환영합니다") BodyIntro None).

Definition create (req : Request) (loggedInUser : option loc) : M Response :=
  do st <- gets id;
  match loggedInUser with
  | None => ret (redirect ToLogin None)
  | Some _ =>
      let page_ := or_else (get (query req) "page") (VNum (Fin 1)) in
      let limit := or_else (get (query req) "limit") (VNum DEFAULT_ITEMS_PER_PAGE) in
      let sort := or_else (get (query req) "sort") (VStr "latest") in
      ret (page 200 (templateHTML (VStr "글 작성") (emptyListHtml st)
                       (BodyCreateForm page_ limit sort) None sort limit page_
                       (snapshot (heap st) loggedInUser)))
  end.

Definition update (req : Request) (loggedInUser : option loc) : M Response :=
  do st <- gets id;
  let h := heap st in
  match loggedInUser with
  | None => ret (redirect ToLogin None)
  | Some me =>
      let topicId := parseInt (get (query req) "id") in
      let forbidden :=
        page 403 (templateHTML (VStr "403") (emptyListHtml st) Body403Update None
                    (get (query req) "sort") (get (query req) "limit")
                    (get (query req) "page") (snapshot h loggedInUser)) in
      match find (has_topic_id h topicId) (arr h (topics st)) with
      | None => ret forbidden
      | Some l =>
          do topic <- lift (topic_of h l);
          do u <- lift (user_of h me);
          if negb (Topic.author topic =? User.id u) then ret forbidden
          else
            let page_ := or_else (get (query req) "page") (VNum (Fin 1)) in
            let limit := or_else (get (query req) "limit") (VNum DEFAULT_ITEMS_PER_PAGE) in
            let sort := or_else (get (query req) "sort") (VStr "latest") in
            ret (page 200 (templateHTML (VStr "글 수정") (emptyListHtml st)
                             (BodyUpdateForm topic page_ limit sort) None sort limit page_
                             (snapshot h loggedInUser)))
      end
  end.

Definition login (req : Request) (loggedInUser : option loc) : M Response :=
  do st <- gets id;
  match loggedInUser with
  | Some _ => ret (redirect ToRoot None)
  | None =>
      ret (page 200 (templateHTML (VStr "로그인") (emptyListHtml st) BodyLoginForm None
                       (get (query req) "sort") (get (query req) "limit")
                       (get (query req) "page") (snapshot (heap st) loggedInUser)))
  end.

Definition register (req : Request) (loggedInUser : option loc) : M Response :=
  do st <- gets id;
  ret (page 200 (templateHTML (VStr "회원가입") (emptyListHtml st) BodyRegisterForm None
                   (get (query req) "sort") (get (query req) "limit")
                   (get (query req) "page") (snapshot (heap st) loggedInUser))).

Definition logout_process (req : Request) : M Response :=
  do cookies <- lift (parseCookies req);
  match cookies !! "sessionId" with
  | Some sessionId =>
      if negb (String.eqb sessionId EmptyString)
      then modify (fun st => set_sessions (delete sessionId (sessions st)) st)
      else ret tt
  | None => ret tt
  end;;
  ret (redirect ToRoot (Some ExpiredCookie)).

(** The state the POST branches share: the form, the user and the list
    position that the redirects carry. *)
Record PostCtx := {
  post : gmap string val;
  postLoggedInUser : option loc;
  p_page : val;
  p_limit : val;
  p_sort : val
}.

Definition error_page (code : Z) (title : string) (b : Body) (c : PostCtx) : M Response :=
  do st <- gets id;
  ret (page code (templateHTML (VStr title) (emptyListHtml st) b None
                    (p_sort c) (p_limit c) (p_page c)
                    (snapshot (heap st) (postLoggedInUser c)))).

(** [if (!postLoggedInUser) throw new Error('Not logged in')] *)
Definition require_login (c : PostCtx) : M loc :=
  match postLoggedInUser c with
  | Some me => ret me
  | None => throw "Not logged in"
  end.

(** [response.writeHead(302, { Location })] with a [Location] made of
    form values: [http] throws on a header value with a character it does
    not let in. The fixed text and a printed number are plain ASCII. *)
Definition writeHead302 (to : Location) : result Response :=
  if header_ok (location_text to) then Ok (redirect to None)
  else Throw "ERR_INVALID_CHAR".

(** [topics.push(x)] and [users.push(x)] *)
Definition push (a x : loc) : M unit := fun st =>
  match heap st !! a with
  | Some (Arr l) => (set_heap (<[a := Arr (l ++ [x])]> (heap st)) st, Ok tt)
  | _ => (st, Throw "TypeError")
  end.

Definition create_process (env : Env) (c : PostCtx) : M Response :=
  do me <- require_login c;
  do blank_title <- lift (isEmptyOrWhitespace (get (post c) "title"));
  do blank <- (if blank_title : bool then ret true
               else lift (isEmptyOrWhitespace (get (post c) "description")));
  if blank : bool then error_page 400 "오류" Body400Create c
  else
    do n <- gets nextId;
    modify (set_nextId (Num.nearest (n + 1)));;
    do h <- gets heap;
    do u <- lift (user_of h me);
    do newTopic <- alloc (TopicObj
      {| Topic.id := n;
         Topic.title := get (post c) "title";
         Topic.description := get (post c) "description";
         Topic.created_at := now env 0;
         Topic.updated_at := now env 1;
         Topic.author := User.id u |});
    do ts <- gets topics;
    push ts newTopic;;
    saveTopics env;;
    lift (writeHead302 (ToList (p_page c) (p_limit c) (p_sort c))).

Definition update_process (env : Env) (c : PostCtx) : M Response :=
  do me <- require_login c;
  let idToUpdate := parseInt (get (post c) "id") in
  do h <- gets heap;
  do ts <- gets topics;
  let forbidden := error_page 403 "403" Body403Update c in
  match findIndex (has_topic_id h idToUpdate) (arr h ts) with
  | None => forbidden
  | Some topicIndex =>
      match arr h ts !! topicIndex with
      | None => throw "TypeError"
      | Some l =>
          do topic <- lift (topic_of h l);
          do u <- lift (user_of h me);
          if negb (Topic.author topic =? User.id u) then forbidden
          else
            modify (fun st => set_heap (<[l := TopicObj
              {| Topic.id := Topic.id topic;
                 Topic.title := get (post c) "title";
                 Topic.description := get (post c) "description";
                 Topic.created_at := Topic.created_at topic;
                 Topic.updated_at := now env 0;
                 Topic.author := Topic.author topic |}]> (heap st)) st);;
            saveTopics env;;
            lift (writeHead302 (ToTopic idToUpdate (p_page c) (p_limit c) (p_sort c)))
      end
  end.

Definition delete_process (env : Env) (c : PostCtx) : M Response :=
  do me <- require_login c;
  let idToDelete := parseInt (get (post c) "id") in
  do h <- gets heap;
  do ts <- gets topics;
  let forbidden := error_page 403 "403" Body403Delete c in
  match find (has_topic_id h idToDelete) (arr h ts) with
  | None => forbidden
  | Some l =>
      do topicToDelete <- lift (topic_of h l);
      do u <- lift (user_of h me);
      if negb (Topic.author topicToDelete =? User.id u) then forbidden
      else
        do kept <- alloc (Arr (filter (fun l => has_topic_id h idToDelete l = false)
                                 (arr h ts)));
        modify (set_topics kept);;
        saveTopics env;;
        lift (writeHead302 (ToList (p_page c) (p_limit c) (p_sort c)))
  end.

(** [u.username === post.username] *)
Definition has_username (h : gmap loc cell) (name : val) (l : loc) : bool :=
  match user_at h l with
  | Some u => strict_eq (User.username u) name
  | None => false
  end.

Definition register_process (env : Env) (c : PostCtx) : M Response :=
  do b1 <- lift (isEmptyOrWhitespace (get (post c) "username"));
  do b2 <- (if b1 : bool then ret true
            else lift (isEmptyOrWhitespace (get (post c) "password")));
  do b3 <- (if b2 : bool then ret true
            else lift (isEmptyOrWhitespace (get (post c) "nickname")));
  if b3 : bool then error_page 400 "오류" Body400Register c
  else
    do h <- gets heap;
    do us <- gets users;
    if existsb (has_username h (get (post c) "username")) (arr h us)
    then error_page 409 "오류" Body409 c
    else
      do n <- gets nextUserId;
      modify (set_nextUserId (Num.nearest (n + 1)));;
      do newUser <- alloc (UserObj
        {| User.id := n;
           User.username := get (post c) "username";
           User.password := Some (get (post c) "password");
           User.nickname := get (post c) "nickname" |});
      push us newUser;;
      saveUsers env;;
      ret (redirect ToLogin None).

(** [u.username === post.username && u.password === post.password] *)
Definition has_credentials (h : gmap loc cell) (name pw : val) (l : loc) : bool :=
  match user_at h l with
  | Some u => strict_eq (User.username u) name
              && strict_eq (default VUndef (User.password u)) pw
  | None => false
  end.

Definition login_process (env : Env) (c : PostCtx) : M Response :=
  do h <- gets heap;
  do us <- gets users;
  match find (has_credentials h (get (post c) "username") (get (post c) "password"))
             (arr h us) with
  | Some l =>
      do user <- lift (user_of h l);
      let sessionId := randomBytes env in
      modify (fun st => set_sessions (<[sessionId := User.id user]> (sessions st)) st);;
      ret (redirect ToRoot (Some (SessionCookie sessionId)))
  | None => error_page 401 "로그인 실패" Body401 c
  end.

(** [try { ... } catch (error) { 500 }] *)
Definition catch (m : M (option Response)) (handler : M Response) : M (option Response) :=
  fun st =>
    match m st with
    | (st', Ok r) => (st', Ok r)
    | (st', Throw _) =>
        match handler st' with
        | (st'', Ok r) => (st'', Ok (Some r))
        | (st'', Throw e) => (st'', Throw e)
        | (st'', Diverge) => (st'', Diverge)
        end
    | (st', Diverge) => (st', Diverge)
    end.

Definition some {A} (m : M A) : M (option A) := do a <- m; ret (Some a).

(** [page], [limit], [sort] of the form, for the redirects. *)
Definition post_ctx (req : Request) (me : option loc) : PostCtx :=
  {| post := body req; postLoggedInUser := me;
     p_page := or_else (get (body req) "page") (VNum (Fin 1));
     p_limit := or_else (get (body req) "limit") (VNum DEFAULT_ITEMS_PER_PAGE);
     p_sort := or_else (get (body req) "sort") (VStr "latest") |}.

Definition error500 : M Response :=
  do st <- gets id;
  ret (page 500 (templateHTML (VStr "500 Error") (emptyListHtml st) Body500 None
                   (VStr "latest") (VNum DEFAULT_ITEMS_PER_PAGE) (VNum (Fin 1)) None)).

(** The branches of the POST handler. A path that is none of the five
    writes no response. *)
Definition post_route (env : Env) (req : Request) (c : PostCtx) : M (option Response) :=
  if String.eqb (pathname req) "/create_process" then some (create_process env c)
  else if String.eqb (pathname req) "/update_process" then some (update_process env c)
  else if String.eqb (pathname req) "/delete_process" then some (delete_process env c)
  else if String.eqb (pathname req) "/register_process" then some (register_process env c)
  else if String.eqb (pathname req) "/login_process" then some (login_process env c)
  else ret None.

(** The body of the ['end'] callback of the POST branch. It runs when the
    body has arrived; the model runs it at once. *)
Definition post_process (env : Env) (req : Request) : M (option Response) :=
  catch
    (do postLoggedInUser <- getLoggedInUser req;
     post_route env req (post_ctx req postLoggedInUser))
    error500.

Definition not_found (req : Request) (loggedInUser : option loc) : M Response :=
  do st <- gets id;
  ret (page 404 (templateHTML (VStr "404 Not Found") (emptyListHtml st) Body404 None
                   (get (query req) "sort") (get (query req) "limit")
                   (get (query req) "page") (snapshot (heap st) loggedInUser))).

(** The listener of [http.createServer]. *)
Definition dispatch (env : Env) (req : Request) : M (option Response) :=
  do loggedInUser <- getLoggedInUser req;
  if String.eqb (pathname req) "/" then some (root env req loggedInUser)
  else if String.eqb (pathname req) "/create" then some (create req loggedInUser)
  else if String.eqb (pathname req) "/update" then some (update req loggedInUser)
  else if String.eqb (pathname req) "/login" then some (login req loggedInUser)
  else if String.eqb (pathname req) "/register" then some (register req loggedInUser)
  else if String.eqb (pathname req) "/logout_process" then some (logout_process req)
  else if String.eqb (method req) "POST" then post_process env req
  else some (not_found req loggedInUser).

Definition app (env : Env) (req : Request) (st : State) : State * Outcome :=
  match dispatch env req st with
  | (st', Ok (Some r)) => (st', Responded r)
  | (st', Ok None) => (st', NoResponse)
  | (st', Throw e) => (st', Crashed e)
  | (st', Diverge) => (st', Hangs)
  end.

(** ** Start-up *)

Definition initialTopics (env : Env) : list Topic.t :=
  [ {| Topic.id := 1; Topic.title := VStr "서비스 안내";
       Topic.description := VStr "이 게시판은 로그인 기반 서비스입니다. 회원가입 후 이용해 주세요.";
       Topic.created_at := now env 0; Topic.updated_at := now env 1;
       Topic.author := 0 |} ].

(** [Math.max(...ids) + 1], or 1 for an empty collection. *)
Definition next_id (ids : list Z) : Z :=
  match ids with
  | [] => 1
  | x :: r => Num.nearest (foldr Z.max x r + 1)
  end.

(** The objects of a parsed JSON array, then the array itself. *)
Fixpoint alloc_all (cs : list cell) (h : gmap loc cell) : gmap loc cell * list loc :=
  match cs with
  | [] => (h, [])
  | c :: r =>
      let l := fresh (dom h) in
      let '(h', ls) := alloc_all r (<[l := c]> h) in
      (h', l :: ls)
  end.

Definition startup (env : Env) (d : Disk) : State :=
  let '(tf, ts) := loadData env (topics_json d) (initialTopics env) in
  let '(uf, us) := loadData env (users_json d) [] in
  let '(h1, tl) := alloc_all (TopicObj <$> ts) ∅ in
  let ta := fresh (dom h1) in
  let h2 := <[ta := Arr tl]> h1 in
  let '(h3, ul) := alloc_all (UserObj <$> us) h2 in
  let ua := fresh (dom h3) in
  let h4 := <[ua := Arr ul]> h3 in
  {| heap := h4; topics := ta; users := ua;
     nextId := next_id (Topic.id <$> ts);
     nextUserId := next_id (User.id <$> us);
     sessions := ∅;
     disk := {| topics_json := tf; users_json := uf |} |}.

(** ** Test fixtures *)

Definition env0 : Env :=
  {| now := fun n => 1000 + Z.of_nat n;
     randomBytes := "00112233445566778899aabbccddeeff";
     localeCompare := fun a b => if String.eqb a b then 0 else if String.ltb a b then -1 else 1;
     marked_parse := fun v => match v with VStr s => Ok s | _ => Throw "Error" end;
     writeFileSync := Written |}.

Definition alice : User.t :=
  {| User.id := 1; User.username := VStr "alice1";
     User.password := Some (VStr "pw"); User.nickname := VStr "Alice" |}.

Definition bob : User.t :=
  {| User.id := 2; User.username := VStr "bob22";
     User.password := Some (VStr "pw2"); User.nickname := VStr "Bob" |}.

Definition hello : Topic.t :=
  {| Topic.id := 1; Topic.title := VStr "Hello"; Topic.description := VStr "World";
     Topic.created_at := 10; Topic.updated_at := 10; Topic.author := 1 |}.

Definition howdy : Topic.t :=
  {| Topic.id := 2; Topic.title := VStr "Howdy"; Topic.description := VStr "all";
     Topic.created_at := 20; Topic.updated_at := 20; Topic.author := 2 |}.

Definition disk0 : Disk :=
  {| topics_json := Content [hello; howdy]; users_json := Content [alice; bob] |}.

Definition request (m p : string) (q : list (string * val)) (c : option string)
    (b : list (string * val)) : Request :=
  {| method := m; pathname := p; query := list_to_map q; cookie := c;
     body := list_to_map b |}.

Definition req_login : Request :=
  request "POST" "/login_process" [] None
    [("username", VStr "alice1"); ("password", VStr "pw")].

(** The state after start-up on [disk0] and a login of alice. *)
Definition st0 : State := startup env0 disk0.
Definition st_alice : State := fst (app env0 req_login st0).
Definition alice_cookie : option string :=
  Some "sessionId=00112233445566778899aabbccddeeff".

(** Further requests of the examples. *)
Definition req_create : Request :=
  request "POST" "/create_process" [] alice_cookie
    [("title", VStr "T"); ("description", VStr "D")].

Definition req_create_blank : Request :=
  request "POST" "/create_process" [] alice_cookie
    [("title", VStr "T"); ("description", VStr "  ")].

(** alice asks for the post of bob. *)
Definition req_update_other : Request :=
  request "GET" "/update" [("id", VStr "2")] alice_cookie [].

Definition req_delete_other : Request :=
  request "POST" "/delete_process" [] alice_cookie [("id", VStr "2")].

(** alice blanks her own post. *)
Definition req_update_blank : Request :=
  request "POST" "/update_process" [] alice_cookie
    [("id", VStr "1"); ("title", VStr EmptyString); ("description", VStr "   ")].

(** A taken username with an empty password, and with all fields filled. *)
Definition req_register_taken_blank : Request :=
  request "POST" "/register_process" [] None
    [("username", VStr "alice1"); ("password", VStr EmptyString); ("nickname", VStr "x")].

Definition req_register_taken : Request :=
  request "POST" "/register_process" [] None
    [("username", VStr "alice1"); ("password", VStr "p"); ("nickname", VStr "x")].

(** A username that the form of [/register] would not let through. *)
Definition req_register_short : Request :=
  request "POST" "/register_process" [] None
    [("username", VStr "a!"); ("password", VStr "p"); ("nickname", VStr "n")].

Definition req_post_nowhere : Request := request "POST" "/nope" [] None [].

Definition req_bad_cookie : Request := request "GET" "/" [] (Some "sessionId=%") [].

Definition req_zero : Request :=
  request "GET" "/" [("page", VStr "0"); ("limit", VStr "0")] None [].


Definition status_of (o : Outcome) : option Z :=
  match o with
  | Responded r => Some (status r)
  | _ => None
  end.

(** ** The handlers over the two views

    What the POST branches decide on, named for the statements below. *)

(** [isEmptyOrWhitespace(a) || isEmptyOrWhitespace(b)] *)
Definition blank2 (a b : val) : result bool :=
  x ← isEmptyOrWhitespace a; if x : bool then Ok true else isEmptyOrWhitespace b.

(** [isEmptyOrWhitespace(a) || isEmptyOrWhitespace(b) || isEmptyOrWhitespace(c)] *)
Definition blank3 (a b c : val) : result bool :=
  x ← blank2 a b; if x : bool then Ok true else isEmptyOrWhitespace c.

(** [t.id === n] for the result [n] of a [parseInt]. *)
Definition has_id (n : num) (t : Topic.t) : bool := Num.eq (Fin (Topic.id t)) n.

(** The [Location] of the redirects that carry the list position of the
    form: to the list, and to the post whose id the form names. *)
Definition list_location (req : Request) : Location :=
  let c := post_ctx req None in ToList (p_page c) (p_limit c) (p_sort c).

Definition topic_location (req : Request) : Location :=
  let c := post_ctx req None in
  ToTopic (parseInt (get (body req) "id")) (p_page c) (p_limit c) (p_sort c).

(** [http] takes the [Location] as a header value. *)
Definition accepted (to : Location) : bool := header_ok (location_text to).

(** The object literal of [create_process]. *)
Definition newTopic (env : Env) (c : PostCtx) (st : State) (u : User.t) : Topic.t :=
  {| Topic.id := nextId st;
     Topic.title := get (post c) "title";
     Topic.description := get (post c) "description";
     Topic.created_at := now env 0;
     Topic.updated_at := now env 1;
     Topic.author := User.id u |}.

(** The object literal of [register_process]. *)
Definition newUser (c : PostCtx) (st : State) : User.t :=
  {| User.id := nextUserId st;
     User.username := get (post c) "username";
     User.password := Some (get (post c) "password");
     User.nickname := get (post c) "nickname" |}.

(** A post after the three assignments of [update_process]. *)
Definition updated (env : Env) (c : PostCtx) (t : Topic.t) : Topic.t :=
  {| Topic.id := Topic.id t;
     Topic.title := get (post c) "title";
     Topic.description := get (post c) "description";
     Topic.created_at := Topic.created_at t;
     Topic.updated_at := now env 0;
     Topic.author := Topic.author t |}.

Definition forbidden_update (c : PostCtx) (st : State) (u : User.t) : Response :=
  page 403 (templateHTML (VStr "403") (emptyListHtml st) Body403Update None
              (p_sort c) (p_limit c) (p_page c) (Some u)).

Definition forbidden_delete (c : PostCtx) (st : State) (u : User.t) : Response :=
  page 403 (templateHTML (VStr "403") (emptyListHtml st) Body403Delete None
              (p_sort c) (p_limit c) (p_page c) (Some u)).

(** ** The sort with a comparator that does not throw *)

Fixpoint insert_by {A} (f : A -> A -> Z) (x : A) (l : list A) : list A :=
  match l with
  | [] => [x]
  | y :: r => if f x y <=? 0 then x :: y :: r else y :: insert_by f x r
  end.

Fixpoint sort_by {A} (f : A -> A -> Z) (l : list A) : list A :=
  match l with
  | [] => []
  | x :: r => insert_by f x (sort_by f r)
  end.

(** The creation time of the post a reference holds. *)
Definition created (h : gmap loc cell) (l : loc) : Z :=
  default 0 (Topic.created_at <$> topic_at h l).

(** The path is none of those the listener serves before it looks at the
    method. *)
Definition post_path (p : string) : bool :=
  negb (String.eqb p "/" || String.eqb p "/create" || String.eqb p "/update"
        || String.eqb p "/login" || String.eqb p "/register"
        || String.eqb p "/logout_process").

(** What [app] makes of the end of the POST branch. *)
Definition post_outcome (x : State * result (option Response)) : State * Outcome :=
  match x with
  | (st', Ok (Some r)) => (st', Responded r)
  | (st', Ok None) => (st', NoResponse)
  | (st', Throw _) =>
      (st', Responded (page 500 (templateHTML (VStr "500 Error") (emptyListHtml st')
                                   Body500 None (VStr "latest")
                                   (VNum DEFAULT_ITEMS_PER_PAGE) (VNum (Fin 1)) None)))
  | (st', Diverge) => (st', Hangs)
  end.

Definition forbidden_update_get (req : Request) (st : State) (u : User.t) : Response :=
  page 403 (templateHTML (VStr "403") (emptyListHtml st) Body403Update None
              (get (query req) "sort") (get (query req) "limit")
              (get (query req) "page") (Some u)).

(** All posts of [st] have an id below the counter. *)
Definition ids_below (st : State) : Prop :=
  forall t, t ∈ topicsV st -> Topic.id t < nextId st.

(** The collections that start-up loads. *)
Definition loaded_topics (env : Env) (d : Disk) : list Topic.t :=
  snd (loadData env (topics_json d) (initialTopics env)).
Definition loaded_users (env : Env) (d : Disk) : list User.t :=
  snd (loadData env (users_json d) []).

(** A field as a form sends it: absent, or one string. *)
Definition text (v : val) : Prop := v = VUndef \/ exists s, v = VStr s.

(** ** Invariants and views used in the statements *)

(** The heap is well formed: [topics] and [users] are two arrays, of post
    objects and of user objects, and no object is in an array twice. *)
Definition wf (st : State) : Prop :=
  topics st ≠ users st
  ∧ (∃ tl, heap st !! topics st = Some (Arr tl) ∧ NoDup tl
           ∧ Forall (fun l => is_Some (topic_at (heap st) l)) tl)
  ∧ (∃ ul, heap st !! users st = Some (Arr ul) ∧ NoDup ul
           ∧ Forall (fun l => is_Some (user_at (heap st) l)) ul).

(** Only allocation happened between two states. *)
Definition frame (st st' : State) : Prop :=
  heap st ⊆ heap st'
  ∧ topics st' = topics st ∧ users st' = users st
  ∧ nextId st' = nextId st ∧ nextUserId st' = nextUserId st
  ∧ sessions st' = sessions st ∧ disk st' = disk st.

(** What [getLoggedInUser] resolves a request to, read off the users
    view: the record its result holds ([getLoggedInUser_spec]). *)
Definition session_user (req : Request) (st : State) : result (option User.t) :=
  cookies ← parseCookies req;
  Ok (match cookies !! "sessionId" with
      | Some sessionId =>
          if negb (String.eqb sessionId EmptyString) then
            match sessions st !! sessionId with
            | Some userId =>
                if negb (userId =? 0)
                then strip_password <$> find (fun u => User.id u =? userId) (usersV st)
                else None
            | None => None
            end
          else None
      | None => None
      end).

(** The request is that of the logged-in user whose record, as the
    handlers see it, is [u]. *)
Definition logged_in_as (req : Request) (st : State) (u : User.t) : Prop :=
  ∃ st' l, getLoggedInUser req st = (st', Ok (Some l)) ∧ user_at (heap st') l = Some u.

(** What one request does to the two collections and the two counters. *)
Inductive effect (st st' : State) : Prop :=
  | eff_none :
      topicsV st' = topicsV st -> usersV st' = usersV st ->
      nextId st' = nextId st -> nextUserId st' = nextUserId st -> effect st st'
  | eff_created t :
      topicsV st' = topicsV st ++ [t] -> Topic.id t = nextId st ->
      nextId st' = Num.nearest (nextId st + 1) ->
      usersV st' = usersV st -> nextUserId st' = nextUserId st -> effect st st'
  | eff_updated i t t' :
      topicsV st !! i = Some t -> Topic.id t' = Topic.id t ->
      Topic.author t' = Topic.author t -> Topic.created_at t' = Topic.created_at t ->
      topicsV st' = <[i := t']> (topicsV st) -> nextId st' = nextId st ->
      usersV st' = usersV st -> nextUserId st' = nextUserId st -> effect st st'
  | eff_deleted n :
      topicsV st' = filter (fun t => has_id n t = false) (topicsV st) ->
      nextId st' = nextId st ->
      usersV st' = usersV st -> nextUserId st' = nextUserId st -> effect st st'
  | eff_registered u :
      usersV st' = usersV st ++ [u] -> User.id u = nextUserId st ->
      nextUserId st' = Num.nearest (nextUserId st + 1) ->
      isEmptyOrWhitespace (User.username u) = Ok false ->
      existsb (fun u0 => strict_eq (User.username u0) (User.username u)) (usersV st) = false ->
      topicsV st' = topicsV st -> nextId st' = nextId st -> effect st st'.

(** The states after start-up and any requests. A request that throws
    outside the [try] ends the process, and one whose handler does not
    return is the last one served, so a run of the server is such a
    sequence with no [Crashed] and no [Hangs] before its end. The
    relation leaves these two conditions out and steps on from the
    memory such a request left: it holds of every state of a run, and of
    more, and what is proved of all its states is proved of every run. *)
Inductive reaches (st : State) : State -> Prop :=
  | reaches_refl : reaches st st
  | reaches_step env req st1 :
      reaches st st1 -> reaches st (fst (app env req st1)).

(** ** Further fixtures *)

(** A registration with a free name, and the login that follows it. *)
Definition req_register : Request :=
  request "POST" "/register_process" [] None
    [("username", VStr "carol"); ("password", VStr "pw3"); ("nickname", VStr "Carol")].

Definition req_login_carol : Request :=
  request "POST" "/login_process" [] None
    [("username", VStr "carol"); ("password", VStr "pw3")].

(** A login with a wrong password, and a logout asked for with GET. *)
Definition req_login_wrong : Request :=
  request "POST" "/login_process" [] None
    [("username", VStr "alice1"); ("password", VStr "no")].

Definition req_logout : Request := request "GET" "/logout_process" [] alice_cookie [].

(** A post sent without a session. *)
Definition req_create_anonymous : Request :=
  request "POST" "/create_process" [] None
    [("title", VStr "T"); ("description", VStr "D")].

(** alice deletes her own post. *)
Definition req_delete_own : Request :=
  request "POST" "/delete_process" [] alice_cookie [("id", VStr "1")].

(** alice asks for the edit form of her own post, from page 2 of the list. *)
Definition req_update_own : Request :=
  request "GET" "/update" [("id", VStr "1"); ("page", VStr "2")] alice_cookie [].

(** The list sorted by title. *)
Definition req_by_title : Request :=
  request "GET" "/" [("sort", VStr "title_asc")] None [].

(** The link of the list item of post [id], followed without a session. *)
Definition req_topic (id : Z) : Request :=
  request "GET" "/" [("id", VStr (toString (VNum (Fin id))))] None [].

(** alice edits her own post from a form whose [page] is a line feed. *)
Definition req_update_linefeed : Request :=
  request "POST" "/update_process" [] alice_cookie
    [("id", VStr "1"); ("title", VStr "New"); ("description", VStr "text");
     ("page", VStr (String (ascii_of_N 10) EmptyString))].

(** A limit written with 309 digits. *)
Fixpoint nines (n : nat) : string :=
  match n with
  | O => EmptyString
  | S n => String "9" (nines n)
  end.

Definition req_huge_limit : Request :=
  request "GET" "/" [("limit", VStr (nines 309))] None [].

(** alice deletes the post with id 3. *)
Definition req_delete_3 : Request :=
  request "POST" "/delete_process" [] alice_cookie [("id", VStr "3")].

(** A path that is no route, asked for with GET. *)
Definition req_get_nowhere : Request := request "GET" "/nope" [] None [].

(** Two posts read from a file that gives them no title. *)
Definition disk_untitled : Disk :=
  {| topics_json :=
       Content [ {| Topic.id := 1; Topic.title := VUndef; Topic.description := VStr "a";
                    Topic.created_at := 10; Topic.updated_at := 10; Topic.author := 1 |};
                 {| Topic.id := 2; Topic.title := VUndef; Topic.description := VStr "b";
                    Topic.created_at := 20; Topic.updated_at := 20; Topic.author := 1 |} ];
     users_json := Content [alice] |}.

(** The environment [env] with writes that end as [w]. *)
Definition with_write (w : write) (env : Env) : Env :=
  {| now := now env; randomBytes := randomBytes env; localeCompare := localeCompare env;
     marked_parse := marked_parse env; writeFileSync := w |}.

(** A file system that takes no write. *)
Definition env_read_only : Env :=
  {| now := now env0; randomBytes := randomBytes env0; localeCompare := localeCompare env0;
     marked_parse := marked_parse env0; writeFileSync := NotOpened |}.

(** ** The files, the user ids and the sessions *)

(** What one request does to the two files. *)
Definition saved (env : Env) (st st' : State) : Prop :=
  (disk st' = disk st /\ topicsV st' = topicsV st /\ usersV st' = usersV st)
  \/ (disk st' = {| topics_json := saveData env (topics_json (disk st)) (topicsV st');
                    users_json := users_json (disk st) |}
      /\ usersV st' = usersV st)
  \/ (disk st' = {| topics_json := topics_json (disk st);
                    users_json := saveData env (users_json (disk st)) (usersV st') |}
      /\ topicsV st' = topicsV st).

(** All users of [st] have an id below the counter. *)
Definition user_ids_below (st : State) : Prop :=
  forall u, u ∈ usersV st -> User.id u < nextUserId st.

(** What one request does to the session table: nothing, a login of a
    stored user, or a logout. *)
Definition session_step (env : Env) (st st' : State) : Prop :=
  sessions st' = sessions st
  \/ (exists u, u ∈ usersV st
                /\ sessions st' = <[randomBytes env := User.id u]> (sessions st))
  \/ (exists sessionId, sessions st' = delete sessionId (sessions st)).

(** ** The pages over the two views *)

(** The 500 page of the [catch] of the POST branch. *)
Definition page500 (st : State) : Response :=
  page 500 (templateHTML (VStr "500 Error") (emptyListHtml st) Body500 None
              (VStr "latest") (VNum DEFAULT_ITEMS_PER_PAGE) (VNum (Fin 1)) None).

(** A handler outside the [try]: what it throws is not caught. *)
Definition outcome_of (r : result Response) : Outcome :=
  match r with
  | Ok r => Responded r
  | Throw e => Crashed e
  | Diverge => Hangs
  end.

(** The request is answered with one of the status codes. *)
Definition answers (o : Outcome) (codes : list Z) : Prop :=
  exists r, o = Responded r /\ status r ∈ codes.

(** [authorUser ? authorUser.nickname : '시스템'] over the users view. *)
Definition author_of (us : list User.t) (author : Z) : val :=
  match find (fun u => User.id u =? author) us with
  | Some u => User.nickname u
  | None => system_name
  end.

(** One item of the list: the post and the name shown for its author. *)
Definition list_item (us : list User.t) (t : Topic.t) : ListItem :=
  {| li_topic := t; li_author := author_of us (Topic.author t) |}.

(** The comparator of the [switch (sort)] on two posts whose titles are
    strings. *)
Definition order (env : Env) (sort : val) (a b : Topic.t) : Z :=
  if strict_eq sort (VStr "latest") then Topic.created_at b - Topic.created_at a
  else if strict_eq sort (VStr "oldest") then Topic.created_at a - Topic.created_at b
  else if strict_eq sort (VStr "title_asc")
       then localeCompare env (toString (Topic.title a)) (toString (Topic.title b))
  else Topic.created_at b - Topic.created_at a.

(** The comparator on references, when it does not throw. *)
Definition order_at (env : Env) (h : gmap positive cell) (sort : val) (a b : positive) : Z :=
  match topic_at h a, topic_at h b with
  | Some ta, Some tb => order env sort ta tb
  | _, _ => 0
  end.

(** The comparator does not throw on the posts: a sort by title meets
    string titles only. *)
Definition sortable (sort : val) (posts : list Topic.t) : Prop :=
  sort = VStr "title_asc" -> forall t, t ∈ posts -> exists s, Topic.title t = VStr s.

(** The collation is a consistent comparison function, as [sort] asks
    for: swapping the arguments swaps the sign, and the order is
    transitive. With another function the order of the result is left
    to the engine. *)
Definition collates (env : Env) : Prop :=
  (forall a b, localeCompare env a b < 0 <-> 0 < localeCompare env b a)
  /\ (forall a b c, localeCompare env a b <= 0 -> localeCompare env b c <= 0 ->
                    localeCompare env a c <= 0).

(** The list of the ['/'] page. *)
Definition listing (env : Env) (posts : list Topic.t) (us : list User.t)
    (page limit : num) (sort : val) (pager : option Pager) : ListHtml :=
  {| l_pager := pager;
     l_items := list_item us <$> pagedTopics (sort_by (order env sort) posts) page limit;
     l_page := VNum page; l_limit := VNum limit; l_sort := sort |}.

(** What the ['/'] handler answers, over the two views, for the viewer
    the resolver found. *)
Definition root_page (env : Env) (req : Request) (posts : list Topic.t)
    (us : list User.t) (viewer : option User.t) : result Response :=
  let topicId := get (query req) "id" in
  let page_ := parseInt_or (get (query req) "page") (Fin 1) in
  let limit := parseInt_or (get (query req) "limit") DEFAULT_ITEMS_PER_PAGE in
  let sort := or_else (get (query req) "sort") (VStr "latest") in
  pager ← templatePagination (length posts) page_ limit sort;
  let render title bodyHtml controlHtml :=
    page 200 (templateHTML title (listing env posts us page_ limit sort pager) bodyHtml
                controlHtml sort (VNum limit) (VNum page_) viewer) in
  if truthy topicId then
    match find (has_id (parseInt topicId)) posts with
    | Some topic =>
        markdownContent ← marked_parse env (Topic.description topic);
        Ok (render (Topic.title topic)
              (BodyTopic (Topic.title topic) (author_of us (Topic.author topic))
                 (Topic.created_at topic) markdownContent)
              (match viewer with
               | Some u => if User.id u =? Topic.author topic then Some topicId else None
               | None => None
               end))
    | None => Ok (render (VStr "404 Not Found") BodyTopicNotFound None)
    end
  else Ok (render (VStr "환영합니다") BodyIntro None).

(** ** Cookie headers of plain tokens *)

(** An ASCII character that is no white space and none of [;], [=], [%]. *)
Definition plain (c : ascii) : bool :=
  let a := code c in
  ((a <? 128) && negb (is_ws1 a) && negb (a =? 59) && negb (a =? 61) && negb (a =? 37))%N.

(** A string of such characters: what a cookie name or a session token is. *)
Fixpoint token (s : string) : bool :=
  match s with
  | EmptyString => true
  | String c r => plain c && token r
  end.

(** The string has no [sep]. *)
Fixpoint lacks (sep : ascii) (s : string) : bool :=
  match s with
  | EmptyString => true
  | String c r => negb (Ascii.eqb c sep) && lacks sep r
  end.

(** One cookie of a header, [name=value]. *)
Definition cookie_item (kv : string * string) : string := (kv.1 ++ "=" ++ kv.2)%string.

(** The header a client sends for the cookies [kvs]: [k1=v1; k2=v2; ...]. *)
Definition cookie_header (kvs : list (string * string)) : string :=
  join "; " (cookie_item <$> kvs).

(** [list[key] = value] for each cookie in turn. *)
Definition cookie_map (kvs : list (string * string)) : gmap string string :=
  foldl (fun m kv => <[kv.1 := kv.2]> m) ∅ kvs.

(** One step of the [forEach] of [parseCookies]. *)
Definition cookie_step (acc : result (gmap string string)) (c : string)
  : result (gmap string string) :=
  list ← acc;
  let parts := split "=" c in
  let key := trim (default EmptyString (head parts)) in
  match second parts with
  | Some p =>
      if String.eqb p EmptyString then Ok (<[key := EmptyString]> list)
      else v ← decodeURIComponent (trim p); Ok (<[key := v]> list)
  | None => Ok (<[key := EmptyString]> list)
  end.

(** ** Decimal numbers *)

(** A decimal digit. *)
Definition is_digit (c : ascii) : bool := ((48 <=? code c) && (code c <=? 57))%N.

(** A string of decimal digits. *)
Fixpoint all_digits (s : string) : bool :=
  match s with
  | EmptyString => true
  | String c r => is_digit c && all_digits r
  end.

(** ** Proof steps *)

(** One step of a computation in [M]. *)
Ltac msimpl :=
  cbn [bind ret lift gets modify throw some alloc mbind result_bind option_bind id
       heap topics users nextId nextUserId sessions disk
       set_heap set_topics set_users set_nextId set_nextUserId set_sessions set_disk].
Tactic Notation "msimpl" "in" hyp(H) :=
  cbn [bind ret lift gets modify throw some alloc mbind result_bind option_bind id
       heap topics users nextId nextUserId sessions disk
       set_heap set_topics set_users set_nextId set_nextUserId set_sessions set_disk] in H.

(** The number is in the list. *)
Ltac one_of := cbn; apply list_elem_of_In; cbn; auto 10.

(** * Properties *)

(** ** The built-ins and the router on examples *)

Example split_ex : split ";" "a=1; b=2;" = ["a=1"; " b=2"; EmptyString].
Proof. reflexivity. Qed.

Example trim_ex : trim "  a b	 " = "a b".
Proof. reflexivity. Qed.

Example parseInt_ex :
  parseInt (VStr " 12px") = Fin 12 /\ parseInt (VStr "0") = Fin 0
  /\ parseInt (VStr "-0x1F") = Fin (-31) /\ parseInt (VStr "abc") = NaN
  /\ parseInt VUndef = NaN /\ parseInt (VArr ["3"; "4"]) = Fin 3
  /\ parseInt (VStr "9007199254740993") = Fin 9007199254740992
  /\ parseInt (VStr "-9007199254740995") = Fin (-9007199254740996).
Proof. repeat split; vm_compute; reflexivity. Qed.

Example decode_ex :
  decodeURIComponent "a%20b" = Ok "a b"
  /\ decodeURIComponent "%" = Throw "URIError"
  /\ decodeURIComponent "%C3%A9" = Ok (String (ascii_of_N 195) (String (ascii_of_N 169) EmptyString))
  /\ decodeURIComponent "%C0%80" = Throw "URIError".
Proof. repeat split; reflexivity. Qed.

Example login_ex :
  status_of (snd (app env0 (request "POST" "/login_process" [] None
                   [("username", VStr "alice1"); ("password", VStr "pw")]) st0)) = Some 302
  /\ sessions st_alice !! "00112233445566778899aabbccddeeff" = Some 1.
Proof. split; vm_compute; reflexivity. Qed.

Example outcomes_ex :
  let answer req st := status_of (snd (app env0 req st)) in
  answer (request "GET" "/nope" [] None []) st0 = Some 404
  /\ answer (request "GET" "/update" [("id", VStr "1")] None []) st0 = Some 302
  /\ answer (request "GET" "/" [("id", VStr "1")] None []) st0 = Some 200
  /\ answer (request "GET" "/" [("id", VStr "99")] None []) st0 = Some 200
  /\ answer (request "POST" "/create_process" [] None
               [("title", VStr "T"); ("description", VStr "D")]) st0 = Some 500
  /\ answer (request "POST" "/create_process" [] alice_cookie
               [("title", VArr ["a"; "b"]); ("description", VStr "D")]) st_alice = Some 500
  /\ answer (request "POST" "/login_process" [] None
               [("username", VStr "alice1"); ("password", VStr "no")]) st0 = Some 401
  /\ answer (request "POST" "/delete_process" [] alice_cookie [("id", VStr "1")]) st_alice
     = Some 302.
Proof. vm_compute. repeat split; reflexivity. Qed.

Example create_ex :
  let r := app env0 (request "POST" "/create_process" [] alice_cookie
                       [("title", VStr "T"); ("description", VStr "D")]) st_alice in
  status_of (snd r) = Some 302 /\ Topic.id <$> topicsV (fst r) = [1; 2; 3]
  /\ nextId (fst r) = 4.
Proof. vm_compute. repeat split; reflexivity. Qed.

(** The counter is a variable of the process: it holds while posts are
    deleted, and a restart computes it anew from the file. *)
Example restart_ex :
  let s1 := fst (app env0 req_create st_alice) in
  let s2 := fst (app env0 (request "POST" "/delete_process" [] alice_cookie
                             [("id", VStr "3")]) s1) in
  Topic.id <$> topicsV s1 = [1; 2; 3] /\ nextId s1 = 4
  /\ Topic.id <$> topicsV s2 = [1; 2] /\ nextId s2 = 4
  /\ nextId (startup env0 (disk s2)) = 3.
Proof. vm_compute. repeat split; reflexivity. Qed.

(** ** Numbers *)

Lemma nearest_safe z : Z.abs z <= 2 ^ 53 -> Num.nearest z = z.
Proof.
  intros H. unfold Num.nearest. cbv zeta.
  destruct (Z.leb_spec (Z.abs z) (2 ^ 53)); [done|lia].
Qed.

Lemma nearest_beyond z : 2 ^ 53 <= z -> 2 ^ 53 <= Num.nearest z.
Proof.
  intros H. unfold Num.nearest. cbv zeta.
  destruct (Z.leb_spec (Z.abs z) (2 ^ 53)) as [|Hz]; [done|].
  rewrite Z.abs_eq in * by lia. rewrite Z.sgn_pos, Z.mul_1_l by lia.
  pose proof (Z.log2_spec z ltac:(lia)) as [Hlo Hhi].
  assert (53 <= Z.log2 z) as Hl by (apply Z.log2_le_pow2; lia).
  set (e := Z.log2 z - 52) in *.
  assert (2 ^ Z.log2 z = 2 ^ 52 * 2 ^ e) as Hp.
  { rewrite <- Z.pow_add_r by lia. f_equal. lia. }
  assert (0 < 2 ^ e) as Hu by (apply Z.pow_pos_nonneg; lia).
  assert (2 ^ 52 <= z / 2 ^ e) as Hq.
  { apply Z.div_le_lower_bound; lia. }
  assert (2 ^ 53 <= 2 ^ Z.log2 z) as H53 by (apply Z.pow_le_mono_r; lia).
  set (q := z / 2 ^ e) in *.
  assert (2 ^ 53 <= q * 2 ^ e) by nia.
  repeat case_match; nia.
Qed.

Lemma nearest_opp z : Num.nearest (- z) = - Num.nearest z.
Proof.
  unfold Num.nearest. cbv zeta. rewrite Z.abs_opp, Z.sgn_opp.
  destruct (Z.abs z <=? 2 ^ 53); [done|]. lia.
Qed.

Lemma nearest_ge t z : Z.abs t <= 2 ^ 53 -> t <= z -> t <= Num.nearest z.
Proof.
  intros Ht Hz. destruct (Z.le_gt_cases (Z.abs z) (2 ^ 53)).
  - by rewrite nearest_safe.
  - assert (2 ^ 53 <= z) as H' by lia. apply nearest_beyond in H'. lia.
Qed.

Lemma nearest_le t z : Z.abs t <= 2 ^ 53 -> z <= t -> Num.nearest z <= t.
Proof.
  intros Ht Hz. pose proof (nearest_ge (- t) (- z)) as H.
  rewrite nearest_opp in H. lia.
Qed.

Lemma overflow_beyond : 2 ^ 53 < Num.overflow.
Proof. unfold Num.overflow. apply Z.pow_lt_mono_r; lia. Qed.

Lemma round_safe z : Z.abs z <= 2 ^ 53 -> Num.round z = Fin z.
Proof.
  intros H. unfold Num.round. cbv zeta. rewrite nearest_safe by done.
  pose proof overflow_beyond. destruct (Z.leb_spec Num.overflow (Z.abs z)); [lia|done].
Qed.

(** A rounded number is at least the integers below the exact one that
    are doubles. *)
Lemma round_ge t z :
  Z.abs t <= 2 ^ 53 -> t <= z ->
  Num.round z = Inf false \/ exists r, Num.round z = Fin r /\ t <= r.
Proof.
  intros Ht Hz. unfold Num.round. cbv zeta.
  pose proof (nearest_ge t z Ht Hz) as Hn. pose proof overflow_beyond.
  destruct (Z.leb_spec Num.overflow (Z.abs (Num.nearest z))).
  - left. destruct (Z.ltb_spec z 0) as [Hneg|]; [|done].
    exfalso. pose proof (nearest_le 0 z ltac:(lia) ltac:(lia)). lia.
  - right. by eexists.
Qed.

Lemma add_safe x y : Z.abs (x + y) <= 2 ^ 53 -> Num.add (Fin x) (Fin y) = Fin (x + y).
Proof. apply round_safe. Qed.

Lemma sub_safe x y : Z.abs (x - y) <= 2 ^ 53 -> Num.sub (Fin x) (Fin y) = Fin (x - y).
Proof. intros H. unfold Num.sub, Num.opp. by rewrite add_safe. Qed.

Lemma mul_safe x y : Z.abs (x * y) <= 2 ^ 53 -> Num.mul (Fin x) (Fin y) = Fin (x * y).
Proof. apply round_safe. Qed.

(** The exponent that [quotient] picks leaves 53 bits to the significand. *)
Lemma quotient_exponent p q :
  0 < p -> 0 < q ->
  let scaled e := if 0 <=? e then p / (q * 2 ^ e) else (p * 2 ^ (- e)) / q in
  let e0 := Z.log2 p - Z.log2 q - 52 in
  let e1 := if scaled e0 <? 2 ^ 52 then e0 - 1 else e0 in
  if 0 <=? e1 then 2 ^ 52 * (q * 2 ^ e1) <= p else 2 ^ 52 * q <= p * 2 ^ (- e1).
Proof.
  intros Hp Hq scaled e0 e1.
  pose proof (Z.log2_spec p Hp) as [Hp1 Hp2].
  pose proof (Z.log2_spec q Hq) as [Hq1 Hq2].
  pose proof (Z.log2_nonneg p). pose proof (Z.log2_nonneg q).
  unfold e1. destruct (Z.ltb_spec (scaled e0) (2 ^ 52)) as [Hs|Hs].
  - destruct (Z.leb_spec 0 (e0 - 1)) as [He|He].
    + assert (2 ^ Z.log2 p = 2 ^ 52 * (2 ^ Z.succ (Z.log2 q) * 2 ^ (e0 - 1))) as E.
      { rewrite <- !Z.pow_add_r by lia. f_equal. unfold e0. lia. }
      assert (0 < 2 ^ (e0 - 1)) by (apply Z.pow_pos_nonneg; lia). nia.
    + assert (2 ^ Z.log2 p * 2 ^ (- (e0 - 1)) = 2 ^ 52 * 2 ^ Z.succ (Z.log2 q)) as E.
      { rewrite <- !Z.pow_add_r by lia. f_equal. unfold e0. lia. }
      assert (0 < 2 ^ (- (e0 - 1))) by (apply Z.pow_pos_nonneg; lia). nia.
  - unfold scaled in Hs. destruct (Z.leb_spec 0 e0) as [He|He].
    + assert (0 < 2 ^ e0) by (apply Z.pow_pos_nonneg; lia).
      pose proof (Z.mul_div_le p (q * 2 ^ e0) ltac:(nia)). nia.
    + pose proof (Z.mul_div_le (p * 2 ^ (- e0)) q ltac:(lia)). nia.
Qed.

(** Rounding a quotient to the nearest integer, when the divisor is less
    than twice the scale [w], keeps it between the neighbours of [p / q]
    scaled. *)
Lemma scaled_between p q w m :
  0 < p -> 0 < q -> 0 < w -> q < 2 * w ->
  let n := p * w in
  m = n / q \/ m = n / q + 1 ->
  (m = n / q -> 2 * (n mod q) <= q) ->
  (m = n / q + 1 -> q <= 2 * (n mod q)) ->
  m / w = p / q /\ - (- m / w) = - (- p / q).
Proof.
  intros Hp Hq Hw Hqw n Hm Hdown Hup.
  pose proof (Z.div_mod n q ltac:(lia)) as Hn.
  pose proof (Z.mod_pos_bound n q Hq) as Hr.
  pose proof (Z.div_mod p q ltac:(lia)) as Hf.
  pose proof (Z.mod_pos_bound p q Hq) as Hfr.
  pose proof (Z.div_mod (- p) q ltac:(lia)) as Hc.
  pose proof (Z.mod_pos_bound (- p) q Hq) as Hcr.
  set (m0 := n / q) in *. set (r := n mod q) in *.
  set (f := p / q) in *. set (c := - p / q) in *.
  unfold n in Hn. split.
  - symmetry. apply Z.div_unique_pos with (r := m - f * w); [|lia].
    destruct Hm as [->| ->].
    + split; nia.
    + specialize (Hup eq_refl). split; nia.
  - f_equal. symmetry.
    apply Z.div_unique_pos with (r := - m - c * w); [|lia].
    destruct Hm as [->| ->].
    + specialize (Hdown eq_refl). split; nia.
    + specialize (Hup eq_refl). split; nia.
Qed.

Lemma quotient_spec p q :
  0 < p < 2 ^ 53 -> 0 < q < Num.overflow ->
  Num.floor_scaled (Num.quotient p q) = p / q
  /\ Num.ceil_scaled (Num.quotient p q) = - (- p / q).
Proof.
  intros [Hp Hp53] [Hq Hqo].
  pose proof (quotient_exponent p q Hp Hq) as He1. cbv zeta in He1.
  unfold Num.quotient. cbv zeta.
  set (e1 := if _ <? 2 ^ 52 then _ else _) in *.
  destruct (Z.leb_spec 0 e1) as [Hpos|Hneg].
  - (* the quotient is an integer of 53 bits *)
    assert (0 < 2 ^ e1) as Hw by (apply Z.pow_pos_nonneg; lia).
    assert (q * 2 ^ e1 = 1) as E1 by nia.
    assert (q = 1 /\ 2 ^ e1 = 1) as [-> E2] by nia.
    assert (e1 = 0) as ->.
    { destruct (Z.eq_dec e1 0); [done|].
      pose proof (Z.pow_gt_1 2 e1 ltac:(lia)) as [Hgt _]. specialize (Hgt ltac:(lia)). lia. }
    rewrite Z.max_l by lia. change (0 <=? 0) with true. cbv iota.
    change (1 * 2 ^ 0) with 1. rewrite Z.mod_1_r, !Z.div_1_r.
    change (2 * 0 <? 1) with true. cbv iota.
    unfold Num.floor_scaled, Num.ceil_scaled. change (0 <=? 0) with true. cbv iota.
    change (2 ^ 0) with 1. lia.
  - set (e := Z.max e1 (-1074)).
    assert (e < 0) as He by lia.
    destruct (Z.leb_spec 0 e) as [|_]; [lia|].
    set (w := 2 ^ (- e)).
    assert (0 < w) as Hw by (apply Z.pow_pos_nonneg; lia).
    assert (q < 2 * w) as Hqw.
    { destruct (Z.max_spec e1 (-1074)) as [[_ E]|[_ E]]; fold e in E.
      - unfold w. rewrite E. cbn [Z.opp].
        assert (Num.overflow < 2 ^ 1074) by (apply Z.pow_lt_mono_r; lia). lia.
      - unfold w. rewrite E. nia. }
    unfold Num.floor_scaled, Num.ceil_scaled.
    destruct (Z.leb_spec 0 e) as [|_]; [lia|]. fold w.
    apply scaled_between; try done.
    + repeat case_match; lia.
    + repeat case_match; lia.
    + intros E. destruct (Z.ltb_spec (2 * ((p * w) mod q)) q); [lia|].
      destruct (Z.ltb_spec q (2 * ((p * w) mod q))); [lia|]. lia.
Qed.

(** [Math.ceil(x / y)] of an integer below 2^53 and a finite number is
    the ceiling of the quotient. *)
Lemma ceil_div_safe x y :
  Z.abs x < 2 ^ 53 -> y ≠ 0 -> Z.abs y < Num.overflow ->
  Num.ceil_div (Fin x) (Fin y) = Fin (- (- x / y)).
Proof.
  intros Hx Hy Hyo. unfold Num.ceil_div.
  destruct (Z.eqb_spec y 0) as [|_]; [done|].
  destruct (Z.eqb_spec x 0) as [->|Hx0]; [done|].
  destruct (quotient_spec (Z.abs x) (Z.abs y) ltac:(lia) ltac:(lia)) as [Hf Hc].
  rewrite Hf, Hc. f_equal.
  destruct (Z.ltb_spec x 0), (Z.ltb_spec y 0); cbn [Bool.eqb].
  - rewrite (Z.abs_neq x), (Z.abs_neq y) by lia. by rewrite Z.div_opp_opp by lia.
  - rewrite (Z.abs_neq x), (Z.abs_eq y) by lia. done.
  - rewrite (Z.abs_eq x), (Z.abs_neq y) by lia.
    by rewrite <- (Z.div_opp_opp (- x) y), Z.opp_involutive by lia.
  - rewrite (Z.abs_eq x), (Z.abs_eq y) by lia. done.
Qed.

Lemma ceil_div_infinite x s : Num.ceil_div (Fin x) (Inf s) = Fin 0.
Proof. done. Qed.

(** ** The loop of the pager *)

Lemma le_Fin x y : Num.le (Fin x) (Fin y) = (x <=? y).
Proof.
  unfold Num.le, Num.lt, Num.eq.
  destruct (Z.ltb_spec x y), (Z.eqb_spec x y), (Z.leb_spec x y); done || lia.
Qed.

(** With an end at plus infinity the loop does not end. *)
Lemma pageLinks_unbounded fuel i :
  Num.le i (Inf false) = true -> pageLinks fuel i (Inf false) = None.
Proof.
  revert i. induction fuel as [|fuel IH]; intros i Hi; cbn [pageLinks]; rewrite Hi; [done|].
  cbv zeta. destruct (Num.lt i (Num.add i (Fin 1))) eqn:Hlt; [|done].
  rewrite IH; [done|]. by destruct i as [x| [] |], (Num.add _ _) as [y| [] |].
Qed.

(** More turns than the distance to [endPage] change nothing: [None] is
    a loop that does not end, not one that was cut. *)
Lemma pageLinks_fuel fuel i endPage :
  (distance i endPage <= fuel)%nat ->
  pageLinks fuel i endPage = pageLinks (distance i endPage) i endPage.
Proof.
  assert (forall e f1 f2 a,
            (distance (Fin a) (Fin e) <= f1)%nat -> (distance (Fin a) (Fin e) <= f2)%nat ->
            pageLinks f1 (Fin a) (Fin e) = pageLinks f2 (Fin a) (Fin e)) as Hfin.
  { intros e f1. induction f1 as [|f1 IH]; intros f2 a H1 H2; cbn [distance] in *.
    - destruct f2; cbn [pageLinks]; rewrite le_Fin;
        destruct (Z.leb_spec a e); try done; lia.
    - destruct f2 as [|f2]; cbn [pageLinks]; rewrite le_Fin;
        destruct (Z.leb_spec a e); try done; [lia|].
      cbv zeta. destruct (Num.lt _ _) eqn:Hlt; [|done]. f_equal.
      destruct (Num.add (Fin a) (Fin 1)) as [b| [] |]; try done.
      + cbn in Hlt. apply Z.ltb_lt in Hlt. apply IH; cbn [distance]; lia.
      + by destruct f1, f2. }
  intros H. destruct i as [a|s|], endPage as [e|t|]; try (by apply Hfin).
  - (* a finite start, an infinite end *)
    cbn [distance] in *. destruct t.
    + by destruct fuel.
    + destruct fuel as [|fuel]; [lia|]. cbn [pageLinks].
      change (Num.le (Fin a) (Inf false)) with true. cbv iota zeta.
      destruct (Num.lt _ _) eqn:Hlt; [|done].
      assert (Num.le (Num.add (Fin a) (Fin 1)) (Inf false) = true) as Hle
        by (by destruct (Num.add _ _) as [y| [] |]).
      by rewrite pageLinks_unbounded, Hle.
  - cbn [distance] in *. destruct fuel; [lia|]. done.
  - cbn [distance] in *. destruct fuel as [|fuel]; [lia|]. cbn [pageLinks].
    destruct (Num.le _ _); [|done]. by destruct s.
  - cbn [distance] in *. destruct fuel as [|fuel]; [lia|]. cbn [pageLinks].
    destruct (Num.le _ _); [|done]. by destruct s.
  - cbn [distance] in *. destruct fuel as [|fuel]; [lia|]. done.
  - cbn [distance] in *. destruct fuel as [|fuel]; [lia|]. done.
  - cbn [distance] in *. destruct fuel as [|fuel]; [lia|]. done.
  - cbn [distance] in *. destruct fuel as [|fuel]; [lia|]. done.
Qed.

(** Below 2^53 the loop visits the pages from [s] to [e]. *)
Lemma pageLinks_safe fuel s e :
  - 2 ^ 53 <= s -> e < 2 ^ 53 -> (Z.to_nat (e - s + 1) <= fuel)%nat ->
  pageLinks fuel (Fin s) (Fin e) = Some (Fin <$> seqZ s (e - s + 1)).
Proof.
  revert s. induction fuel as [|fuel IH]; intros s Hs He Hf; cbn [pageLinks];
    rewrite le_Fin; destruct (Z.leb_spec s e) as [Hle|Hgt].
  - lia.
  - by rewrite seqZ_nil by lia.
  - cbv zeta. rewrite add_safe by lia. cbn [Num.lt].
    destruct (Z.ltb_spec s (s + 1)); [|lia].
    rewrite IH by lia. cbn. rewrite (seqZ_cons s) by lia. cbn.
    replace (Z.succ s) with (s + 1) by lia.
    by replace (Z.pred (e - s + 1)) with (e - (s + 1) + 1) by lia.
  - by rewrite seqZ_nil by lia.
Qed.

(** ** Heap reasoning *)

Lemma frame_refl st : frame st st.
Proof. by repeat split. Qed.

Lemma frame_trans a b c : frame a b -> frame b c -> frame a c.
Proof.
  intros (Hab & ? & ? & ? & ? & ? & ?) (Hbc & ? & ? & ? & ? & ? & ?).
  repeat split; try congruence. by etrans.
Qed.

Lemma arr_weaken (h h' : gmap positive cell) a l :
  h ⊆ h' -> h !! a = Some (Arr l) -> arr h' a = l.
Proof.
  intros Hs Ha. unfold arr. by rewrite (lookup_weaken _ _ _ _ Ha Hs).
Qed.

Lemma topic_at_weaken (h h' : gmap positive cell) l t :
  h ⊆ h' -> topic_at h l = Some t -> topic_at h' l = Some t.
Proof.
  unfold topic_at. intros Hs Ha.
  destruct (h !! l) as [[]|] eqn:E; simplify_eq.
  by rewrite (lookup_weaken _ _ _ _ E Hs).
Qed.

Lemma user_at_weaken (h h' : gmap positive cell) l u :
  h ⊆ h' -> user_at h l = Some u -> user_at h' l = Some u.
Proof.
  unfold user_at. intros Hs Ha.
  destruct (h !! l) as [[]|] eqn:E; simplify_eq.
  by rewrite (lookup_weaken _ _ _ _ E Hs).
Qed.

Lemma omap_ext_Forall {A B} (f g : A -> option B) l :
  Forall (fun x => is_Some (f x) /\ g x = f x) l -> omap g l = omap f l.
Proof.
  induction 1 as [|x l [_ Hx] _ IH]; [done|]. csimpl. by rewrite Hx, IH.
Qed.

Lemma wf_topics st :
  wf st -> exists tl, heap st !! topics st = Some (Arr tl)
                      /\ arr (heap st) (topics st) = tl /\ NoDup tl
                      /\ Forall2 (fun l t => topic_at (heap st) l = Some t) tl (topicsV st).
Proof.
  intros (_ & (tl & Ht & Hnd & Hall) & _). exists tl.
  assert (arr (heap st) (topics st) = tl) as Ha by (unfold arr; by rewrite Ht).
  split; [done|]. split; [done|]. split; [done|].
  unfold topicsV. rewrite Ha. clear Ht Ha Hnd.
  induction Hall as [|l tl [t Hl] _ IH]; csimpl; [constructor|].
  rewrite Hl. by constructor.
Qed.

Lemma wf_users st :
  wf st -> exists ul, heap st !! users st = Some (Arr ul)
                      /\ arr (heap st) (users st) = ul /\ NoDup ul
                      /\ Forall2 (fun l u => user_at (heap st) l = Some u) ul (usersV st).
Proof.
  intros (_ & _ & (ul & Hu & Hnd & Hall)). exists ul.
  assert (arr (heap st) (users st) = ul) as Ha by (unfold arr; by rewrite Hu).
  split; [done|]. split; [done|]. split; [done|].
  unfold usersV. rewrite Ha. clear Hu Ha Hnd.
  induction Hall as [|l ul [u Hl] _ IH]; csimpl; [constructor|].
  rewrite Hl. by constructor.
Qed.

Lemma wf_frame st st' : wf st -> frame st st' -> wf st'.
Proof.
  intros (Hne & (tl & Ht & ? & Htl) & (ul & Hu & ? & Hul)) (Hs & Et & Eu & _).
  split; [congruence|]. split.
  - exists tl. rewrite Et. split; [by eapply lookup_weaken|]. split; [done|].
    eapply Forall_impl; [exact Htl|]. intros l [t Hl]. exists t.
    by eapply topic_at_weaken.
  - exists ul. rewrite Eu. split; [by eapply lookup_weaken|]. split; [done|].
    eapply Forall_impl; [exact Hul|]. intros l [u Hl]. exists u.
    by eapply user_at_weaken.
Qed.

Lemma frame_topicsV st st' : wf st -> frame st st' -> topicsV st' = topicsV st.
Proof.
  intros (_ & (tl & Ht & _ & Htl) & _) (Hs & Et & _).
  unfold topicsV. rewrite Et, (arr_weaken _ _ _ _ Hs Ht).
  unfold arr at 1. rewrite Ht. apply omap_ext_Forall.
  eapply Forall_impl; [exact Htl|]. intros l [t Hl]. split; [by exists t|].
  rewrite Hl. by eapply topic_at_weaken.
Qed.

Lemma frame_usersV st st' : wf st -> frame st st' -> usersV st' = usersV st.
Proof.
  intros (_ & _ & (ul & Hu & _ & Hul)) (Hs & _ & Eu & _).
  unfold usersV. rewrite Eu, (arr_weaken _ _ _ _ Hs Hu).
  unfold arr at 1. rewrite Hu. apply omap_ext_Forall.
  eapply Forall_impl; [exact Hul|]. intros l [u Hl]. split; [by exists u|].
  rewrite Hl. by eapply user_at_weaken.
Qed.

Lemma fresh_free (h : gmap positive cell) : h !! fresh (dom h) = None.
Proof. apply not_elem_of_dom, is_fresh. Qed.

Lemma frame_alloc st l c :
  heap st !! l = None -> frame st (set_heap (<[l := c]> (heap st)) st).
Proof. intros H. repeat split; simpl. by apply insert_subseteq. Qed.

(** A search among references and the same search among the records they
    hold. *)
Lemma find_view {A B} (deref : A -> option B) (p : A -> bool) (q : B -> bool) ls xs :
  Forall2 (fun l x => deref l = Some x) ls xs ->
  (forall l x, deref l = Some x -> p l = q x) ->
  match find p ls with
  | Some l => exists x, deref l = Some x /\ find q xs = Some x /\ l ∈ ls
  | None => find q xs = None
  end.
Proof.
  intros Hall Hp. induction Hall as [|l x ls xs Hl _ IH]; simpl; [done|].
  rewrite <- (Hp _ _ Hl). destruct (p l).
  - exists x. split; [done|]. split; [done|]. by left.
  - destruct (find p ls); [|done].
    destruct IH as (y & ? & ? & ?). exists y. split; [done|]. split; [done|]. by right.
Qed.

Lemma has_user_id_view h uid l u :
  user_at h l = Some u -> has_user_id h uid l = (User.id u =? uid).
Proof. unfold has_user_id. by intros ->. Qed.

Lemma getLoggedInUser_spec req st :
  wf st ->
  match session_user req st with
  | Throw e => getLoggedInUser req st = (st, Throw e)
  | Diverge => getLoggedInUser req st = (st, Diverge)
  | Ok None => getLoggedInUser req st = (st, Ok None)
  | Ok (Some u) =>
      exists l, heap st !! l = None
        /\ getLoggedInUser req st
           = (set_heap (<[l := UserObj u]> (heap st)) st, Ok (Some l))
  end.
Proof.
  intros Hwf. unfold session_user, getLoggedInUser, bind, lift, gets.
  destruct (parseCookies req) as [cookies|e|]; simpl; [|done|done].
  destruct (cookies !! "sessionId") as [sid|]; [|done].
  destruct (negb (String.eqb sid EmptyString)); [|done].
  destruct (sessions st !! sid) as [uid|]; [|done].
  destruct (negb (uid =? 0)); [|done].
  destruct (wf_users _ Hwf) as (ul & _ & -> & _ & Hall).
  pose proof (find_view _ (has_user_id (heap st) uid) (fun u => User.id u =? uid)
                _ _ Hall (has_user_id_view _ _)) as Hf.
  destruct (find (has_user_id (heap st) uid) ul) as [l|].
  - destruct Hf as (u & Hu & -> & _). rewrite Hu. simpl.
    exists (fresh (dom (heap st))). split; [apply fresh_free|].
    unfold modify, ret, alloc, set_heap; simpl. by rewrite insert_insert_eq.
  - rewrite Hf. done.
Qed.

Lemma topic_at_insert_ne (h : gmap positive cell) l l' c :
  l ≠ l' -> topic_at (<[l := c]> h) l' = topic_at h l'.
Proof. intros. unfold topic_at. by rewrite lookup_insert_ne. Qed.

Lemma user_at_insert_ne (h : gmap positive cell) l l' c :
  l ≠ l' -> user_at (<[l := c]> h) l' = user_at h l'.
Proof. intros. unfold user_at. by rewrite lookup_insert_ne. Qed.

Lemma arr_insert_ne (h : gmap positive cell) l l' c :
  l ≠ l' -> arr (<[l := c]> h) l' = arr h l'.
Proof. intros. unfold arr. by rewrite lookup_insert_ne. Qed.

Lemma arr_insert_eq (h : gmap positive cell) l x : arr (<[l := Arr x]> h) l = x.
Proof. unfold arr. by rewrite lookup_insert_eq. Qed.

Lemma topic_at_insert_eq (h : gmap positive cell) l t :
  topic_at (<[l := TopicObj t]> h) l = Some t.
Proof. unfold topic_at. by rewrite lookup_insert_eq. Qed.

Lemma user_at_insert_eq (h : gmap positive cell) l u :
  user_at (<[l := UserObj u]> h) l = Some u.
Proof. unfold user_at. by rewrite lookup_insert_eq. Qed.

Lemma topic_at_Some (h : gmap positive cell) l t :
  topic_at h l = Some t <-> h !! l = Some (TopicObj t).
Proof. unfold topic_at. split; [|by intros ->]. repeat case_match; naive_solver. Qed.

Lemma user_at_Some (h : gmap positive cell) l u :
  user_at h l = Some u <-> h !! l = Some (UserObj u).
Proof. unfold user_at. split; [|by intros ->]. repeat case_match; naive_solver. Qed.

(** The views after a change of the heap that leaves the cells of the two
    collections alone. *)
Lemma omap_topic_at_ext (h h' : gmap positive cell) tl :
  Forall (fun l => is_Some (topic_at h l)) tl ->
  (forall l t, topic_at h l = Some t -> topic_at h' l = Some t) ->
  omap (topic_at h') tl = omap (topic_at h) tl.
Proof.
  intros Hall Hk. apply omap_ext_Forall. eapply Forall_impl; [exact Hall|].
  intros l [t Hl]. split; [by exists t|]. rewrite Hl. by apply Hk.
Qed.

Lemma omap_user_at_ext (h h' : gmap positive cell) ul :
  Forall (fun l => is_Some (user_at h l)) ul ->
  (forall l u, user_at h l = Some u -> user_at h' l = Some u) ->
  omap (user_at h') ul = omap (user_at h) ul.
Proof.
  intros Hall Hk. apply omap_ext_Forall. eapply Forall_impl; [exact Hall|].
  intros l [u Hl]. split; [by exists u|]. rewrite Hl. by apply Hk.
Qed.

Lemma Forall_is_Some_impl {A B} (f g : A -> option B) l :
  Forall (fun x => is_Some (f x)) l ->
  (forall x y, f x = Some y -> is_Some (g x)) ->
  Forall (fun x => is_Some (g x)) l.
Proof. intros H Hk. eapply Forall_impl; [exact H|]. intros x [y ?]. eauto. Qed.

(** [topics.push(newTopic)] for a new object. *)
Lemma push_topic st t :
  wf st ->
  let l := fresh (dom (heap st)) in
  let st1 := set_heap (<[l := TopicObj t]> (heap st)) st in
  exists st2, push (topics st) l st1 = (st2, Ok tt)
    /\ wf st2 /\ topicsV st2 = topicsV st ++ [t] /\ usersV st2 = usersV st
    /\ nextId st2 = nextId st /\ nextUserId st2 = nextUserId st
    /\ sessions st2 = sessions st /\ disk st2 = disk st
    /\ topics st2 = topics st /\ users st2 = users st.
Proof.
  intros Hwf l st1.
  destruct Hwf as (Hne & (tl & Ht & Hndt & Htl) & (ul & Hu & Hndu & Hul)).
  pose proof (fresh_free (heap st)) as Hfree. fold l in Hfree.
  assert (l ≠ topics st) as Hlt by congruence.
  assert (l ≠ users st) as Hlu by congruence.
  eexists. split.
  { unfold push, st1. simpl. rewrite lookup_insert_ne, Ht by done. reflexivity. }
  set (h2 := <[topics st := Arr (tl ++ [l])]> (<[l := TopicObj t]> (heap st))).
  assert (forall l' t', topic_at (heap st) l' = Some t' -> topic_at h2 l' = Some t') as Kt.
  { intros l' t' H. unfold h2. apply topic_at_Some in H.
    rewrite !topic_at_insert_ne by congruence. by apply topic_at_Some. }
  assert (forall l' u', user_at (heap st) l' = Some u' -> user_at h2 l' = Some u') as Ku.
  { intros l' u' H. unfold h2. apply user_at_Some in H.
    rewrite !user_at_insert_ne by congruence. by apply user_at_Some. }
  assert (topic_at h2 l = Some t) as Hl.
  { unfold h2. rewrite topic_at_insert_ne by done. apply topic_at_insert_eq. }
  repeat split; simpl; try done.
  - exists (tl ++ [l]). split; [apply lookup_insert_eq|]. split.
    { apply NoDup_app. split; [done|]. split; [|apply NoDup_singleton].
      intros x Hx ->%list_elem_of_singleton.
      rewrite Forall_forall in Htl. destruct (Htl _ Hx) as [? H%topic_at_Some].
      congruence. }
    apply Forall_app. split.
    + eapply Forall_is_Some_impl; [exact Htl|]. intros; eauto.
    + constructor; [by exists t|constructor].
  - exists ul. split; [unfold h2; by rewrite !lookup_insert_ne|]. split; [done|].
    eapply Forall_is_Some_impl; [exact Hul|]. intros; eauto.
  - unfold topicsV. simpl. replace (arr h2 (topics st)) with (tl ++ [l])
      by (unfold h2; by rewrite arr_insert_eq).
    rewrite omap_app. csimpl. rewrite Hl. csimpl.
    rewrite (omap_topic_at_ext (heap st)) by done.
    unfold arr. by rewrite Ht.
  - unfold usersV. simpl. replace (arr h2 (users st)) with (arr (heap st) (users st))
      by (unfold h2; by rewrite !arr_insert_ne).
    rewrite (omap_user_at_ext (heap st)); [done| |done].
    unfold arr. by rewrite Hu.
Qed.

(** [users.push(newUser)] for a new object. *)
Lemma push_user st u :
  wf st ->
  let l := fresh (dom (heap st)) in
  let st1 := set_heap (<[l := UserObj u]> (heap st)) st in
  exists st2, push (users st) l st1 = (st2, Ok tt)
    /\ wf st2 /\ usersV st2 = usersV st ++ [u] /\ topicsV st2 = topicsV st
    /\ nextId st2 = nextId st /\ nextUserId st2 = nextUserId st
    /\ sessions st2 = sessions st /\ disk st2 = disk st
    /\ topics st2 = topics st /\ users st2 = users st.
Proof.
  intros Hwf l st1.
  destruct Hwf as (Hne & (tl & Ht & Hndt & Htl) & (ul & Hu & Hndu & Hul)).
  pose proof (fresh_free (heap st)) as Hfree. fold l in Hfree.
  assert (l ≠ topics st) as Hlt by congruence.
  assert (l ≠ users st) as Hlu by congruence.
  eexists. split.
  { unfold push, st1. simpl. rewrite lookup_insert_ne, Hu by done. reflexivity. }
  set (h2 := <[users st := Arr (ul ++ [l])]> (<[l := UserObj u]> (heap st))).
  assert (forall l' t', topic_at (heap st) l' = Some t' -> topic_at h2 l' = Some t') as Kt.
  { intros l' t' H. unfold h2. apply topic_at_Some in H.
    rewrite !topic_at_insert_ne by congruence. by apply topic_at_Some. }
  assert (forall l' u', user_at (heap st) l' = Some u' -> user_at h2 l' = Some u') as Ku.
  { intros l' u' H. unfold h2. apply user_at_Some in H.
    rewrite !user_at_insert_ne by congruence. by apply user_at_Some. }
  assert (user_at h2 l = Some u) as Hl.
  { unfold h2. rewrite user_at_insert_ne by done. apply user_at_insert_eq. }
  repeat split; simpl; try done.
  - exists tl. split; [unfold h2; by rewrite !lookup_insert_ne|]. split; [done|].
    eapply Forall_is_Some_impl; [exact Htl|]. intros; eauto.
  - exists (ul ++ [l]). split; [apply lookup_insert_eq|]. split.
    { apply NoDup_app. split; [done|]. split; [|apply NoDup_singleton].
      intros x Hx ->%list_elem_of_singleton.
      rewrite Forall_forall in Hul. destruct (Hul _ Hx) as [? H%user_at_Some].
      congruence. }
    apply Forall_app. split.
    + eapply Forall_is_Some_impl; [exact Hul|]. intros; eauto.
    + constructor; [by exists u|constructor].
  - unfold usersV. simpl. replace (arr h2 (users st)) with (ul ++ [l])
      by (unfold h2; by rewrite arr_insert_eq).
    rewrite omap_app. csimpl. rewrite Hl. csimpl.
    rewrite (omap_user_at_ext (heap st)) by done.
    unfold arr. by rewrite Hu.
  - unfold topicsV. simpl. replace (arr h2 (topics st)) with (arr (heap st) (topics st))
      by (unfold h2; by rewrite !arr_insert_ne).
    rewrite (omap_topic_at_ext (heap st)); [done| |done].
    unfold arr. by rewrite Ht.
Qed.

Lemma bind_ok {A B} (m : M A) (k : A -> M B) st st' a :
  m st = (st', Ok a) -> bind m k st = k a st'.
Proof. unfold bind. by intros ->. Qed.

Lemma bind_throw {A B} (m : M A) (k : A -> M B) st st' e :
  m st = (st', Throw e) -> bind m k st = (st', Throw e).
Proof. unfold bind. by intros ->. Qed.

Lemma bind_diverge {A B} (m : M A) (k : A -> M B) st st' :
  m st = (st', Diverge) -> bind m k st = (st', Diverge).
Proof. unfold bind. by intros ->. Qed.

Lemma wf_same st st' :
  heap st' = heap st -> topics st' = topics st -> users st' = users st ->
  wf st -> wf st'.
Proof. unfold wf. by intros -> -> ->. Qed.

Lemma topicsV_same st st' :
  heap st' = heap st -> topics st' = topics st -> topicsV st' = topicsV st.
Proof. unfold topicsV. by intros -> ->. Qed.

Lemma usersV_same st st' :
  heap st' = heap st -> users st' = users st -> usersV st' = usersV st.
Proof. unfold usersV. by intros -> ->. Qed.


Lemma create_process_spec env c st me u :
  wf st -> postLoggedInUser c = Some me -> user_at (heap st) me = Some u ->
  match blank2 (get (post c) "title") (get (post c) "description") with
  | Throw e => create_process env c st = (st, Throw e)
  | Diverge => create_process env c st = (st, Diverge)
  | Ok true =>
      create_process env c st
      = (st, Ok (page 400 (templateHTML (VStr "오류") (emptyListHtml st) Body400Create None
                             (p_sort c) (p_limit c) (p_page c) (Some u))))
  | Ok false =>
      exists st', create_process env c st
                  = (st', writeHead302 (ToList (p_page c) (p_limit c) (p_sort c)))
        /\ wf st' /\ topicsV st' = topicsV st ++ [newTopic env c st u]
        /\ usersV st' = usersV st /\ nextId st' = Num.nearest (nextId st + 1)
        /\ nextUserId st' = nextUserId st /\ sessions st' = sessions st
        /\ disk st' = {| topics_json := saveData env (topics_json (disk st)) (topicsV st');
                         users_json := users_json (disk st) |}
  end.
Proof.
  intros Hwf Hme Hu. unfold blank2, create_process, require_login, error_page, snapshot.
  rewrite Hme. msimpl.
  destruct (isEmptyOrWhitespace (get (post c) "title")) as [[]|e|]; msimpl.
  - by rewrite Hu.
  - destruct (isEmptyOrWhitespace (get (post c) "description")) as [[]|e|]; msimpl.
    + by rewrite Hu.
    + unfold user_of. rewrite Hu. msimpl.
      destruct (push_topic (set_nextId (Num.nearest (nextId st + 1)) st)
                  (newTopic env c st u))
        as (st2 & Hpush & Hwf2 & Ht2 & Hu2 & Hn2 & Hnu2 & Hs2 & Hd2 & Htt & Huu).
      { revert Hwf. by apply wf_same. }
      msimpl in Hpush.
      unfold newTopic in Hpush. rewrite (bind_ok _ _ _ _ _ Hpush).
      unfold saveTopics. msimpl.
      eexists. split; [reflexivity|].
      split; [revert Hwf2; by apply wf_same|].
      split; [etrans; [|exact Ht2]; by apply topicsV_same|].
      split; [etrans; [|exact Hu2]; by apply usersV_same|].
      cbn. by rewrite Hn2, Hnu2, Hs2, Hd2.
    + done.
    + done.
  - done.
  - done.
Qed.

Lemma omap_Forall2 {A B} (deref : A -> option B) ls xs :
  Forall2 (fun l x => deref l = Some x) ls xs -> omap deref ls = xs.
Proof. induction 1 as [|l x ls xs Hl _ IH]; csimpl; [done|]. by rewrite Hl, IH. Qed.

Lemma existsb_view {A B} (deref : A -> option B) (p : A -> bool) (q : B -> bool) ls xs :
  Forall2 (fun l x => deref l = Some x) ls xs ->
  (forall l x, deref l = Some x -> p l = q x) ->
  existsb p ls = existsb q xs.
Proof.
  intros Hall Hp. induction Hall as [|l x ls xs Hl _ IH]; simpl; [done|].
  by rewrite (Hp _ _ Hl), IH.
Qed.

Lemma findIndex_view {A B} (deref : A -> option B) (p : A -> bool) (q : B -> bool) ls xs :
  Forall2 (fun l x => deref l = Some x) ls xs ->
  (forall l x, deref l = Some x -> p l = q x) ->
  findIndex p ls = findIndex q xs.
Proof.
  intros Hall Hp. induction Hall as [|l x ls xs Hl _ IH]; simpl; [done|].
  by rewrite (Hp _ _ Hl), IH.
Qed.

Lemma findIndex_Some {A} (p : A -> bool) l i :
  findIndex p l = Some i ->
  exists x, l !! i = Some x /\ p x = true /\ find p l = Some x.
Proof.
  revert i. induction l as [|y l IH]; intros i; simpl; [done|].
  destruct (p y) eqn:E.
  - intros [= <-]. by exists y.
  - destruct (findIndex p l) as [j|]; simpl; [|done]. intros [= <-].
    destruct (IH j eq_refl) as (x & ? & ? & ?). by exists x.
Qed.

Lemma filter_view {A B} (deref : A -> option B) (P : A -> Prop) (Q : B -> Prop)
    `{forall a, Decision (P a)} `{forall b, Decision (Q b)} ls xs :
  Forall2 (fun l x => deref l = Some x) ls xs ->
  (forall l x, deref l = Some x -> P l <-> Q x) ->
  Forall2 (fun l x => deref l = Some x) (filter P ls) (filter Q xs).
Proof.
  intros Hall Hp. induction Hall as [|l x ls xs Hl _ IH]; [constructor|].
  rewrite !filter_cons. pose proof (Hp _ _ Hl).
  destruct (decide (P l)), (decide (Q x)); try tauto. by constructor.
Qed.

(** [topics[i].field = ...]: the view after a write to the object at
    index [i]. *)
Lemma update_view (h : gmap positive cell) ls xs i l t' :
  NoDup ls ->
  Forall2 (fun l x => topic_at h l = Some x) ls xs ->
  ls !! i = Some l ->
  Forall2 (fun l' x => topic_at (<[l := TopicObj t']> h) l' = Some x) ls (<[i := t']> xs).
Proof.
  intros Hnd Hall Hi. apply Forall2_same_length_lookup. split.
  { rewrite length_insert. by eapply Forall2_length. }
  intros j x y Hx Hy. destruct (decide (j = i)) as [->|Hne].
  - assert (x = l) as -> by congruence.
    rewrite list_lookup_insert_eq in Hy.
    + injection Hy as <-. apply topic_at_insert_eq.
    + erewrite <- Forall2_length by exact Hall. by eapply lookup_lt_Some.
  - rewrite list_lookup_insert_ne in Hy by done.
    rewrite topic_at_insert_ne.
    + exact (Forall2_lookup_lr _ _ _ _ _ _ Hall Hx Hy).
    + intros Heq. subst. apply Hne. exact (NoDup_lookup _ _ _ _ Hnd Hx Hi).
Qed.


Lemma has_username_view h name l u :
  user_at h l = Some u -> has_username h name l = strict_eq (User.username u) name.
Proof. unfold has_username. by intros ->. Qed.

Lemma register_process_spec env c st :
  wf st ->
  match blank3 (get (post c) "username") (get (post c) "password")
               (get (post c) "nickname") with
  | Throw e => register_process env c st = (st, Throw e)
  | Diverge => register_process env c st = (st, Diverge)
  | Ok true =>
      register_process env c st
      = (st, Ok (page 400 (templateHTML (VStr "오류") (emptyListHtml st) Body400Register
                             None (p_sort c) (p_limit c) (p_page c)
                             (snapshot (heap st) (postLoggedInUser c)))))
  | Ok false =>
      if existsb (fun u => strict_eq (User.username u) (get (post c) "username"))
                 (usersV st)
      then register_process env c st
           = (st, Ok (page 409 (templateHTML (VStr "오류") (emptyListHtml st) Body409
                                  None (p_sort c) (p_limit c) (p_page c)
                                  (snapshot (heap st) (postLoggedInUser c)))))
      else exists st', register_process env c st = (st', Ok (redirect ToLogin None))
        /\ wf st' /\ usersV st' = usersV st ++ [newUser c st]
        /\ topicsV st' = topicsV st /\ nextUserId st' = Num.nearest (nextUserId st + 1)
        /\ nextId st' = nextId st /\ sessions st' = sessions st
        /\ disk st' = {| topics_json := topics_json (disk st);
                         users_json := saveData env (users_json (disk st)) (usersV st') |}
  end.
Proof.
  intros Hwf. unfold blank3, blank2, register_process, error_page. msimpl.
  destruct (isEmptyOrWhitespace (get (post c) "username")) as [[]|e|]; msimpl;
    [done| |done|done].
  destruct (isEmptyOrWhitespace (get (post c) "password")) as [[]|e|]; msimpl;
    [done| |done|done].
  destruct (isEmptyOrWhitespace (get (post c) "nickname")) as [[]|e|]; msimpl;
    [done| |done|done].
  destruct (wf_users _ Hwf) as (ul & _ & Harr & _ & Hall).
  rewrite Harr.
  rewrite (existsb_view _ _ (fun u => strict_eq (User.username u) (get (post c) "username"))
             _ _ Hall (has_username_view _ _)).
  destruct (existsb _ (usersV st)); msimpl; [done|].
  destruct (push_user (set_nextUserId (Num.nearest (nextUserId st + 1)) st) (newUser c st))
    as (st2 & Hpush & Hwf2 & Hu2 & Ht2 & Hn2 & Hnu2 & Hs2 & Hd2 & Htt & Huu).
  { revert Hwf. by apply wf_same. }
  msimpl in Hpush. unfold newUser in Hpush. rewrite (bind_ok _ _ _ _ _ Hpush).
  unfold saveUsers. msimpl.
  eexists. split; [reflexivity|].
  split; [revert Hwf2; by apply wf_same|].
  split; [etrans; [|exact Hu2]; by apply usersV_same|].
  split; [etrans; [|exact Ht2]; by apply topicsV_same|].
  cbn. by rewrite Hn2, Hnu2, Hs2, Hd2.
Qed.

Lemma has_credentials_view h name pw l u :
  user_at h l = Some u ->
  has_credentials h name pw l
  = strict_eq (User.username u) name && strict_eq (default VUndef (User.password u)) pw.
Proof. unfold has_credentials. by intros ->. Qed.

Lemma login_process_spec env c st :
  wf st ->
  match find (fun u => strict_eq (User.username u) (get (post c) "username")
                       && strict_eq (default VUndef (User.password u))
                                    (get (post c) "password")) (usersV st) with
  | Some u =>
      login_process env c st
      = (set_sessions (<[randomBytes env := User.id u]> (sessions st)) st,
         Ok (redirect ToRoot (Some (SessionCookie (randomBytes env)))))
  | None =>
      login_process env c st
      = (st, Ok (page 401 (templateHTML (VStr "로그인 실패") (emptyListHtml st) Body401
                             None (p_sort c) (p_limit c) (p_page c)
                             (snapshot (heap st) (postLoggedInUser c)))))
  end.
Proof.
  intros Hwf. unfold login_process, error_page. msimpl.
  destruct (wf_users _ Hwf) as (ul & _ & Harr & _ & Hall). rewrite Harr.
  pose proof (find_view _ _ _ _ _ Hall
                (has_credentials_view (heap st) (get (post c) "username")
                   (get (post c) "password"))) as Hf.
  destruct (find (has_credentials _ _ _) ul) as [l|].
  - destruct Hf as (u & Hl & -> & _). unfold user_of. rewrite Hl. by msimpl.
  - by rewrite Hf.
Qed.

Lemma has_id_view h n l t :
  topic_at h l = Some t -> has_topic_id h n l = has_id n t.
Proof. unfold has_topic_id, has_id. by intros ->. Qed.


Lemma update_process_spec env c st me u :
  wf st -> postLoggedInUser c = Some me -> user_at (heap st) me = Some u ->
  let n := parseInt (get (post c) "id") in
  match findIndex (has_id n) (topicsV st) with
  | None => update_process env c st = (st, Ok (forbidden_update c st u))
  | Some i =>
      exists t, topicsV st !! i = Some t /\
        if negb (Topic.author t =? User.id u)
        then update_process env c st = (st, Ok (forbidden_update c st u))
        else exists st',
          update_process env c st
          = (st', writeHead302 (ToTopic n (p_page c) (p_limit c) (p_sort c)))
          /\ wf st' /\ topicsV st' = <[i := updated env c t]> (topicsV st)
          /\ usersV st' = usersV st /\ nextId st' = nextId st
          /\ nextUserId st' = nextUserId st /\ sessions st' = sessions st
          /\ disk st' = {| topics_json := saveData env (topics_json (disk st)) (topicsV st');
                           users_json := users_json (disk st) |}
  end.
Proof.
  intros Hwf Hme Hu n. unfold update_process, require_login, error_page, snapshot.
  rewrite Hme. msimpl. fold n.
  destruct (wf_topics _ Hwf) as (tl & Ht & Harr & Hnd & Hall). rewrite Harr.
  rewrite (findIndex_view _ _ (has_id n) _ _ Hall (has_id_view _ _)).
  destruct (findIndex (has_id n) (topicsV st)) as [i|] eqn:Hi; msimpl; [|by rewrite Hu].
  destruct (findIndex_Some _ _ _ Hi) as (t & Hti & _ & _).
  exists t. split; [done|].
  destruct (Forall2_lookup_r _ _ _ _ _ Hall Hti) as (l & Hli & Hl).
  rewrite Hli. unfold topic_of, user_of. rewrite Hl, Hu. msimpl.
  destruct (negb (Topic.author t =? User.id u)); msimpl; [by rewrite Hu|].
  unfold saveTopics. msimpl. eexists. split; [reflexivity|].
  pose proof Hwf as (Hne & (tl' & Ht' & _ & Htl) & (ul & Hul & Hndu & Hul')).
  assert (tl' = tl) as -> by congruence.
  apply topic_at_Some in Hl.
  assert (l ≠ topics st) as Hlt by congruence.
  assert (l ≠ users st) as Hlu by congruence.
  set (h' := <[l := _]> (heap st)).
  assert (forall l' u', user_at (heap st) l' = Some u' -> user_at h' l' = Some u') as Ku.
  { intros l' u' H. unfold h'. apply user_at_Some in H.
    rewrite user_at_insert_ne by congruence. by apply user_at_Some. }
  pose proof (update_view _ _ _ _ _ (updated env c t) Hnd Hall Hli) as Hall'.
  fold h' in Hall'.
  split; [|split; [|split]].
  - split; [done|]. split.
    + exists tl. cbn. split; [unfold h'; by rewrite lookup_insert_ne|]. split; [done|].
      eapply Forall2_Forall_l; [exact Hall'|]. apply Forall_true. intros ? ?; eauto.
    + exists ul. cbn. split; [unfold h'; by rewrite lookup_insert_ne|]. split; [done|].
      eapply Forall_is_Some_impl; [exact Hul'|]. intros; eauto.
  - unfold topicsV. cbn. fold h'.
    replace (arr h' (topics st)) with tl
      by (unfold h'; rewrite arr_insert_ne by done; unfold arr; by rewrite Ht).
    by apply omap_Forall2.
  - unfold usersV. cbn. fold h'.
    replace (arr h' (users st)) with (arr (heap st) (users st))
      by (unfold h'; by rewrite arr_insert_ne).
    rewrite (omap_user_at_ext (heap st)); [done| |done].
    unfold arr. by rewrite Hul.
  - done.
Qed.

Lemma delete_process_spec env c st me u :
  wf st -> postLoggedInUser c = Some me -> user_at (heap st) me = Some u ->
  let n := parseInt (get (post c) "id") in
  match find (has_id n) (topicsV st) with
  | None => delete_process env c st = (st, Ok (forbidden_delete c st u))
  | Some t =>
      if negb (Topic.author t =? User.id u)
      then delete_process env c st = (st, Ok (forbidden_delete c st u))
      else exists st',
        delete_process env c st
        = (st', writeHead302 (ToList (p_page c) (p_limit c) (p_sort c)))
        /\ wf st'
        /\ topicsV st' = filter (fun t => has_id n t = false) (topicsV st)
        /\ usersV st' = usersV st /\ nextId st' = nextId st
        /\ nextUserId st' = nextUserId st /\ sessions st' = sessions st
        /\ disk st' = {| topics_json := saveData env (topics_json (disk st)) (topicsV st');
                         users_json := users_json (disk st) |}
  end.
Proof.
  intros Hwf Hme Hu n. unfold delete_process, require_login, error_page, snapshot.
  rewrite Hme. msimpl. fold n.
  destruct (wf_topics _ Hwf) as (tl & Ht & Harr & Hnd & Hall). rewrite Harr.
  pose proof (find_view _ _ _ _ _ Hall (has_id_view (heap st) n)) as Hf.
  destruct (find (has_topic_id (heap st) n) tl) as [l|]; msimpl.
  2:{ rewrite Hf. by rewrite Hu. }
  destruct Hf as (t & Hl & -> & Hin). unfold topic_of, user_of. rewrite Hl, Hu. msimpl.
  destruct (negb (Topic.author t =? User.id u)); msimpl; [by rewrite Hu|].
  unfold saveTopics. msimpl. eexists. split; [reflexivity|].
  pose proof Hwf as (Hne & (tl' & Ht' & _ & Htl) & (ul & Hul & Hndu & Hul')).
  assert (tl' = tl) as -> by congruence.
  pose proof (fresh_free (heap st)) as Hfree.
  set (kept := fresh (dom (heap st))) in *.
  set (fl := filter _ tl).
  set (h' := <[kept := Arr fl]> (heap st)).
  assert (kept ≠ users st) as Hku by congruence.
  assert (forall l' t', topic_at (heap st) l' = Some t' -> topic_at h' l' = Some t') as Kt.
  { intros l' t' H. unfold h'. apply topic_at_Some in H.
    rewrite topic_at_insert_ne by congruence. by apply topic_at_Some. }
  assert (forall l' u', user_at (heap st) l' = Some u' -> user_at h' l' = Some u') as Ku.
  { intros l' u' H. unfold h'. apply user_at_Some in H.
    rewrite user_at_insert_ne by congruence. by apply user_at_Some. }
  assert (Forall2 (fun l x => topic_at (heap st) l = Some x) fl
            (filter (fun t => has_id n t = false) (topicsV st))) as Hfl.
  { apply filter_view; [done|]. intros l' t' H. by rewrite (has_id_view _ _ _ _ H). }
  split; [|split; [|split]].
  - split; [done|]. split.
    + exists fl. cbn. split; [apply lookup_insert_eq|].
      split; [by apply NoDup_filter|].
      eapply Forall2_Forall_l; [exact Hfl|]. apply Forall_true. intros ? ? ?; eauto.
    + exists ul. cbn. split; [unfold h'; by rewrite lookup_insert_ne|]. split; [done|].
      eapply Forall_is_Some_impl; [exact Hul'|]. intros; eauto.
  - unfold topicsV. cbn. fold h'.
    replace (arr h' kept) with fl by (unfold h'; by rewrite arr_insert_eq).
    apply omap_Forall2. eapply Forall2_impl; [exact Hfl|]. intros; eauto.
  - unfold usersV. cbn. fold h'.
    replace (arr h' (users st)) with (arr (heap st) (users st))
      by (unfold h'; by rewrite arr_insert_ne).
    rewrite (omap_user_at_ext (heap st)); [done| |done].
    unfold arr. by rewrite Hul.
  - done.
Qed.

(** ** The handlers that only read *)

Lemma sortTopics_spec env a sort st :
  let l := fresh (dom (heap st)) in
  match sortM (comparator env (heap st) sort) (arr (heap st) a) with
  | Ok sorted =>
      sortTopics env a sort st = (set_heap (<[l := Arr sorted]> (heap st)) st, Ok l)
  | Throw e =>
      sortTopics env a sort st
      = (set_heap (<[l := Arr (arr (heap st) a)]> (heap st)) st, Throw e)
  | Diverge =>
      sortTopics env a sort st
      = (set_heap (<[l := Arr (arr (heap st) a)]> (heap st)) st, Diverge)
  end.
Proof.
  intros l. unfold sortTopics. msimpl. fold l.
  destruct (sortM _ _); msimpl; [|done|done].
  unfold set_heap. cbn. by rewrite insert_insert_eq.
Qed.

Lemma sortTopics_frame env a sort st :
  frame st (fst (sortTopics env a sort st)).
Proof.
  pose proof (sortTopics_spec env a sort st) as H. cbn zeta in H.
  destruct (sortM _ _); rewrite H; apply frame_alloc, fresh_free.
Qed.

Lemma root_frame env req me st : frame st (fst (root env req me st)).
Proof.
  unfold root. msimpl.
  pose proof (sortTopics_frame env (topics st) (or_else (get (query req) "sort") (VStr "latest")) st) as Hf.
  unfold bind at 1.
  destruct (sortTopics env (topics st) _ st) as [st1 [sorted|e|]]; [|exact Hf|exact Hf].
  cbn [fst] in Hf. msimpl.
  destruct (templatePagination _ _ _ _); msimpl; [|done|done].
  destruct (truthy _); msimpl; [|done].
  destruct (find _ _); msimpl; [|done].
  destruct (topic_of _ _); msimpl; [|done|done].
  destruct (marked_parse _ _); by msimpl.
Qed.

Lemma create_state req me st : fst (create req me st) = st.
Proof. unfold create. msimpl. by destruct me. Qed.

Lemma update_state req me st : fst (update req me st) = st.
Proof.
  unfold update. msimpl. destruct me; msimpl; [|done].
  destruct (find _ _); msimpl; [|done].
  destruct (topic_of _ _); msimpl; [|done|done].
  destruct (user_of _ _); msimpl; [|done|done].
  by destruct (negb _).
Qed.

Lemma login_state req me st : fst (login req me st) = st.
Proof. unfold login. msimpl. by destruct me. Qed.

Lemma register_state req me st : fst (register req me st) = st.
Proof. done. Qed.

Lemma not_found_state req me st : fst (not_found req me st) = st.
Proof. done. Qed.

Lemma some_state {A} (m : M A) st : fst (some m st) = fst (m st).
Proof. unfold some, bind, ret. by destruct (m st) as [? []]. Qed.

Lemma logout_state req st :
  exists ss, fst (logout_process req st) = set_sessions ss st.
Proof.
  unfold logout_process. msimpl.
  destruct (parseCookies req); msimpl.
  - destruct (_ !! _); msimpl.
    + destruct (negb _); msimpl; [by eexists|].
      exists (sessions st). by destruct st.
    + exists (sessions st). by destruct st.
  - exists (sessions st). by destruct st.
  - exists (sessions st). by destruct st.
Qed.

(** ** Effects *)

Lemma effect_frame st st' : wf st -> frame st st' -> effect st st'.
Proof.
  intros Hwf Hf. apply eff_none.
  - by apply frame_topicsV.
  - by apply frame_usersV.
  - apply Hf.
  - apply Hf.
Qed.

Lemma effect_after_frame st st1 st' :
  wf st -> frame st st1 -> effect st1 st' -> effect st st'.
Proof.
  intros Hwf Hf He.
  pose proof (frame_topicsV _ _ Hwf Hf) as Et.
  pose proof (frame_usersV _ _ Hwf Hf) as Eu.
  destruct Hf as (_ & _ & _ & En & Enu & _).
  destruct He as [? ? ? ?|t ? ? ? ? ?|i t t' ? ? ? ? ? ? ? ?|n ? ? ? ?|u ? ? ? ? ? ? ?].
  - apply eff_none; congruence.
  - apply (eff_created _ _ t); congruence.
  - apply (eff_updated _ _ i t t'); congruence.
  - apply (eff_deleted _ _ n); congruence.
  - apply (eff_registered _ _ u); congruence.
Qed.

Lemma effect_refl st : effect st st.
Proof. by apply eff_none. Qed.

Lemma blank3_false a b c :
  blank3 a b c = Ok false -> isEmptyOrWhitespace a = Ok false.
Proof.
  unfold blank3, blank2. destruct (isEmptyOrWhitespace a) as [[]| |]; cbn; try done.
Qed.

Lemma post_route_effect env req c st :
  wf st ->
  (forall me, postLoggedInUser c = Some me -> exists u, user_at (heap st) me = Some u) ->
  wf (fst (post_route env req c st)) /\ effect st (fst (post_route env req c st)).
Proof.
  intros Hwf Hme. unfold post_route.
  destruct (String.eqb _ "/create_process").
  { rewrite some_state. destruct (postLoggedInUser c) as [me|] eqn:E.
    - destruct (Hme _ eq_refl) as [u Hu].
      pose proof (create_process_spec env c st me u Hwf E Hu) as H.
      destruct (blank2 _ _) as [[]| |]; try (rewrite H; split; [done|apply effect_refl]).
      destruct H as (st' & -> & ? & ? & ? & ? & ? & ?). split; [done|].
      by eapply eff_created.
    - unfold create_process, require_login. rewrite E. msimpl.
      split; [done|apply effect_refl]. }
  destruct (String.eqb _ "/update_process").
  { rewrite some_state. destruct (postLoggedInUser c) as [me|] eqn:E.
    - destruct (Hme _ eq_refl) as [u Hu].
      pose proof (update_process_spec env c st me u Hwf E Hu) as H. cbn zeta in H.
      destruct (findIndex _ _); [|rewrite H; split; [done|apply effect_refl]].
      destruct H as (t & Ht & H).
      destruct (negb _); [rewrite H; split; [done|apply effect_refl]|].
      destruct H as (st' & -> & ? & ? & ? & ? & ? & ?). split; [done|].
      by eapply (eff_updated _ _ _ t (updated env c t)).
    - unfold update_process, require_login. rewrite E. msimpl.
      split; [done|apply effect_refl]. }
  destruct (String.eqb _ "/delete_process").
  { rewrite some_state. destruct (postLoggedInUser c) as [me|] eqn:E.
    - destruct (Hme _ eq_refl) as [u Hu].
      pose proof (delete_process_spec env c st me u Hwf E Hu) as H. cbn zeta in H.
      destruct (find _ _); [|rewrite H; split; [done|apply effect_refl]].
      destruct (negb _); [rewrite H; split; [done|apply effect_refl]|].
      destruct H as (st' & -> & ? & ? & ? & ? & ? & ?). split; [done|].
      by eapply eff_deleted.
    - unfold delete_process, require_login. rewrite E. msimpl.
      split; [done|apply effect_refl]. }
  destruct (String.eqb _ "/register_process").
  { rewrite some_state.
    pose proof (register_process_spec env c st Hwf) as H.
    destruct (blank3 _ _ _) as [[]| |] eqn:Hb;
      try (rewrite H; split; [done|apply effect_refl]).
    destruct (existsb _ _) eqn:Hex; [rewrite H; split; [done|apply effect_refl]|].
    destruct H as (st' & -> & ? & ? & ? & ? & ? & ?). split; [done|].
    eapply (eff_registered _ _ (newUser c st)); try done.
    cbn. by eapply blank3_false. }
  destruct (String.eqb _ "/login_process").
  { rewrite some_state.
    pose proof (login_process_spec env c st Hwf) as H.
    destruct (find _ _); rewrite H; cbn [fst]; [|split; [done|apply effect_refl]].
    split; [revert Hwf; by apply wf_same|by apply eff_none]. }
  split; [done|apply effect_refl].
Qed.

Lemma session_user_frame req st st1 :
  wf st -> frame st st1 -> session_user req st1 = session_user req st.
Proof.
  intros Hwf Hf. unfold session_user.
  rewrite (frame_usersV _ _ Hwf Hf).
  destruct Hf as (_ & _ & _ & _ & _ & -> & _). done.
Qed.

Lemma catch_state m st : fst (catch m error500 st) = fst (m st).
Proof. unfold catch. by destruct (m st) as [? [| |]]. Qed.

(** The state and the user after the resolver ran. *)
Lemma getLoggedInUser_cases req st :
  wf st ->
  exists st1 r, getLoggedInUser req st = (st1, r) /\ frame st st1 /\ wf st1
    /\ match r with
       | Ok (Some l) =>
           exists u, session_user req st = Ok (Some u)
                     /\ user_at (heap st1) l = Some u /\ heap st !! l = None
                     /\ st1 = set_heap (<[l := UserObj u]> (heap st)) st
       | Ok None => session_user req st = Ok None /\ st1 = st
       | Throw e => session_user req st = Throw e /\ st1 = st
       | Diverge => session_user req st = Diverge /\ st1 = st
       end.
Proof.
  intros Hwf. pose proof (getLoggedInUser_spec req st Hwf) as H.
  destruct (session_user req st) as [[u|]|e|].
  - destruct H as (l & Hfree & ->). eexists _, _. split; [done|].
    pose proof (frame_alloc st l (UserObj u) Hfree) as Hf.
    split; [done|]. split; [by eapply wf_frame|].
    exists u. split; [done|]. split; [apply user_at_insert_eq|done].
  - rewrite H. eexists _, _. split; [done|]. split; [apply frame_refl|]. done.
  - rewrite H. eexists _, _. split; [done|]. split; [apply frame_refl|]. done.
  - rewrite H. eexists _, _. split; [done|]. split; [apply frame_refl|]. done.
Qed.

Lemma logged_in_as_session req st u :
  wf st -> logged_in_as req st u <-> session_user req st = Ok (Some u).
Proof.
  intros Hwf.
  destruct (getLoggedInUser_cases req st Hwf) as (st1 & r & Hg & _ & _ & Hr).
  unfold logged_in_as. rewrite Hg. split.
  - intros (st' & l & [= <- ->] & Hu). destruct Hr as (u' & ? & ? & _). congruence.
  - intros Hs. destruct r as [[l|]|e|].
    + destruct Hr as (u' & ? & ? & _). exists st1, l. split; [done|]. congruence.
    + destruct Hr. congruence.
    + destruct Hr. congruence.
    + destruct Hr. congruence.
Qed.

Lemma post_process_effect env req st :
  wf st ->
  wf (fst (post_process env req st)) /\ effect st (fst (post_process env req st)).
Proof.
  intros Hwf. unfold post_process. rewrite catch_state.
  destruct (getLoggedInUser_cases req st Hwf) as (st1 & r & Hg & Hf & Hwf1 & Hr).
  destruct r as [me|e|].
  - rewrite (bind_ok _ _ _ _ _ Hg).
    destruct (post_route_effect env req (post_ctx req me) st1 Hwf1) as [? ?].
    + intros l. cbn. intros ->. destruct Hr as (u & _ & ? & _). by exists u.
    + split; [done|]. by eapply effect_after_frame.
  - rewrite (bind_throw _ _ _ _ _ Hg). cbn [fst]. split; [done|]. by apply effect_frame.
  - rewrite (bind_diverge _ _ _ _ Hg). cbn [fst]. split; [done|]. by apply effect_frame.
Qed.

Lemma wf_set_sessions ss st : wf st -> wf (set_sessions ss st).
Proof. by apply wf_same. Qed.

(** Every request leaves the heap well formed and does one of the five
    things of [effect]. *)
Lemma app_effect env req st :
  wf st -> wf (fst (app env req st)) /\ effect st (fst (app env req st)).
Proof.
  intros Hwf.
  assert (fst (app env req st) = fst (dispatch env req st)) as ->.
  { unfold app. by destruct (dispatch env req st) as [? [[?|]|?|]]. }
  unfold dispatch.
  destruct (getLoggedInUser_cases req st Hwf) as (st1 & r & Hg & Hf & Hwf1 & Hr).
  destruct r as [me|e|].
  2:{ rewrite (bind_throw _ _ _ _ _ Hg). cbn [fst]. split; [done|]. by apply effect_frame. }
  2:{ rewrite (bind_diverge _ _ _ _ Hg). cbn [fst]. split; [done|]. by apply effect_frame. }
  rewrite (bind_ok _ _ _ _ _ Hg).
  destruct (String.eqb _ "/").
  { rewrite some_state. pose proof (root_frame env req me st1) as Hf2.
    split; [by eapply wf_frame|]. apply effect_frame; [done|]. by eapply frame_trans. }
  destruct (String.eqb _ "/create").
  { rewrite some_state, create_state. split; [done|]. by apply effect_frame. }
  destruct (String.eqb _ "/update").
  { rewrite some_state, update_state. split; [done|]. by apply effect_frame. }
  destruct (String.eqb _ "/login").
  { rewrite some_state, login_state. split; [done|]. by apply effect_frame. }
  destruct (String.eqb _ "/register").
  { rewrite some_state, register_state. split; [done|]. by apply effect_frame. }
  destruct (String.eqb _ "/logout_process").
  { rewrite some_state. destruct (logout_state req st1) as [ss ->].
    split; [by apply wf_set_sessions|].
    eapply effect_after_frame; [done|done|]. by apply eff_none. }
  destruct (String.eqb _ "POST").
  { destruct (post_process_effect env req st1 Hwf1). split; [done|].
    by eapply effect_after_frame. }
  rewrite some_state, not_found_state. split; [done|]. by apply effect_frame.
Qed.

(** ** Start-up *)

Lemma alloc_all_spec cs (h : gmap positive cell) :
  let '(h', ls) := alloc_all cs h in
  h ⊆ h' /\ NoDup ls /\ Forall2 (fun l c => h' !! l = Some c) ls cs
  /\ Forall (fun l => h !! l = None) ls.
Proof.
  revert h. induction cs as [|c cs IH]; intros h; simpl.
  { split; [done|]. split; [constructor|]. split; constructor. }
  specialize (IH (<[fresh (dom h) := c]> h)).
  destruct (alloc_all cs _) as [h' ls].
  destruct IH as (Hs & Hnd & Hall & Hfree).
  pose proof (fresh_free h) as Hf.
  assert (h ⊆ h') as Hs'.
  { etrans; [|exact Hs]. by apply insert_subseteq. }
  assert (h' !! fresh (dom h) = Some c) as Hc.
  { eapply lookup_weaken; [|exact Hs]. apply lookup_insert_eq. }
  split; [done|]. split; [|split].
  - constructor; [|done]. intros Hin.
    rewrite Forall_forall in Hfree. specialize (Hfree _ Hin).
    by rewrite lookup_insert_eq in Hfree.
  - by constructor.
  - constructor; [done|]. eapply Forall_impl; [exact Hfree|].
    intros l Hl. cbn in Hl. destruct (decide (fresh (dom h) = l)) as [<-|Hne]; [done|].
    by rewrite lookup_insert_ne in Hl.
Qed.

Lemma startup_spec env d :
  wf (startup env d)
  /\ topicsV (startup env d) = loaded_topics env d
  /\ usersV (startup env d) = loaded_users env d
  /\ nextId (startup env d) = next_id (Topic.id <$> loaded_topics env d)
  /\ nextUserId (startup env d) = next_id (User.id <$> loaded_users env d)
  /\ sessions (startup env d) = ∅.
Proof.
  unfold startup, loaded_topics, loaded_users.
  destruct (loadData env (topics_json d) _) as [tf ts].
  destruct (loadData env (users_json d) _) as [uf us]. cbn [snd].
  pose proof (alloc_all_spec (TopicObj <$> ts) ∅) as H1.
  destruct (alloc_all (TopicObj <$> ts) ∅) as [h1 tl].
  destruct H1 as (_ & Hndt & Ht & _).
  set (ta := fresh (dom h1)). set (h2 := <[ta := Arr tl]> h1).
  pose proof (alloc_all_spec (UserObj <$> us) h2) as H3.
  destruct (alloc_all (UserObj <$> us) h2) as [h3 ul].
  destruct H3 as (Hs3 & Hndu & Hu & Hfree3).
  set (ua := fresh (dom h3)). set (h4 := <[ua := Arr ul]> h3).
  pose proof (fresh_free h1) as Hta. fold ta in Hta.
  pose proof (fresh_free h3) as Hua. fold ua in Hua.
  assert (h2 !! ta = Some (Arr tl)) as Hta2 by apply lookup_insert_eq.
  assert (h3 !! ta = Some (Arr tl)) as Hta3 by (by eapply lookup_weaken).
  assert (ta ≠ ua) as Hne by congruence.
  assert (h4 !! ta = Some (Arr tl)) as Hta4.
  { unfold h4. by rewrite lookup_insert_ne. }
  assert (Forall2 (fun l t => topic_at h4 l = Some t) tl ts) as Ht4.
  { apply Forall2_fmap_r in Ht. eapply Forall2_impl; [exact Ht|].
    intros l t Hl. cbn in Hl. apply topic_at_Some.
    assert (h3 !! l = Some (TopicObj t)) as Hl3.
    { eapply lookup_weaken; [|exact Hs3]. unfold h2.
      rewrite lookup_insert_ne; [done|congruence]. }
    unfold h4. rewrite lookup_insert_ne; [done|congruence]. }
  assert (Forall2 (fun l u => user_at h4 l = Some u) ul us) as Hu4.
  { apply Forall2_fmap_r in Hu. eapply Forall2_impl; [exact Hu|].
    intros l u Hl. cbn in Hl. apply user_at_Some.
    unfold h4. rewrite lookup_insert_ne; [done|congruence]. }
  cbn. split; [|split; [|split]].
  - split; [done|]. split.
    + exists tl. split; [done|]. split; [done|].
      eapply Forall2_Forall_l; [exact Ht4|]. apply Forall_true. intros ? ? ?; eauto.
    + exists ul. split; [apply lookup_insert_eq|]. split; [done|].
      eapply Forall2_Forall_l; [exact Hu4|]. apply Forall_true. intros ? ? ?; eauto.
  - unfold topicsV. cbn. unfold arr. rewrite Hta4. by apply omap_Forall2.
  - assert (h4 !! ua = Some (Arr ul)) as Hua4 by apply lookup_insert_eq.
    unfold usersV. cbn. unfold arr. rewrite Hua4. by apply omap_Forall2.
  - done.
Qed.

Lemma wf_reaches s0 s : wf s0 -> reaches s0 s -> wf s.
Proof. intros H0. induction 1; [done|]. by apply app_effect. Qed.

(** ** The POST branch as a whole *)

(** The state and the user that the branch starts from are those the
    two look-ups of the session leave, whatever the environment. *)
Lemma app_post_any req st :
  wf st -> method req = "POST" -> post_path (pathname req) = true ->
  match session_user req st with
  | Throw e => forall env, app env req st = (st, Crashed e)
  | Diverge => forall env, app env req st = (st, Hangs)
  | Ok ou =>
      exists st2 me, frame st st2 /\ wf st2
        /\ match me with
           | Some l => exists u, ou = Some u /\ user_at (heap st2) l = Some u
           | None => ou = None
           end
        /\ forall env,
             app env req st = post_outcome (post_route env req (post_ctx req me) st2)
  end.
Proof.
  intros Hwf Hm Hp.
  destruct (getLoggedInUser_cases req st Hwf) as (st1 & r & Hg & Hf & Hwf1 & Hr).
  destruct r as [me|e|].
  2:{ destruct Hr as [-> ->]. intros env. unfold app, dispatch.
      by rewrite (bind_throw _ _ _ _ _ Hg). }
  2:{ destruct Hr as [-> ->]. intros env. unfold app, dispatch.
      by rewrite (bind_diverge _ _ _ _ Hg). }
  assert (session_user req st = Ok (snapshot (heap st1) me)) as Hs.
  { destruct me; cbn; [destruct Hr as (u & Hs' & Hu & _); by rewrite Hu|by destruct Hr]. }
  rewrite Hs. clear Hr.
  rewrite <- (session_user_frame req st st1 Hwf Hf) in Hs.
  destruct (getLoggedInUser_cases req st1 Hwf1) as (st2 & r & Hg2 & Hf2 & Hwf2 & Hr).
  destruct r as [me2|e|]; [|destruct Hr; congruence|destruct Hr; congruence].
  exists st2, me2. split; [by eapply frame_trans|]. split; [done|]. split.
  { destruct me2; [destruct Hr as (u & ? & Hu & _); exists u; split|destruct Hr]; congruence. }
  intros env. unfold app, dispatch. rewrite (bind_ok _ _ _ _ _ Hg).
  unfold post_path in Hp. apply negb_true_iff in Hp.
  repeat (apply orb_false_iff in Hp; destruct Hp as [Hp ?]).
  repeat match goal with H : String.eqb _ _ = false |- _ => rewrite H; clear H end.
  rewrite Hm. cbn [String.eqb Ascii.eqb Bool.eqb].
  unfold post_process, catch. rewrite (bind_ok _ _ _ _ _ Hg2).
  unfold post_outcome, error500. msimpl.
  by destruct (post_route _ _ _ _) as [? [[?|]|?|]].
Qed.

Lemma app_post env req st :
  wf st -> method req = "POST" -> post_path (pathname req) = true ->
  match session_user req st with
  | Throw e => app env req st = (st, Crashed e)
  | Diverge => app env req st = (st, Hangs)
  | Ok ou =>
      exists st2 me, frame st st2 /\ wf st2
        /\ match me with
           | Some l => exists u, ou = Some u /\ user_at (heap st2) l = Some u
           | None => ou = None
           end
        /\ app env req st = post_outcome (post_route env req (post_ctx req me) st2)
  end.
Proof.
  intros Hwf Hm Hp. pose proof (app_post_any req st Hwf Hm Hp) as H.
  destruct (session_user req st) as [ou|e|]; [|done|done].
  destruct H as (st2 & me & Hf & Hwf2 & Hme & H). by exists st2, me.
Qed.

(** Neither a served path nor a POST: the 404 page, if the cookies parse. *)
Lemma app_not_found env req st :
  post_path (pathname req) = true -> String.eqb (method req) "POST" = false ->
  app env req st =
  match getLoggedInUser req st with
  | (st1, Ok me) =>
      (st1, Responded (page 404 (templateHTML (VStr "404 Not Found") (emptyListHtml st1)
                                   Body404 None (get (query req) "sort")
                                   (get (query req) "limit") (get (query req) "page")
                                   (snapshot (heap st1) me))))
  | (st1, Throw e) => (st1, Crashed e)
  | (st1, Diverge) => (st1, Hangs)
  end.
Proof.
  intros Hp Hm. unfold app, dispatch, bind.
  destruct (getLoggedInUser req st) as [st1 [me|e|]]; [|done|done].
  unfold post_path in Hp. apply negb_true_iff in Hp.
  repeat (apply orb_false_iff in Hp; destruct Hp as [Hp ?]).
  repeat match goal with H : String.eqb _ _ = false |- _ => rewrite H; clear H end.
  done.
Qed.

Lemma post_route_at env req c p st :
  pathname req = p ->
  post_route env req c st =
  if String.eqb p "/create_process" then some (create_process env c) st
  else if String.eqb p "/update_process" then some (update_process env c) st
  else if String.eqb p "/delete_process" then some (delete_process env c) st
  else if String.eqb p "/register_process" then some (register_process env c) st
  else if String.eqb p "/login_process" then some (login_process env c) st
  else (st, Ok None).
Proof. intros <-. unfold post_route. by repeat case_match. Qed.

Lemma some_ok {A} (m : M A) st st' a : m st = (st', Ok a) -> some m st = (st', Ok (Some a)).
Proof. unfold some, bind, ret. by intros ->. Qed.

Lemma some_throw {A} (m : M A) st st' e : m st = (st', Throw e) -> some m st = (st', Throw e).
Proof. unfold some, bind, ret. by intros ->. Qed.

Lemma some_diverge {A} (m : M A) st st' : m st = (st', Diverge) -> some m st = (st', Diverge).
Proof. unfold some, bind, ret. by intros ->. Qed.

(** What the POST branch makes of the result [r] of its handler. *)
Lemma some_result {A} (m : M A) st st' (r : result A) :
  m st = (st', r) ->
  some m st = (st', match r with
                    | Ok a => Ok (Some a)
                    | Throw e => Throw e
                    | Diverge => Diverge
                    end).
Proof. unfold some, bind, ret. intros ->. by destruct r. Qed.

(** ** C1: post ids *)

Lemma foldr_max_ge x r y : y ∈ x :: r -> y <= foldr Z.max x r.
Proof.
  induction r as [|z r IH]; simpl.
  - intros ->%list_elem_of_singleton. lia.
  - intros [->|[->|H]%elem_of_cons]%elem_of_cons.
    + etrans; [apply IH; by left|]. lia.
    + lia.
    + etrans; [apply IH; by right|]. lia.
Qed.

Lemma foldr_max_in x r : foldr Z.max x r ∈ x :: r.
Proof.
  induction r as [|z r IH]; simpl; [by left|].
  destruct (Z.max_spec z (foldr Z.max x r)) as [[_ ->]|[_ ->]].
  - apply elem_of_cons in IH as [->|H]; [by left|]. right. by right.
  - right. by left.
Qed.

(** A counter within 2^53 of zero is one more than the number it was
    made from. *)
Lemma nearest_succ n : Z.abs (Num.nearest (n + 1)) < 2 ^ 53 -> Num.nearest (n + 1) = n + 1.
Proof.
  intros H. destruct (Z.le_gt_cases (Z.abs (n + 1)) (2 ^ 53)); [by apply nearest_safe|].
  exfalso. destruct (Z.le_gt_cases 0 (n + 1)).
  - pose proof (nearest_beyond (n + 1) ltac:(lia)). lia.
  - pose proof (nearest_beyond (- (n + 1)) ltac:(lia)) as H'.
    rewrite nearest_opp in H'. lia.
Qed.

(** Counting on from above -2^53: the counter grows by one until it has
    reached 2^53. *)
Lemma nearest_count n :
  - 2 ^ 53 < n -> Num.nearest (n + 1) < 2 ^ 53 -> Num.nearest (n + 1) = n + 1.
Proof.
  intros Hn H. destruct (Z.le_gt_cases (Z.abs (n + 1)) (2 ^ 53)); [by apply nearest_safe|].
  pose proof (nearest_beyond (n + 1) ltac:(lia)). lia.
Qed.

Lemma next_id_above ids y :
  Z.abs (next_id ids) < 2 ^ 53 -> y ∈ ids -> y < next_id ids.
Proof.
  destruct ids as [|x r]; [by intros _ ?%elem_of_nil|].
  unfold next_id. intros Hn H%foldr_max_ge. rewrite nearest_succ by done. lia.
Qed.

Lemma effect_ids st st' :
  ids_below st -> effect st st' -> - 2 ^ 53 < nextId st -> nextId st' < 2 ^ 53 ->
  ids_below st' /\ nextId st <= nextId st'.
Proof.
  intros Hb He Hlo Hhi.
  destruct He as [Et _ En _|t Et Ei En _ _|i t t' Hi Ei _ _ Et En _ _|n Et En _ _|u _ _ _ _ _ Et En].
  - split; [|lia]. intros t. rewrite Et, En. apply Hb.
  - rewrite En in Hhi. rewrite nearest_count in En by done.
    split; [|lia]. intros t0. rewrite Et, En.
    intros [H| ->%list_elem_of_singleton]%elem_of_app; [|lia].
    specialize (Hb _ H). lia.
  - split; [|lia]. intros t0. rewrite Et, En. intros H.
    apply list_elem_of_lookup in H as [j Hj].
    destruct (decide (j = i)) as [->|Hne].
    + rewrite list_lookup_insert_eq in Hj by (by eapply lookup_lt_Some).
      injection Hj as <-. rewrite Ei. apply Hb. by eapply list_elem_of_lookup_2.
    + rewrite list_lookup_insert_ne in Hj by done.
      apply Hb. by eapply list_elem_of_lookup_2.
  - split; [|lia]. intros t0. rewrite Et, En.
    intros [_ H]%list_elem_of_filter. by apply Hb.
  - split; [|lia]. intros t. rewrite Et, En. apply Hb.
Qed.

(** The counter of a state that comes before one with a counter below
    2^53 is below 2^53. *)
Lemma effect_counter_below st st' :
  effect st st' -> nextId st' < 2 ^ 53 -> nextId st < 2 ^ 53.
Proof.
  intros He Hhi.
  destruct He as [_ _ En _|t _ _ En _ _|i t t' _ _ _ _ _ En _ _|n _ En _ _|u _ _ _ _ _ _ En];
    try lia.
  destruct (Z.lt_ge_cases (nextId st) (2 ^ 53)); [done|].
  pose proof (nearest_beyond (nextId st + 1) ltac:(lia)). lia.
Qed.

Lemma reaches_counter_below s s' :
  wf s -> reaches s s' -> nextId s' < 2 ^ 53 -> nextId s < 2 ^ 53.
Proof.
  intros Hwf Hr. induction Hr as [|env req s1 Hr IH]; [done|]. intros Hhi. apply IH.
  destruct (app_effect env req s1 (wf_reaches _ _ Hwf Hr)) as [_ He].
  by eapply effect_counter_below.
Qed.

(** The counter does not go down while it is within 2^53 of zero. *)
Lemma reaches_counter s s' :
  wf s -> reaches s s' -> - 2 ^ 53 < nextId s -> nextId s' < 2 ^ 53 ->
  nextId s <= nextId s'.
Proof.
  intros Hwf Hr Hlo. induction Hr as [|env req s1 Hr IH]; [lia|]. intros Hhi.
  destruct (app_effect env req s1 (wf_reaches _ _ Hwf Hr)) as [_ He].
  specialize (IH (effect_counter_below _ _ He Hhi)).
  destruct He as [_ _ E _|t _ _ E _ _|i t t' _ _ _ _ _ E _ _|n _ E _ _|u _ _ _ _ _ _ E];
    try lia.
  rewrite E in Hhi |- *. rewrite nearest_count in * by lia. lia.
Qed.

Lemma startup_ids_below env d :
  Z.abs (nextId (startup env d)) < 2 ^ 53 -> ids_below (startup env d).
Proof.
  destruct (startup_spec env d) as (_ & Et & _ & En & _).
  intros Hn t. rewrite Et, En. intros H. apply next_id_above; [by rewrite <- En|].
  by apply list_elem_of_fmap_2.
Qed.

Lemma reaches_ids s0 s :
  wf s0 -> ids_below s0 -> reaches s0 s -> - 2 ^ 53 < nextId s0 -> nextId s < 2 ^ 53 ->
  ids_below s /\ nextId s0 <= nextId s.
Proof.
  intros Hwf Hb Hr Hlo. induction Hr as [|env req s1 Hr IH]; intros Hhi; [split; [done|lia]|].
  destruct (app_effect env req s1 (wf_reaches _ _ Hwf Hr)) as [_ He].
  destruct (IH (effect_counter_below _ _ He Hhi)) as [IH1 IH2].
  destruct (effect_ids _ _ IH1 He ltac:(lia) Hhi). split; [done|lia].
Qed.

(** Ids stay unique: the invariant that the statement of C2 assumes. *)
Lemma effect_unique_ids st st' :
  ids_below st -> effect st st' ->
  NoDup (Topic.id <$> topicsV st) -> NoDup (Topic.id <$> topicsV st').
Proof.
  intros Hb He Hnd.
  destruct He as [Et _ _ _|t Et Ei _ _ _|i t t' Hi Ei _ _ Et _ _ _|n Et _ _ _|u _ _ _ _ _ Et _].
  - by rewrite Et.
  - rewrite Et, fmap_app. apply NoDup_app. split; [done|].
    split; [|apply NoDup_singleton].
    intros x Hx ->%list_elem_of_singleton.
    apply list_elem_of_fmap in Hx as (t0 & Heq & Hin).
    specialize (Hb _ Hin). lia.
  - rewrite Et, list_fmap_insert, Ei, list_insert_id; [done|].
    by rewrite list_lookup_fmap, Hi.
  - rewrite Et. eapply sublist_NoDup; [exact Hnd|].
    apply fmap_sublist, sublist_filter.
  - by rewrite Et.
Qed.

(** X13. Post ids that are pairwise distinct in the file stay so in every
    state the server reaches while the counter is within 2^53 of zero: a
    new post gets an id above all others, an update keeps the id, a
    deletion only removes. *)
Lemma reaches_unique_ids env d s :
  NoDup (Topic.id <$> loaded_topics env d) -> reaches (startup env d) s ->
  - 2 ^ 53 < nextId (startup env d) -> nextId s < 2 ^ 53 ->
  NoDup (Topic.id <$> topicsV s).
Proof.
  intros Hnd Hr Hlo.
  destruct (startup_spec env d) as (Hwf & Et & _).
  induction Hr as [|env' req s1 Hr IH]; intros Hhi; [by rewrite Et|].
  destruct (app_effect env' req s1 (wf_reaches _ _ Hwf Hr)) as [_ He].
  pose proof (effect_counter_below _ _ He Hhi) as Hhi1.
  assert (Z.abs (nextId (startup env d)) < 2 ^ 53) as H0.
  { pose proof (reaches_counter _ _ Hwf Hr Hlo Hhi1). lia. }
  destruct (reaches_ids _ _ Hwf (startup_ids_below env d H0) Hr Hlo Hhi1) as [Hb _].
  eapply effect_unique_ids; [exact Hb|exact He|]. by apply IH.
Qed.

(** A request that appends a post has given it the counter as its id. *)
Lemma appended_post env req st t :
  wf st -> topicsV (fst (app env req st)) = topicsV st ++ [t] ->
  Topic.id t = nextId st /\ nextId (fst (app env req st)) = Num.nearest (nextId st + 1).
Proof.
  intros Hwf Ht. destruct (app_effect env req st Hwf) as [_ He].
  assert (length (topicsV (fst (app env req st))) = S (length (topicsV st))) as Hlen.
  { rewrite Ht, length_app. cbn. lia. }
  destruct He as [Et _ _ _|t' Et Ei En _ _|i t0 t' _ _ _ _ Et _ _ _|n Et _ _ _|u _ _ _ _ _ Et _].
  - rewrite Et in Hlen. lia.
  - rewrite Et in Ht. apply app_inj_tail in Ht as [_ <-]. done.
  - rewrite Et, length_insert in Hlen. lia.
  - rewrite Et in Hlen. pose proof (length_filter (fun t => has_id n t = false) (topicsV st)).
    lia.
  - rewrite Et in Hlen. lia.
Qed.

(** A 302 from [/create_process] is a post appended with the next id. *)
Lemma create_response env req st r :
  wf st -> pathname req = "/create_process" ->
  snd (app env req st) = Responded r -> status r = 302 ->
  exists t, topicsV (fst (app env req st)) = topicsV st ++ [t].
Proof.
  intros Hwf Hp Hr H302.
  destruct (String.eqb (method req) "POST") eqn:Hm.
  2:{ exfalso. rewrite app_not_found in Hr by (by rewrite ?Hp).
      destruct (getLoggedInUser req st) as [st1 [me|e|]]; [|done|done].
      cbn in Hr. injection Hr as <-. done. }
  apply String.eqb_eq in Hm.
  pose proof (app_post env req st Hwf Hm) as H. rewrite Hp in H. specialize (H eq_refl).
  destruct (session_user req st) as [ou|e|]; [|rewrite H in Hr; done|rewrite H in Hr; done].
  destruct H as (st2 & me & Hf & Hwf2 & Hsn & Happ).
  rewrite Happ in Hr |- *. rewrite (post_route_at _ _ _ _ _ Hp) in Hr |- *.
  cbn [String.eqb Ascii.eqb Bool.eqb] in Hr |- *.
  destruct me as [me|].
  2:{ exfalso. unfold some, create_process, require_login in Hr. cbn in Hr.
      injection Hr as <-. done. }
  destruct Hsn as (u & _ & Hu).
  pose proof (create_process_spec env (post_ctx req (Some me)) st2 me u Hwf2 eq_refl Hu) as Hc.
  destruct (blank2 _ _) as [[]| |].
  - exfalso. rewrite (some_ok _ _ _ _ Hc) in Hr. cbn in Hr. injection Hr as <-. done.
  - destruct Hc as (st' & Hc & _ & Et & _).
    rewrite (some_result _ _ _ _ Hc). 
    exists (newTopic env (post_ctx req (Some me)) st2 u).
    destruct (writeHead302 _); cbn [post_outcome fst]; rewrite Et;
      by rewrite (frame_topicsV _ _ Hwf Hf).
  - exfalso. rewrite (some_throw _ _ _ _ Hc) in Hr. cbn in Hr. injection Hr as <-. done.
  - exfalso. rewrite (some_diverge _ _ _ Hc) in Hr. done.
Qed.

(** C1. Within one run of the process and while the counter is within
    2^53 of zero: at start-up the counter is one more than the largest
    post id (1 for an empty collection); it never decreases, whatever
    requests follow, deletions included; a request that appends a post
    has given it the counter as its id, which is greater than that of
    every post there has been, and takes the counter one further; and a
    302 from [/create_process] has appended a post. *)
Theorem post_ids_monotonic env0 d s1 s2 :
  let s0 := startup env0 d in
  reaches s0 s1 -> reaches s1 s2 ->
  - 2 ^ 53 < nextId s0 -> nextId s2 < 2 ^ 53 ->
  (topicsV s0 = [] -> nextId s0 = 1)
  /\ (topicsV s0 ≠ [] ->
      (exists t, t ∈ topicsV s0 /\ nextId s0 = Topic.id t + 1)
      /\ forall t, t ∈ topicsV s0 -> Topic.id t < nextId s0)
  /\ nextId s0 <= nextId s1 <= nextId s2
  /\ (forall env req t,
        topicsV (fst (app env req s2)) = topicsV s2 ++ [t] ->
        Topic.id t = nextId s2
        /\ nextId (fst (app env req s2)) = nextId s2 + 1
        /\ forall t0, t0 ∈ topicsV s1 -> Topic.id t0 < Topic.id t)
  /\ (forall env req r,
        pathname req = "/create_process" ->
        snd (app env req s2) = Responded r -> status r = 302 ->
        exists t, topicsV (fst (app env req s2)) = topicsV s2 ++ [t]).
Proof.
  intros s0 H01 H12 Hlo Hhi.
  destruct (startup_spec env0 d) as (Hwf0 & Et & _ & En & _). fold s0 in Hwf0, Et, En.
  pose proof (wf_reaches _ _ Hwf0 H01) as Hwf1.
  pose proof (wf_reaches _ _ Hwf1 H12) as Hwf2.
  pose proof (reaches_counter_below _ _ Hwf1 H12 Hhi) as Hhi1.
  pose proof (reaches_counter _ _ Hwf0 H01 Hlo Hhi1) as Hle01.
  pose proof (reaches_counter _ _ Hwf1 H12 ltac:(lia) Hhi) as Hle12.
  pose proof (startup_ids_below env0 d ltac:(fold s0; lia)) as Hb0. fold s0 in Hb0.
  destruct (reaches_ids _ _ Hwf0 Hb0 H01 Hlo Hhi1) as [Hb1 _].
  split; [|split; [|split; [lia|split]]].
  - intros E. rewrite En, <- Et, E. done.
  - intros Hne. split; [|exact Hb0].
    assert (Z.abs (nextId s0) < 2 ^ 53) as Ha by lia.
    rewrite En, <- Et in Ha |- *. destruct (topicsV s0) as [|t ts]; [done|].
    pose proof (foldr_max_in (Topic.id t) (Topic.id <$> ts)) as Hin.
    change (Topic.id t :: (Topic.id <$> ts)) with (Topic.id <$> (t :: ts)) in Hin.
    apply list_elem_of_fmap in Hin as (t' & Heq & Hin').
    exists t'. split; [done|]. cbn [fmap list_fmap next_id] in Ha |- *.
    rewrite <- Heq. by apply nearest_succ.
  - intros env req t Ht.
    destruct (appended_post env req s2 t Hwf2 Ht) as [Hid Hn].
    split; [done|]. split; [rewrite Hn; apply nearest_safe; lia|].
    intros t0 H0. specialize (Hb1 _ H0). lia.
  - intros env req r. by apply create_response.
Qed.

(** ** C2: only the author edits or deletes *)

Lemma find_has_id_unique (l : list Topic.t) t :
  NoDup (Topic.id <$> l) -> t ∈ l -> find (has_id (Fin (Topic.id t))) l = Some t.
Proof.
  induction l as [|x l IH]; [by intros _ ?%elem_of_nil|].
  rewrite fmap_cons, NoDup_cons. intros [Hx Hnd] Hin. simpl. unfold has_id at 1. cbn [Num.eq].
  destruct (Z.eqb_spec (Topic.id x) (Topic.id t)) as [E|E].
  - apply elem_of_cons in Hin as [->|Hin]; [done|].
    exfalso. apply Hx. rewrite E. by apply list_elem_of_fmap_2.
  - apply elem_of_cons in Hin as [->|Hin]; [done|]. by apply IH.
Qed.

Lemma find_has_id_none (l : list Topic.t) n :
  (forall t, t ∈ l -> n ≠ Fin (Topic.id t)) -> find (has_id n) l = None.
Proof.
  induction l as [|x l IH]; [done|]. intros H. simpl.
  destruct (has_id n x) eqn:E.
  - exfalso. apply (H x); [by left|]. unfold has_id in E.
    destruct n as [k| |]; [|done|done]. apply Z.eqb_eq in E. by rewrite E.
  - apply IH. intros t Ht. apply H. by right.
Qed.

Lemma update_spec req st me u :
  wf st -> user_at (heap st) me = Some u ->
  match find (has_id (parseInt (get (query req) "id"))) (topicsV st) with
  | None => update req (Some me) st = (st, Ok (forbidden_update_get req st u))
  | Some t =>
      if negb (Topic.author t =? User.id u)
      then update req (Some me) st = (st, Ok (forbidden_update_get req st u))
      else exists r, update req (Some me) st = (st, Ok r) /\ status r = 200
  end.
Proof.
  intros Hwf Hu. unfold update, snapshot. msimpl.
  destruct (wf_topics _ Hwf) as (tl & Ht & Harr & Hnd & Hall). rewrite Harr.
  pose proof (find_view _ _ _ _ _ Hall
                (has_id_view (heap st) (parseInt (get (query req) "id")))) as Hf.
  destruct (find (has_topic_id _ _) tl) as [l|]; msimpl.
  2:{ rewrite Hf. by rewrite Hu. }
  destruct Hf as (t & Hl & -> & _). unfold topic_of, user_of. rewrite Hl, Hu. msimpl.
  destruct (negb _); msimpl; [done|]. by eexists.
Qed.

Lemma app_update env req st u :
  wf st -> pathname req = "/update" -> logged_in_as req st u ->
  exists st1 me, frame st st1 /\ wf st1 /\ user_at (heap st1) me = Some u
    /\ app env req st
       = match update req (Some me) st1 with
         | (st', Ok r) => (st', Responded r)
         | (st', Throw e) => (st', Crashed e)
         | (st', Diverge) => (st', Hangs)
         end.
Proof.
  intros Hwf Hp (st1 & me & Hg & Hu).
  destruct (getLoggedInUser_cases req st Hwf) as (st1' & r & Hg' & Hf & Hwf1 & _).
  rewrite Hg in Hg'. injection Hg' as <- <-.
  exists st1, me. split; [done|]. split; [done|]. split; [done|].
  unfold app, dispatch. rewrite (bind_ok _ _ _ _ _ Hg), Hp.
  cbn [String.eqb Ascii.eqb Bool.eqb]. unfold some, bind, ret.
  by destruct (update req (Some me) st1) as [? [?|?|]].
Qed.

Lemma app_delete env req st u :
  wf st -> method req = "POST" -> pathname req = "/delete_process" ->
  logged_in_as req st u ->
  exists st2 me, frame st st2 /\ wf st2 /\ user_at (heap st2) me = Some u
    /\ app env req st
       = post_outcome (some (delete_process env (post_ctx req (Some me))) st2).
Proof.
  intros Hwf Hm Hp Hu. apply logged_in_as_session in Hu; [|done].
  pose proof (app_post env req st Hwf Hm) as H. rewrite Hp in H. specialize (H eq_refl).
  rewrite Hu in H. destruct H as (st2 & me & Hf & Hwf2 & Hme & Happ).
  destruct me as [me|]; [|done]. destruct Hme as (u' & [= <-] & Hu').
  exists st2, me. split; [done|]. split; [done|]. split; [done|].
  rewrite Happ. by rewrite (post_route_at _ _ _ _ _ Hp).
Qed.

(** C2. For a logged-in user [u] and a post [t] of another author, GET
    [/update] and POST [/delete_process] for the id of [t] answer 403, and
    so they do for an id no post has; the posts stay as they are. The
    state is any well-formed one ([wf_reaches]: all that the server
    reaches are) in which ids are unique, as the data model has them
    ([reaches_unique_ids]). *)
Theorem non_author_forbidden env req st u :
  wf st -> NoDup (Topic.id <$> topicsV st) -> logged_in_as req st u ->
  let target_is (id : val) (t : Topic.t) :=
    t ∈ topicsV st /\ parseInt id = Fin (Topic.id t) /\ Topic.author t ≠ User.id u in
  let missing (id : val) :=
    forall t, t ∈ topicsV st -> parseInt id ≠ Fin (Topic.id t) in
  (pathname req = "/update" ->
   (exists t, target_is (get (query req) "id") t) \/ missing (get (query req) "id") ->
   status_of (snd (app env req st)) = Some 403
   /\ topicsV (fst (app env req st)) = topicsV st)
  /\ (method req = "POST" -> pathname req = "/delete_process" ->
      (exists t, target_is (get (body req) "id") t) \/ missing (get (body req) "id") ->
      status_of (snd (app env req st)) = Some 403
      /\ topicsV (fst (app env req st)) = topicsV st).
Proof.
  intros Hwf Hnd Hu target_is missing. split.
  - intros Hp Hcase.
    destruct (app_update env req st u Hwf Hp Hu) as (st1 & me & Hf & Hwf1 & Hme & ->).
    pose proof (update_spec req st1 me u Hwf1 Hme) as H.
    rewrite (frame_topicsV _ _ Hwf Hf) in H.
    destruct Hcase as [(t & Hin & Hid & Hau)|Hmiss].
    + rewrite Hid, (find_has_id_unique _ _ Hnd Hin) in H.
      destruct (Z.eqb_spec (Topic.author t) (User.id u)); [done|]. cbn [negb] in H.
      rewrite H. cbn. split; [done|]. by apply frame_topicsV.
    + rewrite (find_has_id_none _ _ Hmiss) in H.
      rewrite H. cbn. split; [done|]. by apply frame_topicsV.
  - intros Hm Hp Hcase.
    destruct (app_delete env req st u Hwf Hm Hp Hu) as (st2 & me & Hf & Hwf2 & Hme & ->).
    pose proof (delete_process_spec env (post_ctx req (Some me)) st2 me u Hwf2 eq_refl Hme)
      as H. cbn zeta in H. cbn [post_ctx post] in H.
    rewrite (frame_topicsV _ _ Hwf Hf) in H.
    destruct Hcase as [(t & Hin & Hid & Hau)|Hmiss].
    + rewrite Hid, (find_has_id_unique _ _ Hnd Hin) in H.
      destruct (Z.eqb_spec (Topic.author t) (User.id u)); [done|]. cbn [negb] in H.
      rewrite (some_ok _ _ _ _ H). cbn. split; [done|]. by apply frame_topicsV.
    + rewrite (find_has_id_none _ _ Hmiss) in H.
      rewrite (some_ok _ _ _ _ H). cbn. split; [done|]. by apply frame_topicsV.
Qed.

(** ** C9: [/update_process] does not validate *)

Lemma app_post_logged_in env req st u p :
  wf st -> method req = "POST" -> pathname req = p -> post_path p = true ->
  logged_in_as req st u ->
  exists st2 me, frame st st2 /\ wf st2 /\ user_at (heap st2) me = Some u
    /\ app env req st = post_outcome (post_route env req (post_ctx req (Some me)) st2).
Proof.
  intros Hwf Hm Hp Hpp Hu. apply logged_in_as_session in Hu; [|done].
  pose proof (app_post env req st Hwf Hm) as H. rewrite Hp in H. specialize (H Hpp).
  rewrite Hu in H. destruct H as (st2 & me & Hf & Hwf2 & Hme & Happ).
  destruct me as [me|]; [|done]. destruct Hme as (u' & [= <-] & Hu').
  by exists st2, me.
Qed.

(** C9. On the author's POST to [/update_process] the post takes the
    posted title and description as they are, blank or not, and the
    answer is 302 when [http] accepts the [Location] made of the form's
    [page], [limit] and [sort], and 500 when it does not, the post being
    changed and saved already; [/create_process] answers 400 to a blank
    title or description and adds nothing. The post is the first one with
    the posted id, at index [i]; the state is any well-formed one. *)
Theorem update_without_validation env req st u :
  wf st -> logged_in_as req st u -> method req = "POST" ->
  (forall i t,
     pathname req = "/update_process" ->
     findIndex (has_id (parseInt (get (body req) "id"))) (topicsV st) = Some i ->
     topicsV st !! i = Some t -> Topic.author t = User.id u ->
     exists r, snd (app env req st) = Responded r
       /\ status r = (if accepted (topic_location req) then 302 else 500)
       /\ disk (fst (app env req st))
          = {| topics_json := saveData env (topics_json (disk st))
                                (topicsV (fst (app env req st)));
               users_json := users_json (disk st) |}
       /\ topicsV (fst (app env req st))
          = <[i := {| Topic.id := Topic.id t;
                      Topic.title := get (body req) "title";
                      Topic.description := get (body req) "description";
                      Topic.created_at := Topic.created_at t;
                      Topic.updated_at := now env 0;
                      Topic.author := Topic.author t |}]> (topicsV st))
  /\ (pathname req = "/create_process" ->
      isEmptyOrWhitespace (get (body req) "title") = Ok true
      \/ (isEmptyOrWhitespace (get (body req) "title") = Ok false
          /\ isEmptyOrWhitespace (get (body req) "description") = Ok true) ->
      status_of (snd (app env req st)) = Some 400
      /\ topicsV (fst (app env req st)) = topicsV st).
Proof.
  intros Hwf Hu Hm. split.
  - intros i t Hp Hi Ht Hau.
    destruct (app_post_logged_in env req st u _ Hwf Hm Hp eq_refl Hu)
      as (st2 & me & Hf & Hwf2 & Hme & ->).
    rewrite (post_route_at _ _ _ _ _ Hp). cbn [String.eqb Ascii.eqb Bool.eqb].
    pose proof (update_process_spec env (post_ctx req (Some me)) st2 me u Hwf2 eq_refl Hme)
      as H. cbn zeta in H. cbn [post_ctx post] in H.
    rewrite (frame_topicsV _ _ Hwf Hf), Hi in H.
    destruct H as (t' & Ht' & H). assert (t' = t) as -> by congruence.
    rewrite Hau, Z.eqb_refl in H. cbn [negb] in H.
    destruct H as (st' & H & _ & Et & _ & _ & _ & _ & Ed).
    rewrite (some_result _ _ _ _ H). unfold accepted, topic_location, writeHead302.
    cbn zeta. cbn [post_ctx p_page p_limit p_sort] in *.
    destruct Hf as (_ & _ & _ & _ & _ & _ & Hd). rewrite Hd in Ed.
    destruct (header_ok _); cbn [post_outcome fst snd];
      (eexists; split; [reflexivity|]; split; [done|]; split; [exact Ed|exact Et]).
  - intros Hp Hblank.
    destruct (app_post_logged_in env req st u _ Hwf Hm Hp eq_refl Hu)
      as (st2 & me & Hf & Hwf2 & Hme & ->).
    rewrite (post_route_at _ _ _ _ _ Hp). cbn [String.eqb Ascii.eqb Bool.eqb].
    pose proof (create_process_spec env (post_ctx req (Some me)) st2 me u Hwf2 eq_refl Hme)
      as H. cbn [post_ctx post] in H.
    assert (blank2 (get (body req) "title") (get (body req) "description") = Ok true) as Hb.
    { unfold blank2. by destruct Hblank as [->|[-> ->]]. }
    rewrite Hb in H. rewrite (some_ok _ _ _ _ H). cbn. split; [done|].
    by apply frame_topicsV.
Qed.

(** ** C3: registration on conflict *)

Lemma existsb_username (us : list User.t) (name : val) :
  (exists s, name = VStr s) ->
  existsb (fun u0 => strict_eq (User.username u0) name) us = true
  <-> exists u0, u0 ∈ us /\ User.username u0 = name.
Proof.
  intros [s ->]. rewrite existsb_exists. split.
  - intros (u0 & Hin%list_elem_of_In & Heq). exists u0. split; [done|].
    destruct (User.username u0); try done. cbn in Heq. by apply String.eqb_eq in Heq as ->.
  - intros (u0 & Hin & Heq). exists u0. split; [by apply list_elem_of_In|].
    rewrite Heq. cbn. apply String.eqb_refl.
Qed.

Lemma not_blank_string v : isEmptyOrWhitespace v = Ok false -> exists s, v = VStr s.
Proof.
  destruct v as [|n|s|l]; cbn; try done; [|by eexists].
  by destruct (negb _ && _).
Qed.

Lemma app_register env req st :
  wf st -> method req = "POST" -> pathname req = "/register_process" ->
  match session_user req st with
  | Throw e => app env req st = (st, Crashed e)
  | Diverge => app env req st = (st, Hangs)
  | Ok ou =>
      exists st2 me, frame st st2 /\ wf st2
        /\ app env req st
           = post_outcome (some (register_process env (post_ctx req me)) st2)
  end.
Proof.
  intros Hwf Hm Hp.
  pose proof (app_post env req st Hwf Hm) as H. rewrite Hp in H. specialize (H eq_refl).
  destruct (session_user req st) as [ou|e|]; [|done|done].
  destruct H as (st2 & me & Hf & Hwf2 & _ & ->).
  exists st2, me. split; [done|]. split; [done|].
  by rewrite (post_route_at _ _ _ _ _ Hp).
Qed.

Lemma text_blank v : text v -> exists b, isEmptyOrWhitespace v = Ok b.
Proof. intros [->|[s ->]]; cbn; by eexists. Qed.

(** C3, as the code has it. For a POST to [/register_process] whose cookies
    decode and whose three fields are given at most once: a blank field
    is answered 400, also when the username is taken; with no blank field
    a username that a user already has is answered 409; both leave the
    user collection as it is. *)
Theorem register_conflict env req st :
  wf st -> method req = "POST" -> pathname req = "/register_process" ->
  (exists cookies, parseCookies req = Ok cookies) ->
  let username := get (body req) "username" in
  let password := get (body req) "password" in
  let nickname := get (body req) "nickname" in
  let blank v := isEmptyOrWhitespace v = Ok true in
  let filled v := isEmptyOrWhitespace v = Ok false in
  (text username /\ text password /\ text nickname ->
   blank username \/ blank password \/ blank nickname ->
   status_of (snd (app env req st)) = Some 400
   /\ usersV (fst (app env req st)) = usersV st)
  /\ (filled username /\ filled password /\ filled nickname ->
      (exists u0, u0 ∈ usersV st /\ User.username u0 = username) ->
      status_of (snd (app env req st)) = Some 409
      /\ usersV (fst (app env req st)) = usersV st).
Proof.
  intros Hwf Hm Hp [cookies Hc] username password nickname blank filled.
  pose proof (app_register env req st Hwf Hm Hp) as H.
  unfold session_user in H. rewrite Hc in H. cbn [mbind result_bind] in H.
  destruct H as (st2 & me & Hf & Hwf2 & ->).
  pose proof (register_process_spec env (post_ctx req me) st2 Hwf2) as H.
  cbn [post_ctx post] in H. fold username password nickname in H.
  rewrite (frame_usersV _ _ Hwf Hf) in H.
  split.
  - intros (Hu & Hpw & Hn) Hb.
    assert (blank3 username password nickname = Ok true) as Hb3.
    { unfold blank3, blank2.
      destruct (text_blank _ Hu) as [[] Eu], (text_blank _ Hpw) as [[] Epw],
        (text_blank _ Hn) as [[] En]; rewrite ?Eu, ?Epw, ?En; cbn;
        rewrite ?Eu, ?Epw, ?En; try done.
      unfold blank in Hb. destruct Hb as [|[|]]; congruence. }
    rewrite Hb3 in H. rewrite (some_ok _ _ _ _ H). cbn. split; [done|].
    by apply frame_usersV.
  - intros (Hu & Hpw & Hn) Hex. unfold filled in *.
    assert (blank3 username password nickname = Ok false) as Hb3.
    { unfold blank3, blank2. rewrite Hu. cbn. rewrite Hpw. cbn. by rewrite Hn. }
    rewrite Hb3 in H.
    apply (existsb_username _ _ (not_blank_string _ Hu)) in Hex. rewrite Hex in H.
    rewrite (some_ok _ _ _ _ H). cbn. split; [done|]. by apply frame_usersV.
Qed.

(** ** C4: pagination *)

Lemma index_bounds len i : 0 <= len -> 0 <= index len i <= len.
Proof. intros H. destruct i as [z| [] |]; cbn; [|lia..]. case_match; lia. Qed.

(** From an index at or after the end of a list, [slice] takes nothing. *)
Lemma slice_beyond {A} (l : list A) (start end_ : num) :
  index (Z.of_nat (length l)) start = Z.of_nat (length l) -> slice l start end_ = [].
Proof.
  intros H. unfold slice. cbv zeta. rewrite H.
  pose proof (index_bounds (Z.of_nat (length l)) end_ ltac:(lia)).
  replace (Z.to_nat _) with 0%nat by lia. done.
Qed.

(** The window of a page while its first index is below 2^53. *)
Lemma pagedTopics_take_drop {A} (l : list A) (page limit : Z) :
  1 <= page -> 1 <= limit -> (page - 1) * limit <= 2 ^ 53 ->
  Z.of_nat (length l) <= 2 ^ 53 ->
  pagedTopics l (Fin page) (Fin limit)
  = take (Z.to_nat limit) (drop (Z.to_nat ((page - 1) * limit)) l).
Proof.
  intros Hp Hl Hs Hlen. unfold pagedTopics. cbv zeta.
  rewrite sub_safe, mul_safe by nia.
  set (start := (page - 1) * limit) in *.
  assert (0 <= start) as Hs0 by (unfold start; nia).
  set (len := Z.of_nat (length l)) in *.
  assert (exists final, index len (Num.add (Fin start) (Fin limit)) = final
                        /\ final = Z.min (start + limit) len) as (final & Hf & Hfv).
  { eexists. split; [reflexivity|]. cbn [Num.add].
    destruct (Z.le_gt_cases (start + limit) (2 ^ 53)) as [Hle|Hgt].
    - rewrite round_safe by lia. cbn. destruct (Z.ltb_spec (start + limit) 0); lia.
    - destruct (round_ge (2 ^ 53) (start + limit) ltac:(lia) ltac:(lia)) as [->|(r & -> & Hr)].
      + cbn. lia.
      + cbn. destruct (Z.ltb_spec r 0); lia. }
  unfold slice. cbv zeta. fold len. rewrite Hf, Hfv. cbn [index].
  destruct (Z.ltb_spec start 0); [lia|].
  destruct (Z.le_gt_cases start len) as [Hle|Hgt].
  - rewrite (Z.min_l start) by done.
    destruct (Z.le_gt_cases (start + limit) len) as [Hle2|Hgt2].
    + rewrite Z.min_l by done. f_equal. lia.
    + rewrite Z.min_r by lia.
      rewrite !take_ge; [done| |]; rewrite length_drop; unfold len in *; lia.
  - rewrite (Z.min_r start) by lia. rewrite Z.min_r by lia.
    rewrite Z.sub_diag. cbn [Z.to_nat take].
    rewrite (drop_ge l (Z.to_nat start)) by (unfold len in *; lia). by rewrite take_nil.
Qed.

Lemma pages_take {A} (l : list A) (m n : nat) :
  mjoin ((fun p => take m (drop (p * m) l)) <$> seq 0 n) = take (n * m) l.
Proof.
  induction n as [|n IH]; [done|].
  rewrite seq_S, fmap_app, join_app, IH. cbn [fmap list_fmap mjoin list_join].
  rewrite app_nil_r, Nat.add_0_l.
  replace (S n * m)%nat with (n * m + m)%nat by lia.
  by rewrite take_take_drop.
Qed.

(** C4. For a list of fewer than 2^32 posts, which is what an array
    holds, and a finite limit of at least 1: the number of pages is the
    ceiling of the quotient; the windows of pages 1 to that number put one
    after the other are the sorted sequence, each post once and in order;
    and the window of any later page, the page at infinity included, is
    empty. *)
Theorem pagination_partitions {A} (sortedTopics : list A) (limit : Z) :
  Z.of_nat (length sortedTopics) < 2 ^ 32 -> 1 <= limit < Num.overflow ->
  exists totalPages,
    Num.ceil_div (Fin (Z.of_nat (length sortedTopics))) (Fin limit) = Fin totalPages
    /\ totalPages = - (- Z.of_nat (length sortedTopics) / limit)
    /\ mjoin ((fun page => pagedTopics sortedTopics (Fin page) (Fin limit))
                <$> seqZ 1 totalPages)
       = sortedTopics
    /\ forall page, Num.lt (Fin totalPages) page = true ->
         pagedTopics sortedTopics page (Fin limit) = [].
Proof.
  intros Hlen [Hl Hlo]. set (len := Z.of_nat (length sortedTopics)) in *.
  exists (- (- len / limit)).
  assert (len <= - (- len / limit) * limit) as Hge.
  { pose proof (Z.mul_div_le (- len) limit ltac:(lia)). nia. }
  assert (0 <= - (- len / limit)) as Hnn.
  { pose proof (Z.div_le_upper_bound (- len) limit 0 ltac:(lia) ltac:(lia)). lia. }
  assert (0 <= len) as Hlen0 by (unfold len; lia).
  assert ((- (- len / limit) - 1) * limit < len \/ - (- len / limit) = 0) as Hlt.
  { pose proof (Z.div_mod (- len) limit ltac:(lia)).
    pose proof (Z.mod_pos_bound (- len) limit ltac:(lia)). nia. }
  assert (- (- len / limit) <= len) as Hle by nia.
  split; [apply ceil_div_safe; lia|]. split; [done|]. split.
  - unfold seqZ. rewrite <- list_fmap_compose.
    rewrite (list_fmap_ext _ (fun p => take (Z.to_nat limit)
                                          (drop (p * Z.to_nat limit) sortedTopics))).
    + rewrite pages_take. apply take_ge. unfold len in *. nia.
    + intros i p Hi. apply lookup_seq in Hi as [-> Hi]. cbn.
      rewrite pagedTopics_take_drop; [do 2 f_equal; nia|lia|lia| |fold len; lia].
      fold len. nia.
  - intros page Hp. unfold pagedTopics. cbv zeta. apply slice_beyond. fold len.
    destruct page as [p| [] |]; try done.
    + cbn in Hp. apply Z.ltb_lt in Hp. unfold Num.sub, Num.opp. cbn [Num.add].
      change (- (1)) with (-1).
      destruct (round_ge (- (- len / limit)) (p + -1) ltac:(lia) ltac:(lia))
        as [->|(r & -> & Hr)].
      * cbn. destruct (Z.eqb_spec limit 0); [lia|].
        destruct (Z.ltb_spec limit 0); [lia|]. done.
      * cbn [Num.mul].
        destruct (round_ge len (r * limit) ltac:(lia) ltac:(nia)) as [->|(s & -> & Hs)];
          [done|]. cbn. destruct (Z.ltb_spec s 0); lia.
    + cbn. destruct (Z.eqb_spec limit 0); [lia|].
      destruct (Z.ltb_spec limit 0); [lia|]. done.
Qed.

(** ** C10: a zero page or limit *)

Lemma parseInt_or_truthy x d :
  truthy (VNum d) = true -> truthy (VNum (parseInt_or x d)) = true.
Proof. intros Hd. unfold parseInt_or. by destruct (truthy (VNum (parseInt x))) eqn:E. Qed.

Lemma truthy_number n : truthy (VNum n) = true -> n ≠ Fin 0 /\ n ≠ NaN.
Proof.
  destruct n as [z|s|]; cbn; [|done..]. intros H. split; [|done].
  intros [= ->]. done.
Qed.

(** C10. In the listing a [page] or [limit] that parses to 0 gives the
    defaults 1 and 10, as a missing or non-numeric one does; the limit is
    never 0, so the number of pages is the ceiling of a quotient, a
    finite number. The page rendered and its pager are made from these
    two numbers. *)
Theorem zero_is_default env req me st :
  let page_ := parseInt_or (get (query req) "page") (Fin 1) in
  let limit := parseInt_or (get (query req) "limit") DEFAULT_ITEMS_PER_PAGE in
  (forall x d, parseInt x = Fin 0 \/ parseInt x = NaN \/ x = VUndef ->
               parseInt_or x d = d)
  /\ page_ ≠ Fin 0 /\ limit ≠ Fin 0 /\ page_ ≠ NaN /\ limit ≠ NaN
  /\ (forall totalTopics, exists n, Num.ceil_div (Fin (Z.of_nat totalTopics)) limit = Fin n)
  /\ (forall st' r, root env req me st = (st', Ok r) ->
        exists h totalTopics,
          html r = Some h /\ h_page h = VNum page_ /\ h_limit h = VNum limit
          /\ templatePagination totalTopics page_ limit
               (or_else (get (query req) "sort") (VStr "latest"))
             = Ok (l_pager (h_list h))).
Proof.
  intros page_ limit.
  destruct (truthy_number page_ (parseInt_or_truthy _ (Fin 1) eq_refl)) as [Hp0 HpN].
  destruct (truthy_number limit (parseInt_or_truthy _ DEFAULT_ITEMS_PER_PAGE eq_refl))
    as [Hl0 HlN].
  split; [|split; [|split; [|split; [|split; [|split]]]]]; try done.
  - intros x d [H|[H| ->]]; unfold parseInt_or; [by rewrite H|by rewrite H|done].
  - intros total. destruct limit as [y| |]; [|by eexists|done].
    unfold Num.ceil_div. destruct (Z.eqb_spec y 0) as [->|]; [done|].
    repeat case_match; by eexists.
  - intros st' r. unfold root. msimpl. fold page_ limit.
    unfold bind at 1. destruct (sortTopics _ _ _ _) as [st1 [sorted|e|]]; [|done|done].
    msimpl. destruct (templatePagination _ _ _ _) as [pager| |] eqn:Hpg; msimpl; [|done|done].
    destruct (truthy _); msimpl; [|intros [= <- <-]; by eexists _, _].
    destruct (find _ _); msimpl; [|intros [= <- <-]; by eexists _, _].
    destruct (topic_of _ _); msimpl; [|done|done].
    destruct (marked_parse _ _); msimpl; [|done|done].
    intros [= <- <-]; by eexists _, _.
Qed.

(** ** C8: the sort orders *)

Section sort_by.
Context {A : Type} (f : A -> A -> Z).

Lemma insert_by_perm x l : insert_by f x l ≡ₚ x :: l.
Proof.
  induction l as [|y l IH]; simpl; [done|].
  destruct (f x y <=? 0); [done|]. rewrite IH. apply Permutation_swap.
Qed.

Lemma sort_by_perm l : sort_by f l ≡ₚ l.
Proof.
  induction l as [|x l IH]; simpl; [done|]. by rewrite insert_by_perm, IH.
Qed.

Lemma insertM_pure (cmp : A -> A -> result Z) x l :
  (forall y, y ∈ l -> cmp x y = Ok (f x y)) ->
  insertM cmp x l = Ok (insert_by f x l).
Proof.
  induction l as [|y l IH]; intros H; simpl; [done|].
  rewrite (H y) by left. cbn. destruct (f x y <=? 0); [done|].
  rewrite IH; [done|]. intros z Hz. apply H. by right.
Qed.

Lemma sortM_pure (cmp : A -> A -> result Z) l :
  (forall x y, x ∈ l -> y ∈ l -> cmp x y = Ok (f x y)) ->
  sortM cmp l = Ok (sort_by f l).
Proof.
  induction l as [|x l IH]; intros H; simpl; [done|].
  rewrite IH by (intros; apply H; by right). cbn.
  apply insertM_pure. intros y Hy. apply H; [by left|].
  right. by rewrite <- (sort_by_perm l).
Qed.

(** The comparator decides a total preorder [R]. *)
Context (R : relation A) (HR : forall a b, f a b <= 0 <-> R a b).
Context `{!Transitive R} (Htotal : forall a b, R a b \/ R b a).

Lemma insert_by_sorted x l :
  StronglySorted R l -> StronglySorted R (insert_by f x l).
Proof.
  induction 1 as [|y l Hs IH Hy]; simpl; [repeat constructor|].
  destruct (Z.leb_spec (f x y) 0) as [Hle|Hgt].
  - apply HR in Hle. constructor; [by constructor|].
    constructor; [done|]. eapply Forall_impl; [exact Hy|].
    intros z Hz. by etrans.
  - constructor; [done|].
    assert (R y x) as Hyx.
    { destruct (Htotal x y) as [H|H]; [apply HR in H; lia|done]. }
    rewrite insert_by_perm. by constructor.
Qed.

Lemma sort_by_sorted l : StronglySorted R (sort_by f l).
Proof. induction l; simpl; [constructor|]. by apply insert_by_sorted. Qed.
End sort_by.

Lemma StronglySorted_weaken {A} (R1 R2 : relation A) l :
  (forall a b, R1 a b -> R2 a b) -> StronglySorted R1 l -> StronglySorted R2 l.
Proof.
  intros HR. induction 1 as [|x l Hs IH Hx]; constructor; [done|].
  eapply Forall_impl; [exact Hx|]. auto.
Qed.

Lemma StronglySorted_strict {A} (R : relation A) (k : A -> Z) l :
  StronglySorted R l -> NoDup (k <$> l) ->
  StronglySorted (fun a b => R a b /\ k a ≠ k b) l.
Proof.
  induction 1 as [|x l Hs IH Hx]; [constructor|].
  rewrite fmap_cons, NoDup_cons. intros [Hni Hnd].
  constructor; [by apply IH|].
  rewrite Forall_forall in Hx |- *. intros y Hy. split; [by apply Hx|].
  intros E. apply Hni. rewrite E. by apply list_elem_of_fmap_2.
Qed.

(** With distinct keys, the descending sort is the ascending one read
    backwards. *)
Lemma sort_desc_reverse_asc {A} (k : A -> Z) l :
  NoDup (k <$> l) ->
  sort_by (fun a b => k b - k a) l = reverse (sort_by (fun a b => k a - k b) l).
Proof.
  intros Hnd.
  set (desc := sort_by (fun a b => k b - k a) l).
  set (asc := sort_by (fun a b => k a - k b) l).
  assert (desc ≡ₚ l) as Pd by apply sort_by_perm.
  assert (asc ≡ₚ l) as Pa by apply sort_by_perm.
  assert (StronglySorted (fun a b => k b < k a) desc) as Sd.
  { eapply StronglySorted_weaken.
    2:{ apply (StronglySorted_strict (fun a b => k b <= k a) k).
        - apply sort_by_sorted; [intros; lia|intros ???; lia|intros; lia].
        - by rewrite Pd. }
    cbn. intros; lia. }
  assert (StronglySorted (fun a b => k a < k b) asc) as Sa.
  { eapply StronglySorted_weaken.
    2:{ apply (StronglySorted_strict (fun a b => k a <= k b) k).
        - apply sort_by_sorted; [intros; lia|intros ???; lia|intros; lia].
        - by rewrite Pa. }
    cbn. intros; lia. }
  apply (StronglySorted_unique_strong (fun a b => k b < k a)).
  - intros; lia.
  - done.
  - apply Sorted_StronglySorted; [intros ???; lia|].
    apply (Sorted_reverse (fun a b => k a < k b)).
    by apply StronglySorted_Sorted.
  - by rewrite reverse_Permutation, Pd, Pa.
Qed.

Lemma by_latest_created h a b :
  is_Some (topic_at h a) -> is_Some (topic_at h b) ->
  by_latest h a b = Ok (created h b - created h a).
Proof. intros [ta Ha] [tb Hb]. unfold by_latest, created, topic_of. by rewrite Ha, Hb. Qed.

Lemma by_oldest_created h a b :
  is_Some (topic_at h a) -> is_Some (topic_at h b) ->
  by_oldest h a b = Ok (created h a - created h b).
Proof. intros [ta Ha] [tb Hb]. unfold by_oldest, created, topic_of. by rewrite Ha, Hb. Qed.

Lemma comparator_default env h key :
  key ≠ VStr "latest" -> key ≠ VStr "oldest" -> key ≠ VStr "title_asc" ->
  comparator env h key = by_latest h.
Proof.
  intros H1 H2 H3. unfold comparator.
  destruct key as [|n|s|l]; try done. cbn.
  destruct (String.eqb_spec s "latest"); [done|].
  destruct (String.eqb_spec s "oldest"); [congruence|].
  destruct (String.eqb_spec s "title_asc"); [congruence|]. done.
Qed.

(** C8. For posts with pairwise distinct creation times, the array that
    [sortTopics] returns for ['latest'] is the one it returns for
    ['oldest'] read backwards; a key that is none of the three sorts as
    ['latest'] does; and the result is a new array: the heap gains that
    one cell, and the array passed in is as it was. *)
Theorem sort_latest_reverses_oldest env st topicArray ts posts :
  heap st !! topicArray = Some (Arr ts) ->
  Forall2 (fun l t => topic_at (heap st) l = Some t) ts posts ->
  NoDup (Topic.created_at <$> posts) ->
  exists sorted latest oldest,
    sortTopics env topicArray (VStr "latest") st
    = (set_heap (<[sorted := Arr latest]> (heap st)) st, Ok sorted)
    /\ sortTopics env topicArray (VStr "oldest") st
       = (set_heap (<[sorted := Arr oldest]> (heap st)) st, Ok sorted)
    /\ latest = reverse oldest
    /\ latest ≡ₚ ts
    /\ (forall key, key ≠ VStr "latest" -> key ≠ VStr "oldest" ->
                    key ≠ VStr "title_asc" ->
                    sortTopics env topicArray key st
                    = sortTopics env topicArray (VStr "latest") st)
    /\ heap st !! sorted = None /\ sorted ≠ topicArray
    /\ <[sorted := Arr latest]> (heap st) !! topicArray = Some (Arr ts).
Proof.
  intros Ha Hall Hnd.
  assert (arr (heap st) topicArray = ts) as Harr by (unfold arr; by rewrite Ha).
  assert (forall l, l ∈ ts -> is_Some (topic_at (heap st) l)) as Hsome.
  { intros l Hl. apply list_elem_of_lookup in Hl as [i Hi].
    destruct (Forall2_lookup_l _ _ _ _ _ Hall Hi) as (t & _ & Ht). by exists t. }
  assert (created (heap st) <$> ts = Topic.created_at <$> posts) as Hk.
  { clear Hnd Hsome Harr Ha. induction Hall as [|l t ts posts Hl _ IH]; [done|].
    cbn. unfold created at 1. rewrite Hl. cbn. by rewrite IH. }
  set (k := created (heap st)).
  exists (fresh (dom (heap st))), (sort_by (fun a b => k b - k a) ts),
    (sort_by (fun a b => k a - k b) ts).
  pose proof (fresh_free (heap st)) as Hfree.
  assert (sortM (by_latest (heap st)) ts = Ok (sort_by (fun a b => k b - k a) ts)) as Hl.
  { apply sortM_pure. intros x y Hx Hy. apply by_latest_created; auto. }
  assert (sortM (by_oldest (heap st)) ts = Ok (sort_by (fun a b => k a - k b) ts)) as Ho.
  { apply sortM_pure. intros x y Hx Hy. apply by_oldest_created; auto. }
  assert (fresh (dom (heap st)) ≠ topicArray) as Hne by congruence.
  split; [|split; [|split; [|split; [|split; [|split; [done|split]]]]]].
  - pose proof (sortTopics_spec env topicArray (VStr "latest") st) as H.
    cbn zeta in H. rewrite Harr in H. unfold comparator in H. cbn in H. by rewrite Hl in H.
  - pose proof (sortTopics_spec env topicArray (VStr "oldest") st) as H.
    cbn zeta in H. rewrite Harr in H. unfold comparator in H. cbn in H. by rewrite Ho in H.
  - apply sort_desc_reverse_asc. unfold k. by rewrite Hk.
  - apply sort_by_perm.
  - intros key H1 H2 H3.
    pose proof (sortTopics_spec env topicArray key st) as Hk'.
    pose proof (sortTopics_spec env topicArray (VStr "latest") st) as Hl'.
    cbn zeta in Hk', Hl'. rewrite (comparator_default _ _ _ H1 H2 H3) in Hk'.
    change (comparator env (heap st) (VStr "latest")) with (by_latest (heap st)) in Hl'.
    rewrite Harr, Hl in Hk', Hl'. by rewrite Hk', Hl'.
  - done.
  - by rewrite lookup_insert_ne.
Qed.

(** ** C5: the auth resolver *)

(** X9. With cookies that decode, the resolver answers "no user" or a
    reference to a new object: a copy of a stored user without the
    password. Whatever is written to the copy afterwards, the stored
    users are as they were. It answers "no user" when there is no
    [sessionId] cookie, when the session table does not have the token,
    and when no user has the id the token maps to. *)
Lemma getLoggedInUser_copy req st cookies :
  wf st -> parseCookies req = Ok cookies ->
  exists st' r,
    getLoggedInUser req st = (st', Ok r)
    /\ match r with
       | None => st' = st
       | Some l =>
           exists u sessionId,
             cookies !! "sessionId" = Some sessionId
             /\ sessions st !! sessionId = Some (User.id u)
             /\ u ∈ usersV st
             /\ heap st !! l = None
             /\ heap st' = <[l := UserObj (strip_password u)]> (heap st)
             /\ User.password (strip_password u) = None
             /\ forall c, usersV (set_heap (<[l := c]> (heap st')) st') = usersV st
       end
    /\ (cookies !! "sessionId" = None -> r = None)
    /\ (forall sessionId, cookies !! "sessionId" = Some sessionId ->
          sessions st !! sessionId = None -> r = None)
    /\ (forall sessionId userId, cookies !! "sessionId" = Some sessionId ->
          sessions st !! sessionId = Some userId ->
          (forall u, u ∈ usersV st -> User.id u ≠ userId) -> r = None).
Proof.
  intros Hwf Hc.
  destruct (getLoggedInUser_cases req st Hwf) as (st1 & r & Hg & Hf & Hwf1 & Hr).
  unfold session_user in Hr. rewrite Hc in Hr. cbn [mbind result_bind] in Hr.
  destruct r as [r|e|]; [|by destruct Hr|by destruct Hr].
  exists st1, r. split; [done|].
  assert (forall uid u, find (fun u => User.id u =? uid) (usersV st) = Some u ->
            u ∈ usersV st /\ User.id u = uid) as Hfind.
  { intros uid u H. apply find_some in H as [Hin Heq].
    split; [by apply list_elem_of_In|]. by apply Z.eqb_eq. }
  assert (forall uid, (forall u, u ∈ usersV st -> User.id u ≠ uid) ->
            find (fun u => User.id u =? uid) (usersV st) = None) as Hnone.
  { intros uid H. destruct (find _ _) as [u|] eqn:E; [|done].
    destruct (Hfind _ _ E) as [Hin Heq]. by destruct (H _ Hin). }
  split; [|split; [|split]].
  - destruct r as [l|]; [|by destruct Hr].
    destruct Hr as (u' & Hs & Hu & Hfree & ->).
    destruct (cookies !! "sessionId") as [sid|]; [|done].
    destruct (negb (String.eqb sid EmptyString)); [|done].
    destruct (sessions st !! sid) as [uid|] eqn:Hsid; [|done].
    destruct (negb (uid =? 0)); [|done].
    destruct (find _ _) as [u|] eqn:Hfu; [|done].
    destruct (Hfind _ _ Hfu) as [Hin <-]. injection Hs as <-.
    exists u, sid. repeat (split; [done|]).
    intros c. cbn. rewrite insert_insert_eq.
    destruct (wf_users _ Hwf) as (ul & Hul & Harr & _ & Hall).
    unfold usersV at 1. cbn.
    assert (l ≠ users st) as Hne by congruence.
    rewrite arr_insert_ne by done. rewrite Harr.
    apply omap_Forall2. eapply Forall2_impl; [exact Hall|].
    intros l' u' Hl'. cbn in Hl'. rewrite user_at_insert_ne; [done|].
    apply user_at_Some in Hl'. congruence.
  - intros Hn. rewrite Hn in Hr. destruct r as [l|]; [|done].
    by destruct Hr as (? & ? & _).
  - intros sid Hs Hn. rewrite Hs, Hn in Hr. destruct r as [l|]; [|done].
    destruct Hr as (? & Hr & _). by repeat case_match.
  - intros sid uid Hs Hu Hno. rewrite Hs, Hu, (Hnone _ Hno) in Hr.
    destruct r as [l|]; [|done]. destruct Hr as (? & Hr & _).
    by repeat case_match.
Qed.

(** ** C6: usernames *)

(** X12. What the handler does keep: user names that are pairwise distinct
    stay so, whatever the request; a new user has a name no user had. *)
Lemma usernames_stay_unique env req st :
  wf st -> NoDup (User.username <$> usersV st) ->
  NoDup (User.username <$> usersV (fst (app env req st))).
Proof.
  intros Hwf Hnd. destruct (app_effect env req st Hwf) as [_ He].
  destruct He as [_ Eu _ _|t _ _ _ Eu _|i t t' _ _ _ _ _ _ Eu _|n _ _ Eu _|u Eu _ _ Hb Hex _ _];
    try (by rewrite Eu).
  rewrite Eu, fmap_app. apply NoDup_app. split; [done|]. split; [|apply NoDup_singleton].
  intros name Hin ->%list_elem_of_singleton.
  apply list_elem_of_fmap in Hin as (u0 & Heq & Hin).
  assert (existsb (fun u0 => strict_eq (User.username u0) (User.username u)) (usersV st)
          = true) as Hex'; [|congruence].
  apply existsb_username; [by apply not_blank_string|]. by exists u0.
Qed.

(** ** C7: paths that are no route *)

(** X17. What the listener does do: neither a served path nor a POST is
    answered 404, if the cookies decode. *)
Lemma not_found_unless_post env req st cookies :
  wf st -> post_path (pathname req) = true -> method req ≠ "POST" ->
  parseCookies req = Ok cookies ->
  exists r h, snd (app env req st) = Responded r /\ status r = 404
    /\ html r = Some h /\ h_body h = Body404.
Proof.
  intros Hwf Hp Hm Hc. rewrite app_not_found; [|done|by apply String.eqb_neq].
  destruct (getLoggedInUser_cases req st Hwf) as (st1 & r & -> & _ & _ & Hr).
  unfold session_user in Hr. rewrite Hc in Hr. cbn [mbind result_bind] in Hr.
  destruct r as [me|e|]; [|by destruct Hr|by destruct Hr]. cbn. by eexists _, _.
Qed.

(** ** The fixtures *)

Lemma wf_st0 : wf st0.
Proof. apply startup_spec. Qed.

Lemma wf_st_alice : wf st_alice.
Proof. apply app_effect, wf_st0. Qed.

Lemma alice_logged_in req :
  cookie req = alice_cookie -> logged_in_as req st_alice (strip_password alice).
Proof.
  intros Hc. apply logged_in_as_session; [apply wf_st_alice|].
  unfold session_user, parseCookies. rewrite Hc. vm_compute. reflexivity.
Qed.

Lemma post_ids_monotonic_witness :
  exists t, topicsV (fst (app env0 req_create st_alice)) = topicsV st_alice ++ [t]
            /\ Topic.id t = nextId st_alice
            /\ nextId (fst (app env0 req_create st_alice)) = nextId st_alice + 1
            /\ forall t0, t0 ∈ topicsV st0 -> Topic.id t0 < Topic.id t.
Proof.
  eexists. split; [vm_compute; reflexivity|].
  refine (proj1 (proj2 (proj2 (proj2 (post_ids_monotonic env0 disk0 st0 st_alice _ _ _ _))))
            env0 req_create _ _).
  - apply reaches_refl.
  - apply (reaches_step st0 env0 req_login st0), reaches_refl.
  - vm_compute. reflexivity.
  - vm_compute. reflexivity.
  - vm_compute. reflexivity.
Defined.

(** C1 as stated fails across a restart: post 3 is created and deleted,
    the process starts again from its files with a counter that has gone
    down from 4 to 3, and the next post gets the id 3 a second time. *)
Lemma restart_reissues_id :
  let s1 := fst (app env0 req_create st_alice) in
  let s2 := fst (app env0 req_delete_3 s1) in
  let s3 := fst (app env0 req_login (startup env0 (disk s2))) in
  let s4 := fst (app env0 req_create s3) in
  (Topic.id <$> topicsV s1 = [1; 2; 3] /\ nextId s1 = 4)
  /\ (Topic.id <$> topicsV s2 = [1; 2] /\ nextId s2 = 4)
  /\ nextId (startup env0 (disk s2)) = 3
  /\ status_of (snd (app env0 req_create s3)) = Some 302
  /\ Topic.id <$> topicsV s4 = [1; 2; 3].
Proof. vm_compute. repeat split; reflexivity. Qed.

Lemma non_author_forbidden_witness :
  (status_of (snd (app env0 req_update_other st_alice)) = Some 403
   /\ topicsV (fst (app env0 req_update_other st_alice)) = topicsV st_alice)
  /\ (status_of (snd (app env0 req_delete_other st_alice)) = Some 403
      /\ topicsV (fst (app env0 req_delete_other st_alice)) = topicsV st_alice).
Proof.
  assert (NoDup (Topic.id <$> topicsV st_alice)) as Hnd.
  { apply (bool_decide_unpack _). vm_compute. exact I. }
  split.
  - apply (proj1 (non_author_forbidden env0 req_update_other st_alice (strip_password alice)
             wf_st_alice Hnd (alice_logged_in req_update_other eq_refl))); [reflexivity|].
    left. exists howdy. split; [|split].
    + vm_compute. apply list_elem_of_In. right. left. reflexivity.
    + vm_compute. reflexivity.
    + vm_compute. discriminate.
  - apply (proj2 (non_author_forbidden env0 req_delete_other st_alice (strip_password alice)
             wf_st_alice Hnd (alice_logged_in req_delete_other eq_refl))); [reflexivity|reflexivity|].
    left. exists howdy. split; [|split].
    + vm_compute. apply list_elem_of_In. right. left. reflexivity.
    + vm_compute. reflexivity.
    + vm_compute. discriminate.
Defined.

Lemma update_without_validation_witness :
  (exists r, snd (app env0 req_update_blank st_alice) = Responded r /\ status r = 302
     /\ topicsV (fst (app env0 req_update_blank st_alice))
        = [ {| Topic.id := 1; Topic.title := VStr EmptyString; Topic.description := VStr "   ";
               Topic.created_at := 10; Topic.updated_at := 1000; Topic.author := 1 |};
            howdy ])
  /\ (status_of (snd (app env0 req_create_blank st_alice)) = Some 400
      /\ topicsV (fst (app env0 req_create_blank st_alice)) = topicsV st_alice).
Proof.
  split.
  - destruct (proj1 (update_without_validation env0 req_update_blank st_alice
                       (strip_password alice) wf_st_alice
                       (alice_logged_in req_update_blank eq_refl) eq_refl) 0%nat hello)
      as (r & Hr & Hs & _ & Ht).
    + reflexivity.
    + vm_compute. reflexivity.
    + vm_compute. reflexivity.
    + reflexivity.
    + exists r. split; [exact Hr|]. split; [exact Hs|exact Ht].
  - apply (proj2 (update_without_validation env0 req_create_blank st_alice
                    (strip_password alice) wf_st_alice
                    (alice_logged_in req_create_blank eq_refl) eq_refl)).
    + reflexivity.
    + right. split; vm_compute; reflexivity.
Defined.

(** C9 as stated fails: the author's update is stored, and the answer is
    500, not 302, when the form carries a [page] that [http] does not
    take into a header, here a line feed. *)
Lemma update_linefeed_is_500 :
  method req_update_linefeed = "POST"
  /\ pathname req_update_linefeed = "/update_process"
  /\ session_user req_update_linefeed st_alice = Ok (Some (strip_password alice))
  /\ (Topic.id <$> topicsV st_alice = [1; 2] /\ Topic.author hello = User.id alice)
  /\ status_of (snd (app env0 req_update_linefeed st_alice)) = Some 500
  /\ Topic.title <$> topicsV (fst (app env0 req_update_linefeed st_alice))
     = [VStr "New"; VStr "Howdy"]
  /\ topics_json (disk (fst (app env0 req_update_linefeed st_alice)))
     = Content (topicsV (fst (app env0 req_update_linefeed st_alice))).
Proof. vm_compute. repeat split; reflexivity. Qed.

(** C3 as stated fails: the username is taken, the password is empty, and
    the answer is 400, not 409. *)
Lemma register_taken_blank_is_400 :
  method req_register_taken_blank = "POST"
  /\ pathname req_register_taken_blank = "/register_process"
  /\ (exists u0, u0 ∈ usersV st0
                 /\ User.username u0 = get (body req_register_taken_blank) "username")
  /\ status_of (snd (app env0 req_register_taken_blank st0)) = Some 400
  /\ status_of (snd (app env0 req_register_taken_blank st0)) ≠ Some 409.
Proof.
  split; [reflexivity|]. split; [reflexivity|]. split.
  - exists alice. split; [|vm_compute; reflexivity].
    vm_compute. apply list_elem_of_In. left. reflexivity.
  - split; [vm_compute; reflexivity|vm_compute; discriminate].
Qed.

Lemma register_conflict_witness :
  (status_of (snd (app env0 req_register_taken_blank st0)) = Some 400
   /\ usersV (fst (app env0 req_register_taken_blank st0)) = usersV st0)
  /\ (status_of (snd (app env0 req_register_taken st0)) = Some 409
      /\ usersV (fst (app env0 req_register_taken st0)) = usersV st0).
Proof.
  split.
  - apply (proj1 (register_conflict env0 req_register_taken_blank st0 wf_st0
                    eq_refl eq_refl (ex_intro _ ∅ eq_refl))).
    + repeat split; right; eexists; vm_compute; reflexivity.
    + right. left. vm_compute. reflexivity.
  - apply (proj2 (register_conflict env0 req_register_taken st0 wf_st0
                    eq_refl eq_refl (ex_intro _ ∅ eq_refl))).
    + repeat split; vm_compute; reflexivity.
    + exists alice. split; [|vm_compute; reflexivity].
      vm_compute. apply list_elem_of_In. left. reflexivity.
Defined.

Lemma pagination_partitions_witness :
  exists totalPages,
    Num.ceil_div (Fin 7) (Fin 3) = Fin totalPages
    /\ totalPages = 3
    /\ mjoin ((fun page => pagedTopics [1; 2; 3; 4; 5; 6; 7] (Fin page) (Fin 3))
                <$> seqZ 1 totalPages)
       = [1; 2; 3; 4; 5; 6; 7]
    /\ forall page, Num.lt (Fin totalPages) page = true ->
         pagedTopics [1; 2; 3; 4; 5; 6; 7] page (Fin 3) = [].
Proof.
  apply (pagination_partitions [1; 2; 3; 4; 5; 6; 7] 3); [reflexivity|].
  split; [lia|vm_compute; reflexivity].
Defined.

Example pages_ex :
  Num.ceil_div (Fin 7) (Fin 3) = Fin 3
  /\ (fun page => pagedTopics [1; 2; 3; 4; 5; 6; 7] (Fin page) (Fin 3)) <$> [1; 2; 3; 4]
     = [[1; 2; 3]; [4; 5; 6]; [7]; []]
  /\ Num.ceil_div (Fin 7) (Fin (10 ^ 300)) = Fin 1
  /\ Num.ceil_div (Fin 7) (Fin (-3)) = Fin (-2)
  /\ Num.ceil_div (Fin (-9007199254740992)) (Fin 5) = Fin (-1801439850948198).
Proof. vm_compute. repeat split; reflexivity. Qed.

(** With an infinite limit every window is empty. *)
Lemma pagedTopics_infinite {A} (l : list A) page : pagedTopics l page (Inf false) = [].
Proof.
  unfold pagedTopics, slice. cbv zeta.
  destruct (Num.sub page (Fin 1)) as [x| [] |]; cbn [Num.mul].
  - destruct (x =? 0); [by cbn|]. destruct (x <? 0); cbn [xorb Num.add Bool.eqb index].
    + by cbn.
    + by rewrite Z.sub_diag.
  - by cbn.
  - cbn [xorb Num.add Bool.eqb index]. by rewrite Z.sub_diag.
  - by cbn.
Qed.

(** C4 as stated fails: a limit of 309 digits is at least 1 and parses to
    infinity; the number of pages is then 0 and no page shows a post. *)
Lemma infinite_limit_shows_nothing :
  let limit := parseInt_or (get (query req_huge_limit) "limit") DEFAULT_ITEMS_PER_PAGE in
  limit = Inf false
  /\ Num.le (Fin 1) limit = true
  /\ topicsV st0 = [hello; howdy]
  /\ Num.ceil_div (Fin (Z.of_nat (length (topicsV st0)))) limit = Fin 0
  /\ forall page, pagedTopics (topicsV st0) page limit = [].
Proof.
  assert (parseInt_or (get (query req_huge_limit) "limit") DEFAULT_ITEMS_PER_PAGE
          = Inf false) as -> by (vm_compute; reflexivity).
  split; [done|]. split; [done|]. split; [vm_compute; reflexivity|]. split; [done|].
  intros page. apply pagedTopics_infinite.
Qed.

Lemma sort_latest_reverses_oldest_witness :
  exists sorted latest oldest,
    sortTopics env0 (topics st0) (VStr "latest") st0
    = (set_heap (<[sorted := Arr latest]> (heap st0)) st0, Ok sorted)
    /\ sortTopics env0 (topics st0) (VStr "oldest") st0
       = (set_heap (<[sorted := Arr oldest]> (heap st0)) st0, Ok sorted)
    /\ latest = reverse oldest
    /\ latest ≡ₚ arr (heap st0) (topics st0)
    /\ (forall key, key ≠ VStr "latest" -> key ≠ VStr "oldest" ->
                    key ≠ VStr "title_asc" ->
                    sortTopics env0 (topics st0) key st0
                    = sortTopics env0 (topics st0) (VStr "latest") st0)
    /\ heap st0 !! sorted = None /\ sorted ≠ topics st0
    /\ <[sorted := Arr latest]> (heap st0) !! topics st0
       = Some (Arr (arr (heap st0) (topics st0))).
Proof.
  destruct (wf_topics st0 wf_st0) as (tl & Ht & Harr & _ & Hall).
  rewrite Harr.
  apply (sort_latest_reverses_oldest env0 st0 (topics st0) tl (topicsV st0) Ht Hall).
  apply (bool_decide_unpack _). vm_compute. exact I.
Defined.

Example sort_ex :
  let view key :=
    let '(st, r) := sortTopics env0 (topics st0) key st0 in
    match r with
    | Ok sorted => Topic.id <$> omap (topic_at (heap st)) (arr (heap st) sorted)
    | Throw _ => []
    | Diverge => []
    end in
  view (VStr "latest") = [2; 1] /\ view (VStr "oldest") = [1; 2]
  /\ view (VStr "nonsense") = [2; 1] /\ view (VArr ["latest"; "oldest"]) = [2; 1]
  /\ Topic.id <$> topicsV st0 = [1; 2].
Proof. vm_compute. repeat split; reflexivity. Qed.

Lemma zero_is_default_witness :
  parseInt (get (query req_zero) "page") = Fin 0
  /\ parseInt_or (get (query req_zero) "page") (Fin 1) = Fin 1
  /\ parseInt_or (get (query req_zero) "limit") DEFAULT_ITEMS_PER_PAGE
     = DEFAULT_ITEMS_PER_PAGE.
Proof.
  split; [reflexivity|].
  split; apply (proj1 (zero_is_default env0 req_zero None st0)); left; reflexivity.
Defined.

(** ** C5, C6, C7 on the inputs where the code goes its own way *)

(** C5. A [%] that starts no escape makes the resolver throw: it returns
    neither "no user" nor a user, and the listener, which calls it
    outside any [try], ends with the exception uncaught. *)
Theorem malformed_cookie_throws :
  getLoggedInUser req_bad_cookie st0 = (st0, Throw "URIError")
  /\ app env0 req_bad_cookie st0 = (st0, Crashed "URIError").
Proof. split; reflexivity. Qed.

(** C6. The handler takes a username of two characters, one of them no
    letter or digit: only the form of [/register] has the pattern. *)
Theorem register_accepts_any_name :
  status_of (snd (app env0 req_register_short st0)) = Some 302
  /\ User.username <$> usersV (fst (app env0 req_register_short st0))
     = [VStr "alice1"; VStr "bob22"; VStr "a!"].
Proof. vm_compute. split; reflexivity. Qed.

(** C7. A POST to a path that is no route gets no response at all: the
    POST branch has no final [else]. *)
Theorem unmatched_post_hangs :
  post_path (pathname req_post_nowhere) = true
  /\ snd (app env0 req_post_nowhere st0) = NoResponse.
Proof. split; reflexivity. Qed.

(** * Further properties *)

(** ** The two files *)

Lemma saved_refl env st : saved env st st.
Proof. by left. Qed.

Lemma saved_frame env st st' : wf st -> frame st st' -> saved env st st'.
Proof.
  intros Hwf Hf. left. split; [apply Hf|].
  split; [by apply frame_topicsV|by apply frame_usersV].
Qed.

Lemma saved_after_frame env st st1 st' :
  wf st -> frame st st1 -> saved env st1 st' -> saved env st st'.
Proof.
  intros Hwf Hf H.
  pose proof (frame_topicsV _ _ Hwf Hf) as Ht.
  pose proof (frame_usersV _ _ Hwf Hf) as Hu.
  destruct Hf as (_ & _ & _ & _ & _ & _ & Hd).
  unfold saved in *. rewrite Hd, Ht, Hu in H. done.
Qed.

Lemma post_route_saved env req c st :
  wf st ->
  (forall me, postLoggedInUser c = Some me -> exists u, user_at (heap st) me = Some u) ->
  saved env st (fst (post_route env req c st)).
Proof.
  intros Hwf Hme. unfold post_route.
  destruct (String.eqb _ "/create_process").
  { rewrite some_state. destruct (postLoggedInUser c) as [me|] eqn:E.
    - destruct (Hme _ eq_refl) as [u Hu].
      pose proof (create_process_spec env c st me u Hwf E Hu) as H.
      destruct (blank2 _ _) as [[]| |]; try (rewrite H; apply saved_refl).
      destruct H as (st' & -> & _ & _ & ? & _ & _ & _ & ?). right. left. done.
    - unfold create_process, require_login. rewrite E. msimpl. apply saved_refl. }
  destruct (String.eqb _ "/update_process").
  { rewrite some_state. destruct (postLoggedInUser c) as [me|] eqn:E.
    - destruct (Hme _ eq_refl) as [u Hu].
      pose proof (update_process_spec env c st me u Hwf E Hu) as H. cbn zeta in H.
      destruct (findIndex _ _); [|rewrite H; apply saved_refl].
      destruct H as (t & Ht & H).
      destruct (negb _); [rewrite H; apply saved_refl|].
      destruct H as (st' & -> & _ & _ & ? & _ & _ & _ & ?). right. left. done.
    - unfold update_process, require_login. rewrite E. msimpl. apply saved_refl. }
  destruct (String.eqb _ "/delete_process").
  { rewrite some_state. destruct (postLoggedInUser c) as [me|] eqn:E.
    - destruct (Hme _ eq_refl) as [u Hu].
      pose proof (delete_process_spec env c st me u Hwf E Hu) as H. cbn zeta in H.
      destruct (find _ _); [|rewrite H; apply saved_refl].
      destruct (negb _); [rewrite H; apply saved_refl|].
      destruct H as (st' & -> & _ & _ & ? & _ & _ & _ & ?). right. left. done.
    - unfold delete_process, require_login. rewrite E. msimpl. apply saved_refl. }
  destruct (String.eqb _ "/register_process").
  { rewrite some_state.
    pose proof (register_process_spec env c st Hwf) as H.
    destruct (blank3 _ _ _) as [[]| |] eqn:Hb; try (rewrite H; apply saved_refl).
    destruct (existsb _ _) eqn:Hex; [rewrite H; apply saved_refl|].
    destruct H as (st' & -> & _ & _ & ? & _ & _ & _ & ?). right. right. done. }
  destruct (String.eqb _ "/login_process").
  { rewrite some_state.
    pose proof (login_process_spec env c st Hwf) as H.
    destruct (find _ _); rewrite H; cbn [fst]; [|apply saved_refl].
    left. done. }
  apply saved_refl.
Qed.

Lemma app_saved env req st : wf st -> saved env st (fst (app env req st)).
Proof.
  intros Hwf.
  assert (fst (app env req st) = fst (dispatch env req st)) as ->.
  { unfold app. by destruct (dispatch env req st) as [? [[?|]|?|]]. }
  unfold dispatch.
  destruct (getLoggedInUser_cases req st Hwf) as (st1 & r & Hg & Hf & Hwf1 & Hr).
  destruct r as [me|e|].
  2:{ rewrite (bind_throw _ _ _ _ _ Hg). cbn [fst]. by apply saved_frame. }
  2:{ rewrite (bind_diverge _ _ _ _ Hg). cbn [fst]. by apply saved_frame. }
  rewrite (bind_ok _ _ _ _ _ Hg).
  destruct (String.eqb _ "/").
  { rewrite some_state. pose proof (root_frame env req me st1) as Hf2.
    apply saved_frame; [done|]. by eapply frame_trans. }
  destruct (String.eqb _ "/create").
  { rewrite some_state, create_state. by apply saved_frame. }
  destruct (String.eqb _ "/update").
  { rewrite some_state, update_state. by apply saved_frame. }
  destruct (String.eqb _ "/login").
  { rewrite some_state, login_state. by apply saved_frame. }
  destruct (String.eqb _ "/register").
  { rewrite some_state, register_state. by apply saved_frame. }
  destruct (String.eqb _ "/logout_process").
  { rewrite some_state. destruct (logout_state req st1) as [ss ->].
    eapply saved_after_frame; [done|done|]. by left. }
  destruct (String.eqb _ "POST").
  { unfold post_process. rewrite catch_state.
    destruct (getLoggedInUser_cases req st1 Hwf1) as (st2 & r & Hg2 & Hf2 & Hwf2 & Hr2).
    destruct r as [me2|e|].
    - rewrite (bind_ok _ _ _ _ _ Hg2).
      eapply saved_after_frame; [done|by eapply frame_trans|].
      apply post_route_saved; [done|].
      intros l. cbn. intros ->. destruct Hr2 as (u & _ & ? & _). by exists u.
    - rewrite (bind_throw _ _ _ _ _ Hg2). cbn [fst].
      apply saved_frame; [done|]. by eapply frame_trans.
    - rewrite (bind_diverge _ _ _ _ Hg2). cbn [fst].
      apply saved_frame; [done|]. by eapply frame_trans. }
  rewrite some_state, not_found_state. by apply saved_frame.
Qed.

(** X1. With a file system that takes the writes, a request keeps each
    file equal to the collection in memory. *)
Theorem files_mirror_memory env req st :
  wf st -> writeFileSync env = Written ->
  (topics_json (disk st) = Content (topicsV st) ->
   topics_json (disk (fst (app env req st))) = Content (topicsV (fst (app env req st))))
  /\ (users_json (disk st) = Content (usersV st) ->
      users_json (disk (fst (app env req st))) = Content (usersV (fst (app env req st)))).
Proof.
  intros Hwf Hw. pose proof (app_saved env req st Hwf) as H.
  unfold saved, saveData in H. rewrite Hw in H.
  destruct H as [(-> & -> & ->)|[(-> & ->)|(-> & ->)]]; cbn; done.
Qed.

Lemma files_mirror_memory_witness :
  topics_json (disk (fst (app env0 req_create st_alice)))
  = Content (topicsV (fst (app env0 req_create st_alice)))
  /\ users_json (disk (fst (app env0 req_register st0)))
     = Content (usersV (fst (app env0 req_register st0))).
Proof.
  split.
  - apply (proj1 (files_mirror_memory env0 req_create st_alice wf_st_alice eq_refl)).
    vm_compute. reflexivity.
  - apply (proj2 (files_mirror_memory env0 req_register st0 wf_st0 eq_refl)).
    vm_compute. reflexivity.
Defined.

(** X2. A write that fails is logged and nothing else. Whatever the
    request: when the file cannot be opened no file changes, and when the
    write is cut short each file is as it was or unreadable. For a
    [/create_process] of a logged-in user with a title and a description
    that are not blank, the answer and the posts in memory are those of a
    write that succeeds, so the failure reaches neither; after a restart
    the post is gone with a file that could not be opened, and with a
    write cut short the posts are replaced by the initial one. *)
Theorem failed_write_keeps_files env req st :
  wf st ->
  let st' := fst (app env req st) in
  (writeFileSync env = NotOpened -> disk st' = disk st)
  /\ (writeFileSync env = Cut ->
      (topics_json (disk st') = topics_json (disk st)
       \/ topics_json (disk st') = Unreadable)
      /\ (users_json (disk st') = users_json (disk st)
          \/ users_json (disk st') = Unreadable))
  /\ forall u,
       logged_in_as req st u -> method req = "POST" ->
       pathname req = "/create_process" ->
       isEmptyOrWhitespace (get (body req) "title") = Ok false ->
       isEmptyOrWhitespace (get (body req) "description") = Ok false ->
       snd (app env req st) = snd (app (with_write Written env) req st)
       /\ topicsV st' = topicsV (fst (app (with_write Written env) req st))
       /\ topicsV st' ≠ topicsV st
       /\ (writeFileSync env = NotOpened ->
           topics_json (disk st) = Content (topicsV st) ->
           forall env', topicsV (startup env' (disk st')) = topicsV st)
       /\ (writeFileSync env = Cut ->
           forall env', topicsV (startup env' (disk st')) = initialTopics env').
Proof.
  intros Hwf st'. subst st'. pose proof (app_saved env req st Hwf) as Hsaved.
  assert (writeFileSync env = NotOpened -> disk (fst (app env req st)) = disk st) as Hkept.
  { intros Hw. unfold saved, saveData in Hsaved. rewrite Hw in Hsaved.
    destruct Hsaved as [(-> & _)|[(-> & _)|(-> & _)]]; by destruct (disk st). }
  split; [done|]. split.
  { intros Hw. unfold saved, saveData in Hsaved. rewrite Hw in Hsaved.
    destruct Hsaved as [(-> & _)|[(-> & _)|(-> & _)]]; cbn; auto. }
  intros u Hu Hm Hp Hbt Hbd.
  apply logged_in_as_session in Hu; [|done].
  pose proof (app_post_any req st Hwf Hm) as H. rewrite Hp in H. specialize (H eq_refl).
  rewrite Hu in H. destruct H as (st2 & me & Hf & Hwf2 & Hme & Happ).
  destruct me as [me|]; [|done]. destruct Hme as (u' & [= <-] & Hme).
  assert (forall e, exists s,
            app e req st
            = (s, Responded
                    (if accepted (list_location req)
                     then redirect (list_location req) None
                     else page 500 (templateHTML (VStr "500 Error")
                                      {| l_pager := None; l_items := [];
                                         l_page := VNum (Fin 1);
                                         l_limit := VNum DEFAULT_ITEMS_PER_PAGE;
                                         l_sort := VStr "latest" |}
                                      Body500 None (VStr "latest")
                                      (VNum DEFAULT_ITEMS_PER_PAGE) (VNum (Fin 1)) None)))
            /\ topicsV s = topicsV st2 ++ [newTopic e (post_ctx req (Some me)) st2 u]
            /\ disk s = {| topics_json := saveData e (topics_json (disk st2)) (topicsV s);
                           users_json := users_json (disk st2) |}) as Hrun.
  { intros e. rewrite (Happ e), (post_route_at _ _ _ _ _ Hp).
    cbn [String.eqb Ascii.eqb Bool.eqb].
    pose proof (create_process_spec e (post_ctx req (Some me)) st2 me u Hwf2 eq_refl Hme)
      as H. cbn [post_ctx post] in H. unfold blank2 in H.
    rewrite Hbt in H. cbn [mbind result_bind] in H. rewrite Hbd in H.
    destruct H as (s & H & _ & Et & _ & _ & _ & _ & Ed).
    rewrite (some_result _ _ _ _ H). exists s. split; [|by split].
    unfold writeHead302, accepted, list_location. cbn [post_ctx p_page p_limit p_sort].
    by destruct (header_ok _). }
  destruct (Hrun env) as (s & Es & Et & Ed).
  destruct (Hrun (with_write Written env)) as (s' & Es' & Et' & _).
  rewrite Es, Es'. cbn [fst snd]. rewrite Et, Et'.
  pose proof (frame_topicsV _ _ Hwf Hf) as Ht2.
  split; [done|]. split; [done|]. split; [|split].
  - rewrite Ht2. intros E. apply (f_equal length) in E.
    rewrite length_app in E. cbn in E. lia.
  - intros Hw Hc env'. rewrite Es in Hkept. cbn [fst] in Hkept. rewrite (Hkept Hw).
    destruct (startup_spec env' (disk st)) as (_ & -> & _).
    unfold loaded_topics. by rewrite Hc.
  - intros Hw env'. destruct (startup_spec env' (disk s)) as (_ & -> & _).
    unfold loaded_topics. rewrite Ed. unfold saveData. rewrite Hw. done.
Qed.

Lemma failed_write_keeps_files_witness :
  let st' := fst (app env_read_only req_create st_alice) in
  disk st' = disk st_alice
  /\ snd (app env_read_only req_create st_alice) = snd (app env0 req_create st_alice)
  /\ topicsV st' ≠ topicsV st_alice
  /\ topicsV (startup env0 (disk st')) = topicsV st_alice.
Proof.
  intros st'.
  destruct (failed_write_keeps_files env_read_only req_create st_alice wf_st_alice)
    as (Hd & _ & Hcreate).
  split; [exact (Hd eq_refl)|].
  destruct (Hcreate (strip_password alice) (alice_logged_in req_create eq_refl) eq_refl
              eq_refl eq_refl eq_refl) as (Hr & _ & Hne & Hre & _).
  split; [exact Hr|]. split; [exact Hne|]. apply (Hre eq_refl). vm_compute. reflexivity.
Defined.

Lemma startup_disk env d :
  disk (startup env d)
  = {| topics_json := fst (loadData env (topics_json d) (initialTopics env));
       users_json := fst (loadData env (users_json d) []) |}.
Proof.
  unfold startup.
  destruct (loadData env (topics_json d) _) as [tf ts].
  destruct (loadData env (users_json d) _) as [uf us].
  destruct (alloc_all (TopicObj <$> ts) ∅) as [h1 tl].
  destruct (alloc_all (UserObj <$> us) _) as [h3 ul]. done.
Qed.

(** X3. Start-up reads each file on its own. A file that parses gives the
    collection and is left alone. A missing file gives the default (one
    notice post; no user) and is created with it if the write succeeds;
    if the write fails the file is still missing, or is there without
    JSON in it. A file that cannot be read or parsed gives the default as
    well and is not overwritten. No session survives. *)
Theorem startup_loads env d :
  let s := startup env d in
  match topics_json d with
  | Content data => topicsV s = data /\ topics_json (disk s) = Content data
  | Missing =>
      topicsV s = initialTopics env
      /\ topics_json (disk s)
         = match writeFileSync env with
           | Written => Content (initialTopics env)
           | NotOpened => Missing
           | Cut => Unreadable
           end
  | Unreadable => topicsV s = initialTopics env /\ topics_json (disk s) = Unreadable
  end
  /\ match users_json d with
     | Content data => usersV s = data /\ users_json (disk s) = Content data
     | Missing =>
         usersV s = []
         /\ users_json (disk s)
            = match writeFileSync env with
              | Written => Content []
              | NotOpened => Missing
              | Cut => Unreadable
              end
     | Unreadable => usersV s = [] /\ users_json (disk s) = Unreadable
     end
  /\ sessions s = ∅ /\ wf s.
Proof.
  intros s. destruct (startup_spec env d) as (Hwf & Et & Eu & _ & _ & Es).
  subst s. rewrite Et, Eu, startup_disk. unfold loaded_topics, loaded_users, loadData, saveData.
  split; [by destruct (topics_json d)|]. split; [by destruct (users_json d)|done].
Qed.

(** X4. A restart from files that hold the two collections gives back the
    same posts and users and leaves the files alone. The sessions are
    gone, and the post counter is computed anew from the posts that are
    left: with ids below 2^53 in absolute value it is above all of them,
    and not above the old counter. *)
Theorem restart_reloads_files env st :
  topics_json (disk st) = Content (topicsV st) ->
  users_json (disk st) = Content (usersV st) ->
  (forall t, t ∈ topicsV st -> Z.abs (Topic.id t) < 2 ^ 53) ->
  let s := startup env (disk st) in
  topicsV s = topicsV st /\ usersV s = usersV st /\ disk s = disk st
  /\ sessions s = ∅
  /\ (forall t, t ∈ topicsV st -> Topic.id t < nextId s)
  /\ (topicsV st ≠ [] -> (forall t, t ∈ topicsV st -> Topic.id t < nextId st) ->
      nextId s <= nextId st).
Proof.
  intros Ht Hu Hsafe s.
  destruct (startup_spec env (disk st)) as (_ & Et & Eu & En & _ & Es).
  unfold loaded_topics, loaded_users in *. rewrite Ht in Et, En. rewrite Hu in Eu.
  cbn in Et, Eu, En. subst s.
  split; [done|]. split; [done|]. split.
  { rewrite startup_disk, Ht, Hu. cbn. rewrite <- Ht, <- Hu. by destruct (disk st). }
  split; [done|]. rewrite En.
  assert (topicsV st ≠ [] ->
          exists t, t ∈ topicsV st
                    /\ next_id (Topic.id <$> topicsV st) = Topic.id t + 1
                    /\ forall t', t' ∈ topicsV st -> Topic.id t' <= Topic.id t) as Hmax.
  { intros Hne. destruct (topicsV st) as [|t0 r]; [done|]. cbn [fmap list_fmap next_id].
    pose proof (foldr_max_in (Topic.id t0) (Topic.id <$> r)) as Hin.
    change (Topic.id t0 :: (Topic.id <$> r)) with (Topic.id <$> t0 :: r) in Hin.
    apply list_elem_of_fmap in Hin as (t & Heq & Hin).
    exists t. split; [done|]. rewrite Heq. split.
    - apply nearest_safe. specialize (Hsafe _ Hin). lia.
    - intros t' Hin'. rewrite <- Heq. apply foldr_max_ge.
      change (Topic.id t0 :: (Topic.id <$> r)) with (Topic.id <$> t0 :: r).
      by apply list_elem_of_fmap_2. }
  split.
  - intros t Hin. destruct Hmax as (tm & _ & -> & Hle); [by intros E; rewrite E in Hin; apply elem_of_nil in Hin|].
    specialize (Hle _ Hin). lia.
  - intros Hne Hb. destruct (Hmax Hne) as (tm & Hin & -> & _). apply Hb in Hin. lia.
Qed.

Lemma restart_reloads_files_witness :
  let st := fst (app env0 req_delete_own (fst (app env0 req_create st_alice))) in
  topicsV (startup env0 (disk st)) = topicsV st
  /\ nextId st = 4 /\ nextId (startup env0 (disk st)) = 4.
Proof.
  intros st.
  destruct (restart_reloads_files env0 st) as (Ht & _).
  - vm_compute. reflexivity.
  - vm_compute. reflexivity.
  - intros t H. vm_compute in H. apply list_elem_of_In in H.
    destruct H as [<-|[<-|[]]]; vm_compute; reflexivity.
  - split; [exact Ht|]. split; vm_compute; reflexivity.
Defined.

(** ** Sessions *)

Lemma strict_eq_true a b : strict_eq a b = true -> a = b.
Proof.
  destruct a as [|x|x|x], b as [|y|y|y]; cbn; try done.
  - destruct x as [x|s|], y as [y|t|]; cbn; try done.
    + by intros ->%Z.eqb_eq.
    + by intros ->%Bool.eqb_prop.
  - by intros ->%String.eqb_eq.
Qed.

(** [find] on a list whose keys are pairwise distinct. *)
Lemma find_unique {A K} (key : A -> K) (p : A -> bool) (l : list A) x :
  NoDup (key <$> l) -> x ∈ l -> p x = true ->
  (forall y, p y = true -> y ∈ l -> key y = key x) ->
  find p l = Some x.
Proof.
  induction l as [|y l IH]; intros Hnd Hin Hp Hk; [by apply elem_of_nil in Hin|].
  cbn. rewrite fmap_cons in Hnd. apply NoDup_cons in Hnd as [Hy Hnd].
  destruct (p y) eqn:Ey.
  - apply elem_of_cons in Hin as [<-|Hin]; [done|]. exfalso. apply Hy.
    rewrite (Hk y Ey (list_elem_of_here _ _)). by apply list_elem_of_fmap_2.
  - apply elem_of_cons in Hin as [->|Hin]; [congruence|].
    apply IH; [done..|]. intros z Hz Hzl. apply Hk; [done|by right].
Qed.

Lemma find_none {A} (p : A -> bool) (l : list A) :
  (forall y, y ∈ l -> p y = false) -> find p l = None.
Proof.
  induction l as [|y l IH]; intros H; [done|]. cbn.
  rewrite (H y (list_elem_of_here _ _)). apply IH. intros z Hz. apply H. by right.
Qed.

(** The POST of a login form, once the cookies are parsed. *)
Lemma app_login env req st cookies :
  wf st -> method req = "POST" -> pathname req = "/login_process" ->
  parseCookies req = Ok cookies ->
  exists st2 me, frame st st2 /\ wf st2
    /\ app env req st = post_outcome (some (login_process env (post_ctx req me)) st2).
Proof.
  intros Hwf Hm Hp Hc.
  pose proof (app_post env req st Hwf Hm) as H. rewrite Hp in H. specialize (H eq_refl).
  unfold session_user in H. rewrite Hc in H. cbn [mbind result_bind] in H.
  destruct H as (st2 & me & Hf & Hwf2 & _ & ->).
  exists st2, me. split; [done|]. split; [done|].
  by rewrite (post_route_at _ _ _ _ _ Hp).
Qed.

(** X5. A login with the name and the password of a user answers 302 to
    [/] with a session cookie and maps the token to the user's id;
    nothing else changes. A later request that sends the token back is
    that of the user, whose record the handlers see without password. *)
Theorem login_opens_session env req st cookies u name pw :
  wf st -> method req = "POST" -> pathname req = "/login_process" ->
  parseCookies req = Ok cookies ->
  get (body req) "username" = VStr name -> get (body req) "password" = VStr pw ->
  NoDup (User.username <$> usersV st) ->
  u ∈ usersV st -> User.username u = VStr name -> User.password u = Some (VStr pw) ->
  let st' := fst (app env req st) in
  snd (app env req st)
  = Responded (redirect ToRoot (Some (SessionCookie (randomBytes env))))
  /\ sessions st' = <[randomBytes env := User.id u]> (sessions st)
  /\ topicsV st' = topicsV st /\ usersV st' = usersV st
  /\ nextId st' = nextId st /\ nextUserId st' = nextUserId st /\ disk st' = disk st
  /\ forall req' cookies',
       parseCookies req' = Ok cookies' ->
       cookies' !! "sessionId" = Some (randomBytes env) ->
       randomBytes env ≠ EmptyString -> User.id u ≠ 0 ->
       NoDup (User.id <$> usersV st) ->
       logged_in_as req' st' (strip_password u).
Proof.
  intros Hwf Hm Hp Hc Hn Hpw Hnd Hin Hun Hup st'.
  destruct (app_login env req st cookies Hwf Hm Hp Hc) as (st2 & me & Hf & Hwf2 & Happ).
  pose proof (login_process_spec env (post_ctx req me) st2 Hwf2) as H.
  cbn [post_ctx post] in H. rewrite (frame_usersV _ _ Hwf Hf), Hn, Hpw in H.
  rewrite (find_unique User.username _ _ u Hnd Hin) in H.
  2:{ rewrite Hun, Hup. cbn. by rewrite !String.eqb_refl. }
  2:{ intros y Hy _. apply andb_true_iff in Hy as [Hy _].
      apply strict_eq_true in Hy. congruence. }
  rewrite (some_ok _ _ _ _ H) in Happ. cbn [post_outcome] in Happ.
  subst st'. rewrite Happ. cbn [fst snd].
  pose proof (frame_topicsV _ _ Hwf Hf) as Ht.
  pose proof (frame_usersV _ _ Hwf Hf) as Hu.
  destruct Hf as (_ & _ & _ & En & Enu & Es & Ed).
  split; [done|]. split; [cbn; by rewrite Es|].
  split; [done|]. split; [done|]. split; [done|]. split; [done|]. split; [done|].
  intros req' cookies' Hc' Hsid Htok Hid Hndi.
  apply logged_in_as_session; [by apply wf_set_sessions|].
  unfold session_user. rewrite Hc'. cbn [mbind result_bind]. rewrite Hsid.
  destruct (String.eqb_spec (randomBytes env) EmptyString) as [|_]; [done|].
  cbn [negb sessions set_sessions]. rewrite lookup_insert_eq.
  destruct (Z.eqb_spec (User.id u) 0) as [|_]; [done|]. cbn [negb].
  change (usersV (set_sessions _ st2)) with (usersV st2). rewrite Hu.
  rewrite (find_unique User.id _ _ u Hndi Hin); [done|apply Z.eqb_refl|].
  intros y Hy _. by apply Z.eqb_eq.
Qed.

Lemma login_opens_session_witness :
  snd (app env0 req_login st0)
  = Responded (redirect ToRoot (Some (SessionCookie "00112233445566778899aabbccddeeff")))
  /\ logged_in_as req_create (fst (app env0 req_login st0)) (strip_password alice).
Proof.
  assert (alice ∈ usersV st0) as Hin.
  { vm_compute. apply list_elem_of_In. left. reflexivity. }
  assert (NoDup (User.username <$> usersV st0)) as Hnd.
  { apply (bool_decide_unpack _). vm_compute. exact I. }
  assert (NoDup (User.id <$> usersV st0)) as Hndi.
  { apply (bool_decide_unpack _). vm_compute. exact I. }
  destruct (login_opens_session env0 req_login st0 ∅ alice "alice1" "pw"
              wf_st0 eq_refl eq_refl eq_refl eq_refl eq_refl Hnd Hin eq_refl eq_refl)
    as (Hr & _ & _ & _ & _ & _ & _ & Hlater).
  split; [exact Hr|].
  apply (Hlater req_create {["sessionId" := "00112233445566778899aabbccddeeff"]}).
  - vm_compute. reflexivity.
  - vm_compute. reflexivity.
  - discriminate.
  - discriminate.
  - exact Hndi.
Defined.

(** X6. A login that no user matches, by name or by password, answers 401
    without a cookie and opens no session. *)
Theorem login_rejected env req st cookies :
  wf st -> method req = "POST" -> pathname req = "/login_process" ->
  parseCookies req = Ok cookies ->
  (forall u, u ∈ usersV st ->
     User.username u ≠ get (body req) "username"
     \/ default VUndef (User.password u) ≠ get (body req) "password") ->
  let st' := fst (app env req st) in
  (exists r h, snd (app env req st) = Responded r /\ status r = 401
     /\ set_cookie r = None /\ html r = Some h /\ h_body h = Body401)
  /\ sessions st' = sessions st
  /\ topicsV st' = topicsV st /\ usersV st' = usersV st /\ disk st' = disk st.
Proof.
  intros Hwf Hm Hp Hc Hno st'.
  destruct (app_login env req st cookies Hwf Hm Hp Hc) as (st2 & me & Hf & Hwf2 & Happ).
  pose proof (login_process_spec env (post_ctx req me) st2 Hwf2) as H.
  cbn [post_ctx post] in H. rewrite (frame_usersV _ _ Hwf Hf) in H.
  rewrite find_none in H.
  2:{ intros y Hy. apply andb_false_iff.
      destruct (Hno y Hy) as [Hne|Hne]; [left|right];
        (destruct (strict_eq _ _) eqn:E; [|done]); by apply strict_eq_true in E. }
  rewrite (some_ok _ _ _ _ H) in Happ. cbn [post_outcome] in Happ.
  subst st'. rewrite Happ. cbn [fst snd].
  split; [by eexists _, _|].
  split; [apply Hf|]. split; [by apply frame_topicsV|].
  split; [by apply frame_usersV|apply Hf].
Qed.

Lemma login_rejected_witness :
  (exists r h, snd (app env0 req_login_wrong st0) = Responded r /\ status r = 401
     /\ set_cookie r = None /\ html r = Some h /\ h_body h = Body401)
  /\ sessions (fst (app env0 req_login_wrong st0)) = sessions st0.
Proof.
  destruct (login_rejected env0 req_login_wrong st0 ∅ wf_st0 eq_refl eq_refl eq_refl)
    as (Hr & Hs & _).
  - intros u Hu. vm_compute in Hu. apply list_elem_of_In in Hu.
    destruct Hu as [<-|[<-|[]]]; [right|left]; discriminate.
  - split; [exact Hr|exact Hs].
Defined.

(** What [/logout_process] does to the session table. *)
Lemma logout_process_spec req st cookies :
  parseCookies req = Ok cookies ->
  logout_process req st
  = (set_sessions (match cookies !! "sessionId" with
                   | Some sessionId =>
                       if negb (String.eqb sessionId EmptyString)
                       then delete sessionId (sessions st) else sessions st
                   | None => sessions st
                   end) st,
     Ok (redirect ToRoot (Some ExpiredCookie))).
Proof.
  intros Hc. unfold logout_process. rewrite Hc. msimpl.
  destruct (cookies !! "sessionId") as [sid|]; msimpl.
  - destruct (negb _); msimpl; [done|]. by destruct st.
  - by destruct st.
Qed.

Lemma app_logout env req st cookies :
  wf st -> pathname req = "/logout_process" -> parseCookies req = Ok cookies ->
  exists st1, frame st st1 /\ wf st1
    /\ app env req st
       = (set_sessions (match cookies !! "sessionId" with
                        | Some sessionId =>
                            if negb (String.eqb sessionId EmptyString)
                            then delete sessionId (sessions st) else sessions st
                        | None => sessions st
                        end) st1,
          Responded (redirect ToRoot (Some ExpiredCookie))).
Proof.
  intros Hwf Hp Hc. unfold app, dispatch.
  destruct (getLoggedInUser_cases req st Hwf) as (st1 & r & Hg & Hf & Hwf1 & Hr).
  destruct r as [me|e|].
  2:{ destruct Hr as [Hr _]. unfold session_user in Hr. by rewrite Hc in Hr. }
  2:{ destruct Hr as [Hr _]. unfold session_user in Hr. by rewrite Hc in Hr. }
  rewrite (bind_ok _ _ _ _ _ Hg). rewrite Hp. cbn [String.eqb Ascii.eqb Bool.eqb].
  rewrite (some_ok _ _ _ _ (logout_process_spec req st1 cookies Hc)).
  exists st1. split; [done|]. split; [done|].
  destruct Hf as (_ & _ & _ & _ & _ & -> & _). done.
Qed.

(** X7. [/logout_process], with any method, answers 302 to [/] with an
    expired cookie and forgets the session of the request: the cookie no
    longer resolves to a user, in this request or a later one. The other
    sessions, the posts, the users and the files stay. *)
Theorem logout_ends_session env req st cookies :
  wf st -> pathname req = "/logout_process" -> parseCookies req = Ok cookies ->
  let st' := fst (app env req st) in
  snd (app env req st) = Responded (redirect ToRoot (Some ExpiredCookie))
  /\ (forall req' cookies',
        parseCookies req' = Ok cookies' ->
        cookies' !! "sessionId" = cookies !! "sessionId" ->
        getLoggedInUser req' st' = (st', Ok None))
  /\ (forall sessionId, cookies !! "sessionId" ≠ Some sessionId ->
        sessions st' !! sessionId = sessions st !! sessionId)
  /\ topicsV st' = topicsV st /\ usersV st' = usersV st
  /\ nextId st' = nextId st /\ nextUserId st' = nextUserId st /\ disk st' = disk st.
Proof.
  intros Hwf Hp Hc st'.
  destruct (app_logout env req st cookies Hwf Hp Hc) as (st1 & Hf & Hwf1 & Happ).
  subst st'. rewrite Happ. cbn [fst snd]. set (ss := match _ with Some _ => _ | None => _ end).
  split; [done|]. split; [|split].
  - intros req' cookies' Hc' Hsid.
    pose proof (getLoggedInUser_spec req' (set_sessions ss st1)
                  (wf_set_sessions _ _ Hwf1)) as H.
    assert (session_user req' (set_sessions ss st1) = Ok None) as Hs; [|by rewrite Hs in H].
    unfold session_user. rewrite Hc'. cbn [mbind result_bind sessions set_sessions].
    rewrite Hsid. unfold ss. destruct (cookies !! "sessionId") as [sid|]; [|done].
    destruct (negb (String.eqb sid EmptyString)); [|done].
    by rewrite lookup_delete_eq.
  - intros sid Hsid. cbn [sessions set_sessions]. unfold ss.
    destruct (cookies !! "sessionId") as [sid'|]; [|done].
    destruct (negb _); [|done]. rewrite lookup_delete_ne; [done|congruence].
  - change (topicsV (set_sessions ss st1)) with (topicsV st1).
    change (usersV (set_sessions ss st1)) with (usersV st1). cbn.
    split; [by apply frame_topicsV|]. split; [by apply frame_usersV|].
    destruct Hf as (_ & _ & _ & -> & -> & _ & ->). done.
Qed.

Lemma logout_ends_session_witness :
  snd (app env0 req_logout st_alice) = Responded (redirect ToRoot (Some ExpiredCookie))
  /\ getLoggedInUser req_create (fst (app env0 req_logout st_alice))
     = (fst (app env0 req_logout st_alice), Ok None)
  /\ sessions (fst (app env0 req_logout st_alice)) = ∅.
Proof.
  destruct (logout_ends_session env0 req_logout st_alice
              {["sessionId" := "00112233445566778899aabbccddeeff"]} wf_st_alice eq_refl)
    as (Hr & Hlater & _).
  - vm_compute. reflexivity.
  - split; [exact Hr|]. split.
    + apply (Hlater req_create {["sessionId" := "00112233445566778899aabbccddeeff"]}).
      * vm_compute. reflexivity.
      * reflexivity.
    + vm_compute. reflexivity.
Defined.

Lemma post_route_sessions env req c st :
  wf st ->
  (forall me, postLoggedInUser c = Some me -> exists u, user_at (heap st) me = Some u) ->
  session_step env st (fst (post_route env req c st)).
Proof.
  intros Hwf Hme. unfold post_route.
  destruct (String.eqb _ "/create_process").
  { rewrite some_state. destruct (postLoggedInUser c) as [me|] eqn:E.
    - destruct (Hme _ eq_refl) as [u Hu].
      pose proof (create_process_spec env c st me u Hwf E Hu) as H.
      destruct (blank2 _ _) as [[]| |]; try (rewrite H; by left).
      destruct H as (st' & -> & _ & _ & _ & _ & _ & ? & _). by left.
    - unfold create_process, require_login. rewrite E. msimpl. by left. }
  destruct (String.eqb _ "/update_process").
  { rewrite some_state. destruct (postLoggedInUser c) as [me|] eqn:E.
    - destruct (Hme _ eq_refl) as [u Hu].
      pose proof (update_process_spec env c st me u Hwf E Hu) as H. cbn zeta in H.
      destruct (findIndex _ _); [|rewrite H; by left].
      destruct H as (t & Ht & H).
      destruct (negb _); [rewrite H; by left|].
      destruct H as (st' & -> & _ & _ & _ & _ & _ & ? & _). by left.
    - unfold update_process, require_login. rewrite E. msimpl. by left. }
  destruct (String.eqb _ "/delete_process").
  { rewrite some_state. destruct (postLoggedInUser c) as [me|] eqn:E.
    - destruct (Hme _ eq_refl) as [u Hu].
      pose proof (delete_process_spec env c st me u Hwf E Hu) as H. cbn zeta in H.
      destruct (find _ _); [|rewrite H; by left].
      destruct (negb _); [rewrite H; by left|].
      destruct H as (st' & -> & _ & _ & _ & _ & _ & ? & _). by left.
    - unfold delete_process, require_login. rewrite E. msimpl. by left. }
  destruct (String.eqb _ "/register_process").
  { rewrite some_state.
    pose proof (register_process_spec env c st Hwf) as H.
    destruct (blank3 _ _ _) as [[]| |] eqn:Hb; try (rewrite H; by left).
    destruct (existsb _ _) eqn:Hex; [rewrite H; by left|].
    destruct H as (st' & -> & _ & _ & _ & _ & _ & ? & _). by left. }
  destruct (String.eqb _ "/login_process").
  { rewrite some_state.
    pose proof (login_process_spec env c st Hwf) as H.
    destruct (find _ _) as [u|] eqn:Hf; rewrite H; cbn [fst]; [|by left].
    right. left. exists u. split; [|done].
    apply find_some in Hf as [Hin _]. by apply list_elem_of_In. }
  by left.
Qed.

Lemma session_step_after_frame env st st1 st' :
  wf st -> frame st st1 -> session_step env st1 st' -> session_step env st st'.
Proof.
  intros Hwf Hf H. pose proof (frame_usersV _ _ Hwf Hf) as Hu.
  destruct Hf as (_ & _ & _ & _ & _ & Hs & _).
  unfold session_step in *. by rewrite Hs, Hu in H.
Qed.

Lemma app_sessions env req st : wf st -> session_step env st (fst (app env req st)).
Proof.
  intros Hwf.
  assert (fst (app env req st) = fst (dispatch env req st)) as ->.
  { unfold app. by destruct (dispatch env req st) as [? [[?|]|?|]]. }
  unfold dispatch.
  destruct (getLoggedInUser_cases req st Hwf) as (st1 & r & Hg & Hf & Hwf1 & Hr).
  assert (forall st', frame st st' -> session_step env st st') as Hframe.
  { intros st' Hf'. left. apply Hf'. }
  destruct r as [me|e|].
  2:{ rewrite (bind_throw _ _ _ _ _ Hg). cbn [fst]. by apply Hframe. }
  2:{ rewrite (bind_diverge _ _ _ _ Hg). cbn [fst]. by apply Hframe. }
  rewrite (bind_ok _ _ _ _ _ Hg).
  destruct (String.eqb _ "/").
  { rewrite some_state. apply Hframe. eapply frame_trans; [done|apply root_frame]. }
  destruct (String.eqb _ "/create").
  { rewrite some_state, create_state. by apply Hframe. }
  destruct (String.eqb _ "/update").
  { rewrite some_state, update_state. by apply Hframe. }
  destruct (String.eqb _ "/login").
  { rewrite some_state, login_state. by apply Hframe. }
  destruct (String.eqb _ "/register").
  { rewrite some_state, register_state. by apply Hframe. }
  destruct (String.eqb _ "/logout_process").
  { rewrite some_state. eapply session_step_after_frame; [done|done|].
    destruct (parseCookies req) as [cookies|e|] eqn:Hc.
    - rewrite (logout_process_spec req st1 cookies Hc). cbn [fst sessions set_sessions].
      destruct (cookies !! "sessionId") as [sid|]; [|by left].
      destruct (negb _); [|by left]. right. right. by exists sid.
    - unfold logout_process. rewrite Hc. msimpl. by left.
    - unfold logout_process. rewrite Hc. msimpl. by left. }
  destruct (String.eqb _ "POST").
  { unfold post_process. rewrite catch_state.
    destruct (getLoggedInUser_cases req st1 Hwf1) as (st2 & r & Hg2 & Hf2 & Hwf2 & Hr2).
    destruct r as [me2|e|].
    - rewrite (bind_ok _ _ _ _ _ Hg2).
      eapply session_step_after_frame; [done|by eapply frame_trans|].
      apply post_route_sessions; [done|].
      intros l. cbn. intros ->. destruct Hr2 as (u & _ & ? & _). by exists u.
    - rewrite (bind_throw _ _ _ _ _ Hg2). cbn [fst].
      apply Hframe. by eapply frame_trans.
    - rewrite (bind_diverge _ _ _ _ Hg2). cbn [fst].
      apply Hframe. by eapply frame_trans. }
  rewrite some_state, not_found_state. by apply Hframe.
Qed.

Lemma effect_users_grow st st' : effect st st' -> usersV st `prefix_of` usersV st'.
Proof.
  intros [_ Eu _ _|t _ _ _ Eu _|i t t' _ _ _ _ _ _ Eu _|n _ _ Eu _|u Eu _ _ _ _ _ _];
    rewrite Eu; [done..|]. by apply prefix_app_r.
Qed.

(** X8. No request removes or changes a user: in every state reached
    from start-up the users loaded then are still there, in front, and
    every session maps its token to the id of a stored user. *)
Theorem sessions_point_to_users env d s :
  reaches (startup env d) s ->
  usersV (startup env d) `prefix_of` usersV s
  /\ forall sessionId userId,
       sessions s !! sessionId = Some userId ->
       exists u, u ∈ usersV s /\ User.id u = userId.
Proof.
  intros Hr. destruct (startup_spec env d) as (Hwf0 & _ & _ & _ & _ & Es).
  induction Hr as [|env' req s1 Hr [IHp IHs]].
  - split; [done|]. intros sid uid. by rewrite Es, lookup_empty.
  - pose proof (wf_reaches _ _ Hwf0 Hr) as Hwf1.
    destruct (app_effect env' req s1 Hwf1) as [_ He].
    pose proof (effect_users_grow _ _ He) as Hgrow.
    split; [by etrans|].
    assert (forall u, u ∈ usersV s1 -> u ∈ usersV (fst (app env' req s1))) as Hin.
    { intros u Hu. destruct Hgrow as [k ->]. apply elem_of_app. by left. }
    intros sid uid Hs.
    destruct (app_sessions env' req s1 Hwf1) as [E|[(u & Hu & E)|(sid' & E)]];
      rewrite E in Hs.
    + destruct (IHs _ _ Hs) as (u & Hu & <-). exists u. split; [by apply Hin|done].
    + destruct (decide (sid = randomBytes env')) as [->|Hne].
      * rewrite lookup_insert_eq in Hs. injection Hs as <-. exists u. split; [by apply Hin|done].
      * rewrite lookup_insert_ne in Hs by done.
        destruct (IHs _ _ Hs) as (u' & Hu' & <-). exists u'. split; [by apply Hin|done].
    + apply lookup_delete_Some in Hs as [_ Hs].
      destruct (IHs _ _ Hs) as (u & Hu & <-). exists u. split; [by apply Hin|done].
Qed.

Lemma sessions_point_to_users_witness :
  usersV st0 `prefix_of` usersV st_alice
  /\ exists u, u ∈ usersV st_alice /\ User.id u = 1.
Proof.
  destruct (sessions_point_to_users env0 disk0 st_alice
              (reaches_step st0 env0 req_login st0 (reaches_refl st0))) as [Hp Hs].
  split; [exact Hp|].
  apply (Hs "00112233445566778899aabbccddeeff"). vm_compute. reflexivity.
Defined.

Lemma getLoggedInUser_copy_witness :
  exists st' l u,
    getLoggedInUser req_create st_alice = (st', Ok (Some l))
    /\ u ∈ usersV st_alice
    /\ heap st' = <[l := UserObj (strip_password u)]> (heap st_alice).
Proof.
  destruct (alice_logged_in req_create eq_refl) as (st1 & l & Hg1 & _).
  destruct (getLoggedInUser_copy req_create st_alice
              {["sessionId" := "00112233445566778899aabbccddeeff"]} wf_st_alice)
    as (st' & r & Hg & Hr & _).
  - vm_compute. reflexivity.
  - rewrite Hg1 in Hg. injection Hg as <- <-.
    destruct Hr as (u & sid & _ & _ & Hin & _ & Hh & _).
    exists st1, l, u. split; [exact Hg1|]. split; [exact Hin|exact Hh].
Defined.

(** ** Registration and the ids *)

Lemma find_app_last {A} (p : A -> bool) (l : list A) x :
  (forall y, y ∈ l -> p y = false) -> p x = true -> find p (l ++ [x]) = Some x.
Proof.
  induction l as [|y l IH]; intros H Hx; cbn; [by rewrite Hx|].
  rewrite (H y (list_elem_of_here _ _)). apply IH; [|done]. intros z Hz. apply H. by right.
Qed.

Lemma strict_eq_refl_string v : (exists s, v = VStr s) -> strict_eq v v = true.
Proof. intros [s ->]. cbn. apply String.eqb_refl. Qed.

(** X10. A registration with three filled fields and a free name answers
    302 to [/login] and appends the user, with the counter as its id and
    the password as posted, to the collection and, if the write succeeds,
    to the file; the counter goes one further as long as it is below 2^53
    in absolute value. A login with the same name and password then opens
    a session for that id. *)
Theorem register_then_login env req st cookies :
  wf st -> method req = "POST" -> pathname req = "/register_process" ->
  parseCookies req = Ok cookies ->
  isEmptyOrWhitespace (get (body req) "username") = Ok false ->
  isEmptyOrWhitespace (get (body req) "password") = Ok false ->
  isEmptyOrWhitespace (get (body req) "nickname") = Ok false ->
  (forall u0, u0 ∈ usersV st -> User.username u0 ≠ get (body req) "username") ->
  let st1 := fst (app env req st) in
  snd (app env req st) = Responded (redirect ToLogin None)
  /\ usersV st1 = usersV st ++ [ {| User.id := nextUserId st;
                                    User.username := get (body req) "username";
                                    User.password := Some (get (body req) "password");
                                    User.nickname := get (body req) "nickname" |} ]
  /\ nextUserId st1 = Num.nearest (nextUserId st + 1)
  /\ (Z.abs (nextUserId st) < 2 ^ 53 -> nextUserId st1 = nextUserId st + 1)
  /\ topicsV st1 = topicsV st /\ nextId st1 = nextId st /\ sessions st1 = sessions st
  /\ users_json (disk st1)
     = match writeFileSync env with
       | Written => Content (usersV st1)
       | NotOpened => users_json (disk st)
       | Cut => Unreadable
       end
  /\ topics_json (disk st1) = topics_json (disk st)
  /\ forall env' req' cookies',
       method req' = "POST" -> pathname req' = "/login_process" ->
       parseCookies req' = Ok cookies' ->
       get (body req') "username" = get (body req) "username" ->
       get (body req') "password" = get (body req) "password" ->
       snd (app env' req' st1)
       = Responded (redirect ToRoot (Some (SessionCookie (randomBytes env'))))
       /\ sessions (fst (app env' req' st1))
          = <[randomBytes env' := nextUserId st]> (sessions st).
Proof.
  intros Hwf Hm Hp Hc Hbu Hbp Hbn Hfree st1.
  pose proof (app_register env req st Hwf Hm Hp) as H.
  unfold session_user in H. rewrite Hc in H. cbn [mbind result_bind] in H.
  destruct H as (st2 & me & Hf & Hwf2 & Happ).
  pose proof (register_process_spec env (post_ctx req me) st2 Hwf2) as H.
  cbn [post_ctx post] in H. unfold blank3, blank2 in H.
  rewrite Hbu in H. cbn [mbind result_bind] in H. rewrite Hbp in H.
  cbn [mbind result_bind] in H. rewrite Hbn in H.
  rewrite (frame_usersV _ _ Hwf Hf) in H.
  assert (forall y, y ∈ usersV st ->
            strict_eq (User.username y) (get (body req) "username") = false) as Hno.
  { intros y Hy. destruct (strict_eq _ _) eqn:E; [|done].
    apply strict_eq_true in E. by apply Hfree in Hy. }
  assert (existsb (fun u => strict_eq (User.username u) (get (body req) "username"))
            (usersV st) = false) as Hex.
  { destruct (existsb _ _) eqn:E; [|done]. apply existsb_exists in E as (y & Hy & E).
    apply list_elem_of_In in Hy. by rewrite (Hno y Hy) in E. }
  rewrite Hex in H. destruct H as (st' & H & Hwf' & Eu & Et & Enu & En & Es & Ed).
  rewrite (some_ok _ _ _ _ H) in Happ. cbn [post_outcome] in Happ.
  subst st1. rewrite Happ. cbn [fst snd].
  pose proof (frame_topicsV _ _ Hwf Hf) as Ht2.
  destruct Hf as (_ & _ & _ & En2 & Enu2 & Es2 & Ed2).
  assert (usersV st' = usersV st ++ [ {| User.id := nextUserId st;
                                    User.username := get (body req) "username";
                                    User.password := Some (get (body req) "password");
                                    User.nickname := get (body req) "nickname" |} ]) as Eu'.
  { rewrite Eu. unfold newUser. cbn [post_ctx post]. by rewrite Enu2. }
  split; [done|]. split; [done|]. split; [congruence|].
  split; [intros Hn; rewrite Enu, Enu2; apply nearest_safe; lia|].
  split; [congruence|]. split; [congruence|]. split; [congruence|].
  split; [rewrite Ed, Ed2; cbn; unfold saveData; by destruct (writeFileSync env)|].
  split; [rewrite Ed, Ed2; done|].
  intros env' req' cookies' Hm' Hp' Hc' Hn' Hpw'.
  destruct (app_login env' req' st' cookies' Hwf' Hm' Hp' Hc')
    as (st3 & me' & Hf3 & Hwf3 & Happ').
  pose proof (login_process_spec env' (post_ctx req' me') st3 Hwf3) as H'.
  cbn [post_ctx post] in H'. rewrite (frame_usersV _ _ Hwf' Hf3), Eu', Hn', Hpw' in H'.
  rewrite (find_app_last _ _ _) in H'.
  2:{ intros y Hy. by rewrite (Hno y Hy). }
  2:{ cbn [User.username User.password default].
      rewrite !strict_eq_refl_string; [done|by eapply not_blank_string..]. }
  rewrite (some_ok _ _ _ _ H') in Happ'. cbn [post_outcome] in Happ'.
  rewrite Happ'. cbn [fst snd sessions set_sessions User.id].
  split; [done|]. destruct Hf3 as (_ & _ & _ & _ & _ & -> & _). congruence.
Qed.

Lemma register_then_login_witness :
  snd (app env0 req_register st0) = Responded (redirect ToLogin None)
  /\ User.id <$> usersV (fst (app env0 req_register st0)) = [1; 2; 3]
  /\ sessions (fst (app env0 req_login_carol (fst (app env0 req_register st0))))
     = {["00112233445566778899aabbccddeeff" := 3]}.
Proof.
  destruct (register_then_login env0 req_register st0 ∅ wf_st0 eq_refl eq_refl eq_refl
              eq_refl eq_refl eq_refl)
    as (Hr & Hu & _ & _ & _ & _ & _ & _ & _ & Hlogin).
  - intros u Hu. vm_compute in Hu. apply list_elem_of_In in Hu.
    destruct Hu as [<-|[<-|[]]]; discriminate.
  - split; [exact Hr|]. split; [rewrite Hu; vm_compute; reflexivity|].
    destruct (Hlogin env0 req_login_carol ∅ eq_refl eq_refl eq_refl eq_refl eq_refl)
      as [_ Hs].
    rewrite Hs. vm_compute. reflexivity.
Defined.

Lemma effect_user_counter_below st st' :
  effect st st' -> nextUserId st' < 2 ^ 53 -> nextUserId st < 2 ^ 53.
Proof.
  intros He Hhi.
  destruct He as [_ _ _ En|t _ _ _ _ En|i t t' _ _ _ _ _ _ _ En|n _ _ _ En|u _ _ En _ _ _ _];
    try lia.
  destruct (Z.lt_ge_cases (nextUserId st) (2 ^ 53)); [done|].
  pose proof (nearest_beyond (nextUserId st + 1) ltac:(lia)). lia.
Qed.

Lemma effect_user_ids st st' :
  user_ids_below st -> effect st st' ->
  - 2 ^ 53 < nextUserId st -> nextUserId st' < 2 ^ 53 ->
  user_ids_below st' /\ nextUserId st <= nextUserId st'
  /\ (NoDup (User.id <$> usersV st) -> NoDup (User.id <$> usersV st')).
Proof.
  intros Hb [Et Eu En Enu|t Et _ _ Eu Enu|i t t' _ _ _ _ _ _ Eu Enu|n _ _ Eu Enu
             |u Eu Eid Enu _ _ _ _] Hlo Hhi; unfold user_ids_below.
  1-4: rewrite Eu, Enu; split; [done|]; split; [lia|done].
  rewrite Enu in Hhi. rewrite nearest_count in Enu by done.
  rewrite Eu, Enu. split; [|split; [lia|]].
  - intros u' [Hu'| ->%list_elem_of_singleton]%elem_of_app; [|lia].
    apply Hb in Hu'. lia.
  - intros Hnd. rewrite fmap_app. apply NoDup_app. split; [done|]. split.
    + intros x Hx ->%list_elem_of_singleton. apply list_elem_of_fmap in Hx as (u' & E & Hu').
      apply Hb in Hu'. lia.
    + apply NoDup_singleton.
Qed.

Lemma startup_user_ids_below env d :
  Z.abs (nextUserId (startup env d)) < 2 ^ 53 -> user_ids_below (startup env d).
Proof.
  destruct (startup_spec env d) as (_ & _ & Eu & _ & En & _).
  intros Hn u Hu. rewrite Eu in Hu. rewrite En. apply next_id_above; [by rewrite <- En|].
  by apply list_elem_of_fmap_2.
Qed.

(** X11. User ids are handed out like post ids. While the counter is
    within 2^53 of zero: at start-up it is above every stored user id (1
    for no user), it never decreases, every user has an id below it, and
    distinct stored ids stay distinct. *)
Theorem user_ids_fresh env d s :
  reaches (startup env d) s ->
  - 2 ^ 53 < nextUserId (startup env d) -> nextUserId s < 2 ^ 53 ->
  (usersV (startup env d) = [] -> nextUserId (startup env d) = 1)
  /\ nextUserId (startup env d) <= nextUserId s
  /\ (forall u, u ∈ usersV s -> User.id u < nextUserId s)
  /\ (NoDup (User.id <$> loaded_users env d) -> NoDup (User.id <$> usersV s)).
Proof.
  intros Hr Hlo Hhi. destruct (startup_spec env d) as (Hwf0 & _ & Eu & _ & En & _).
  split; [rewrite En, <- Eu; by intros ->|].
  rewrite <- Eu. clear Eu En.
  induction Hr as [|env' req st1 Hr IH].
  - split; [lia|]. split; [apply startup_user_ids_below; lia|done].
  - pose proof (wf_reaches _ _ Hwf0 Hr) as Hwf1.
    destruct (app_effect env' req st1 Hwf1) as [_ He].
    destruct (IH (effect_user_counter_below _ _ He Hhi)) as (Hle & Hb & Hnd).
    destruct (effect_user_ids _ _ Hb He ltac:(lia) Hhi) as (Hb' & Hle' & Hnd').
    split; [lia|]. split; [done|]. intros H. by apply Hnd', Hnd.
Qed.

Lemma user_ids_fresh_witness :
  nextUserId st0 <= nextUserId (fst (app env0 req_register st0))
  /\ (forall u, u ∈ usersV (fst (app env0 req_register st0)) ->
        User.id u < nextUserId (fst (app env0 req_register st0)))
  /\ NoDup (User.id <$> usersV (fst (app env0 req_register st0))).
Proof.
  destruct (user_ids_fresh env0 disk0 (fst (app env0 req_register st0))
              (reaches_step st0 env0 req_register st0 (reaches_refl st0)))
    as (_ & Hle & Hb & Hnd).
  - vm_compute. reflexivity.
  - vm_compute. reflexivity.
  - split; [exact Hle|]. split; [exact Hb|]. apply Hnd.
    apply (bool_decide_unpack _). vm_compute. exact I.
Defined.

Lemma usernames_stay_unique_witness :
  NoDup (User.username <$> usersV (fst (app env0 req_register st0))).
Proof.
  apply (usernames_stay_unique env0 req_register st0 wf_st0).
  apply (bool_decide_unpack _). vm_compute. exact I.
Defined.

Lemma reaches_unique_ids_witness :
  NoDup (Topic.id <$> topicsV (fst (app env0 req_create st_alice))).
Proof.
  apply (reaches_unique_ids env0 disk0).
  - apply (bool_decide_unpack _). vm_compute. exact I.
  - apply reaches_step. apply (reaches_step st0 env0 req_login st0), reaches_refl.
  - vm_compute. reflexivity.
  - vm_compute. reflexivity.
Defined.

(** ** Which requests write, and what a POST answers *)

(** A POST branch leaves the state alone, or answers 302, or throws
    because [http] refuses the [Location] of its redirect. *)
Lemma post_route_quiet env req c st :
  wf st ->
  (forall me, postLoggedInUser c = Some me -> exists u, user_at (heap st) me = Some u) ->
  fst (post_route env req c st) = st
  \/ (exists r, snd (post_route env req c st) = Ok (Some r) /\ status r = 302)
  \/ (exists e, snd (post_route env req c st) = Throw e)
     /\ (accepted (ToList (p_page c) (p_limit c) (p_sort c)) = false
         \/ accepted (ToTopic (parseInt (get (post c) "id")) (p_page c) (p_limit c)
                        (p_sort c)) = false).
Proof.
  intros Hwf Hme.
  assert (forall (m : M Response) st' to,
            m st = (st', writeHead302 to) ->
            (exists r, snd (some m st) = Ok (Some r) /\ status r = 302)
            \/ (exists e, snd (some m st) = Throw e) /\ accepted to = false) as Hw.
  { intros m st' to E. rewrite (some_result _ _ _ _ E). unfold writeHead302, accepted.
    destruct (header_ok _); [left; by eexists|right; split; [by eexists|done]]. }
  unfold post_route.
  destruct (String.eqb _ "/create_process").
  { destruct (postLoggedInUser c) as [me|] eqn:E.
    - destruct (Hme _ eq_refl) as [u Hu].
      pose proof (create_process_spec env c st me u Hwf E Hu) as H.
      destruct (blank2 _ _) as [[]| |].
      + left. by rewrite (some_ok _ _ _ _ H).
      + right. destruct H as (st' & H & _). destruct (Hw _ _ _ H) as [?|[? ?]]; eauto.
      + left. by rewrite (some_throw _ _ _ _ H).
      + left. by rewrite (some_diverge _ _ _ H).
    - left. unfold create_process, require_login. rewrite E. by msimpl. }
  destruct (String.eqb _ "/update_process").
  { destruct (postLoggedInUser c) as [me|] eqn:E.
    - destruct (Hme _ eq_refl) as [u Hu].
      pose proof (update_process_spec env c st me u Hwf E Hu) as H. cbn zeta in H.
      destruct (findIndex _ _); [|left; by rewrite (some_ok _ _ _ _ H)].
      destruct H as (t & Ht & H).
      destruct (negb _); [left; by rewrite (some_ok _ _ _ _ H)|].
      right. destruct H as (st' & H & _). destruct (Hw _ _ _ H) as [?|[? ?]]; eauto.
    - left. unfold update_process, require_login. rewrite E. by msimpl. }
  destruct (String.eqb _ "/delete_process").
  { destruct (postLoggedInUser c) as [me|] eqn:E.
    - destruct (Hme _ eq_refl) as [u Hu].
      pose proof (delete_process_spec env c st me u Hwf E Hu) as H. cbn zeta in H.
      destruct (find _ _); [|left; by rewrite (some_ok _ _ _ _ H)].
      destruct (negb _); [left; by rewrite (some_ok _ _ _ _ H)|].
      right. destruct H as (st' & H & _). destruct (Hw _ _ _ H) as [?|[? ?]]; eauto.
    - left. unfold delete_process, require_login. rewrite E. by msimpl. }
  destruct (String.eqb _ "/register_process").
  { pose proof (register_process_spec env c st Hwf) as H.
    destruct (blank3 _ _ _) as [[]| |] eqn:Hb.
    - left. by rewrite (some_ok _ _ _ _ H).
    - destruct (existsb _ _) eqn:Hex; [left; by rewrite (some_ok _ _ _ _ H)|].
      right. left. destruct H as (st' & H & _). rewrite (some_ok _ _ _ _ H). by eexists.
    - left. by rewrite (some_throw _ _ _ _ H).
    - left. by rewrite (some_diverge _ _ _ H). }
  destruct (String.eqb _ "/login_process").
  { pose proof (login_process_spec env c st Hwf) as H.
    destruct (find _ _); rewrite (some_ok _ _ _ _ H); [right; left; by eexists|by left]. }
  by left.
Qed.

(** X14. What a request that did not redirect leaves behind. When the
    request is left open, or is answered with a status other than 302,
    and, for the status 500, [http] would have taken the [Location] of
    the redirect of the write handlers (the list position of the form
    holds no character it refuses), then the posts, the users, the
    counters, the sessions and the files are what they were; the heap
    only got new objects. Nothing is said of a request that ends the
    process or is never answered. *)
Theorem only_redirects_write env req st :
  wf st ->
  match snd (app env req st) with
  | Responded r =>
      status r ≠ 302
      /\ (status r = 500 ->
          accepted (list_location req) = true /\ accepted (topic_location req) = true)
  | NoResponse => True
  | Crashed _ | Hangs => False
  end ->
  frame st (fst (app env req st))
  /\ topicsV (fst (app env req st)) = topicsV st
  /\ usersV (fst (app env req st)) = usersV st.
Proof.
  intros Hwf Hs.
  enough (frame st (fst (app env req st))) as Hf.
  { split; [done|]. split; [by apply frame_topicsV|by apply frame_usersV]. }
  revert Hs. unfold app, dispatch.
  destruct (getLoggedInUser_cases req st Hwf) as (st1 & r & Hg & Hf & Hwf1 & Hr).
  destruct r as [me|e|];
    [|by rewrite (bind_throw _ _ _ _ _ Hg)|by rewrite (bind_diverge _ _ _ _ Hg)].
  rewrite (bind_ok _ _ _ _ _ Hg).
  assert (forall m : M Response, fst (m st1) = st1 ->
            frame st (fst (let (st', r) := some m st1 in
                           match r with
                           | Ok (Some r) => (st', Responded r)
                           | Ok None => (st', NoResponse)
                           | Throw e => (st', Crashed e)
                           | Diverge => (st', Hangs)
                           end))) as Hread.
  { intros m Hm. unfold some, bind, ret.
    destruct (m st1) as [st' [r|e|]]; cbn in *; by subst. }
  destruct (String.eqb _ "/").
  { intros _. pose proof (root_frame env req me st1) as Hf2.
    unfold some, bind, ret. destruct (root env req me st1) as [st' [r|e|]]; cbn in *;
      by eapply frame_trans. }
  destruct (String.eqb _ "/create"); [intros _; apply Hread, create_state|].
  destruct (String.eqb _ "/update"); [intros _; apply Hread, update_state|].
  destruct (String.eqb _ "/login"); [intros _; apply Hread, login_state|].
  destruct (String.eqb _ "/register"); [intros _; apply Hread, register_state|].
  destruct (String.eqb _ "/logout_process").
  { destruct (parseCookies req) as [cookies|e|] eqn:Hc.
    - rewrite (some_ok _ _ _ _ (logout_process_spec req st1 cookies Hc)). cbn. by intros [? _].
    - intros _. unfold some, logout_process. rewrite Hc. by msimpl.
    - intros _. unfold some, logout_process. rewrite Hc. by msimpl. }
  destruct (String.eqb _ "POST"); [|intros _; apply Hread, not_found_state].
  unfold post_process, catch.
  destruct (getLoggedInUser_cases req st1 Hwf1) as (st2 & r & Hg2 & Hf2 & Hwf2 & Hr2).
  destruct r as [me2|e|].
  2:{ intros _. rewrite (bind_throw _ _ _ _ _ Hg2). unfold error500. msimpl. cbn.
      by eapply frame_trans. }
  2:{ intros _. rewrite (bind_diverge _ _ _ _ Hg2). cbn. by eapply frame_trans. }
  rewrite (bind_ok _ _ _ _ _ Hg2).
  destruct (post_route_quiet env req (post_ctx req me2) st2 Hwf2)
    as [Hq|[(r & Hq & H302)|[[e Hq] Hacc]]].
  { intros l. cbn. intros ->. destruct Hr2 as (u & _ & ? & _). by exists u. }
  - intros _. destruct (post_route _ _ _ _) as [st' [[r|]|e|]]; cbn in Hq; subst st';
      unfold error500; msimpl; cbn; by eapply frame_trans.
  - destruct (post_route _ _ _ _) as [st' [[r'|]|e|]]; cbn in Hq; try done.
    injection Hq as ->. cbn. by intros [? _].
  - destruct (post_route _ _ _ _) as [st' [[r'|]|e'|]]; cbn in Hq; try done.
    unfold error500. msimpl. cbn. intros [_ H]. destruct (H eq_refl) as [H1 H2].
    cbn in Hacc. unfold list_location, topic_location in H1, H2. cbn in H1, H2.
    destruct Hacc; congruence.
Qed.

Lemma only_redirects_write_witness :
  frame st_alice (fst (app env0 req_delete_other st_alice))
  /\ topicsV (fst (app env0 req_delete_other st_alice)) = topicsV st_alice
  /\ usersV (fst (app env0 req_delete_other st_alice)) = usersV st_alice.
Proof.
  apply (only_redirects_write env0 req_delete_other st_alice wf_st_alice).
  vm_compute. split; [discriminate|intros; discriminate].
Defined.

(** X15. A POST to [/create_process], [/update_process] or
    [/delete_process] without a session is answered by the 500 page (the
    handler throws 'Not logged in'), whatever the form holds, and the state
    is untouched. *)
Theorem anonymous_write_is_500 env req st :
  wf st -> method req = "POST" ->
  pathname req = "/create_process" \/ pathname req = "/update_process"
  \/ pathname req = "/delete_process" ->
  getLoggedInUser req st = (st, Ok None) ->
  app env req st = (st, Responded (page500 st)).
Proof.
  intros Hwf Hm Hp Hg. unfold app, dispatch. rewrite (bind_ok _ _ _ _ _ Hg).
  assert (post_route env req (post_ctx req None) st = (st, Throw "Not logged in")) as Hr.
  { unfold post_route.
    destruct Hp as [->|[->| ->]]; cbn [String.eqb Ascii.eqb Bool.eqb]; done. }
  assert (post_path (pathname req) = true) as Hpp by (by destruct Hp as [->|[->| ->]]).
  unfold post_path in Hpp. apply negb_true_iff in Hpp.
  repeat (apply orb_false_iff in Hpp; destruct Hpp as [Hpp ?]).
  repeat match goal with H : String.eqb _ _ = false |- _ => rewrite H; clear H end.
  rewrite Hm. cbn [String.eqb Ascii.eqb Bool.eqb].
  unfold post_process, catch. rewrite (bind_ok _ _ _ _ _ Hg), Hr. done.
Qed.

Lemma anonymous_write_is_500_witness :
  app env0 req_create_anonymous st0 = (st0, Responded (page500 st0)).
Proof.
  apply (anonymous_write_is_500 env0 req_create_anonymous st0 wf_st0 eq_refl).
  - left. reflexivity.
  - vm_compute. reflexivity.
Defined.

Lemma blank2_returns a b : blank2 a b ≠ Diverge.
Proof.
  unfold blank2, isEmptyOrWhitespace.
  destruct a as [|n|s|l]; cbn; repeat case_match; destruct b as [|m|s'|l'];
    cbn; repeat case_match; done.
Qed.

Lemma blank3_returns a b c : blank3 a b c ≠ Diverge.
Proof.
  unfold blank3. pose proof (blank2_returns a b).
  destruct (blank2 a b) as [[]| |]; cbn; [done| |done|done].
  unfold isEmptyOrWhitespace. destruct c; cbn; repeat case_match; done.
Qed.

(** X16. The status codes of the POST routes, for a request whose cookies
    decode: [/create_process] answers 302, 400 or 500; [/update_process]
    and [/delete_process] 302, 403 or 500; [/register_process] 302, 400,
    409 or 500; [/login_process] 302 or 401, never 500. Every POST is
    answered or left open; none ends in an uncaught exception. *)
Theorem post_statuses env req st cookies :
  wf st -> method req = "POST" -> post_path (pathname req) = true ->
  parseCookies req = Ok cookies ->
  let o := snd (app env req st) in
  (pathname req = "/create_process" -> answers o [302; 400; 500])
  /\ (pathname req = "/update_process" -> answers o [302; 403; 500])
  /\ (pathname req = "/delete_process" -> answers o [302; 403; 500])
  /\ (pathname req = "/register_process" -> answers o [302; 400; 409; 500])
  /\ (pathname req = "/login_process" -> answers o [302; 401])
  /\ (o = NoResponse \/ exists r, o = Responded r).
Proof.
  intros Hwf Hm Hpp Hc o. subst o.
  pose proof (app_post env req st Hwf Hm Hpp) as H.
  unfold session_user in H. rewrite Hc in H. cbn [mbind result_bind] in H.
  destruct H as (st2 & me & Hf & Hwf2 & Hme & ->).
  set (c := post_ctx req me).
  assert (forall l, me = Some l -> exists u, user_at (heap st2) l = Some u) as Hvalid.
  { intros l ->. destruct Hme as (u & _ & Hu). by exists u. }
  assert (forall (m : M Response) e st', m st2 = (st', Throw e) ->
            forall codes : list Z, 500 ∈ codes -> answers (snd (post_outcome (some m st2))) codes)
    as Hthrow.
  { intros m e st' E codes Hin. rewrite (some_throw _ _ _ _ E). cbn. by eexists. }
  assert (forall (m : M Response) r st', m st2 = (st', Ok r) ->
            forall codes : list Z, status r ∈ codes -> answers (snd (post_outcome (some m st2))) codes)
    as Hok.
  { intros m r st' E codes Hin. rewrite (some_ok _ _ _ _ E). cbn. by eexists. }
  assert (forall (m : M Response) to st', m st2 = (st', writeHead302 to) ->
            forall codes : list Z, 302 ∈ codes -> 500 ∈ codes ->
            answers (snd (post_outcome (some m st2))) codes)
    as Hto.
  { intros m to st' E codes H302 H500. unfold writeHead302 in E.
    destruct (header_ok _); [by eapply Hok|by eapply Hthrow]. }
  assert (answers (snd (post_outcome (some (create_process env c) st2))) [302; 400; 500])
    as Hcreate.
  { destruct me as [l|].
    - destruct (Hvalid l eq_refl) as [u Hu].
      pose proof (create_process_spec env c st2 l u Hwf2 eq_refl Hu) as H.
      pose proof (blank2_returns (get (post c) "title") (get (post c) "description")).
      destruct (blank2 _ _) as [[]| |]; [| | |done].
      + eapply Hok; [exact H|]. one_of.
      + destruct H as (s & H & _). eapply Hto; [exact H| |]; one_of.
      + eapply Hthrow; [exact H|]. one_of.
    - eapply (Hthrow _ "Not logged in" st2); [done|]. one_of. }
  assert (answers (snd (post_outcome (some (update_process env c) st2))) [302; 403; 500])
    as Hupdate.
  { destruct me as [l|].
    - destruct (Hvalid l eq_refl) as [u Hu].
      pose proof (update_process_spec env c st2 l u Hwf2 eq_refl Hu) as H. cbn zeta in H.
      destruct (findIndex _ _); [|eapply Hok; [exact H|]; one_of].
      destruct H as (t & _ & H).
      destruct (negb _); [eapply Hok; [exact H|]; one_of|].
      destruct H as (s & H & _). eapply Hto; [exact H| |]; one_of.
    - eapply (Hthrow _ "Not logged in" st2); [done|]. one_of. }
  assert (answers (snd (post_outcome (some (delete_process env c) st2))) [302; 403; 500])
    as Hdelete.
  { destruct me as [l|].
    - destruct (Hvalid l eq_refl) as [u Hu].
      pose proof (delete_process_spec env c st2 l u Hwf2 eq_refl Hu) as H. cbn zeta in H.
      destruct (find _ _); [|eapply Hok; [exact H|]; one_of].
      destruct (negb _); [eapply Hok; [exact H|]; one_of|].
      destruct H as (s & H & _). eapply Hto; [exact H| |]; one_of.
    - eapply (Hthrow _ "Not logged in" st2); [done|]. one_of. }
  assert (answers (snd (post_outcome (some (register_process env c) st2)))
            [302; 400; 409; 500]) as Hregister.
  { pose proof (register_process_spec env c st2 Hwf2) as H.
    pose proof (blank3_returns (get (post c) "username") (get (post c) "password")
                  (get (post c) "nickname")).
    destruct (blank3 _ _ _) as [[]| |]; [| | |done].
    - eapply Hok; [exact H|]. one_of.
    - destruct (existsb _ _); [eapply Hok; [exact H|]; one_of|].
      destruct H as (s & H & _). eapply Hok; [exact H|]. one_of.
    - eapply Hthrow; [exact H|]. one_of. }
  assert (answers (snd (post_outcome (some (login_process env c) st2))) [302; 401])
    as Hlogin.
  { pose proof (login_process_spec env c st2 Hwf2) as H.
    destruct (find _ _); (eapply Hok; [exact H|]); one_of. }
  split; [|split; [|split; [|split; [|split]]]].
  1-5: intros Hp; rewrite (post_route_at _ _ _ _ _ Hp);
       cbn [String.eqb Ascii.eqb Bool.eqb]; assumption.
  unfold post_route.
  destruct (String.eqb _ _); [right; destruct Hcreate as (r & ? & _); by exists r|].
  destruct (String.eqb _ _); [right; destruct Hupdate as (r & ? & _); by exists r|].
  destruct (String.eqb _ _); [right; destruct Hdelete as (r & ? & _); by exists r|].
  destruct (String.eqb _ _); [right; destruct Hregister as (r & ? & _); by exists r|].
  destruct (String.eqb _ _); [right; destruct Hlogin as (r & ? & _); by exists r|].
  by left.
Qed.

Lemma post_statuses_witness :
  answers (snd (app env0 req_create_blank st_alice)) [302; 400; 500]
  /\ answers (snd (app env0 req_login st0)) [302; 401].
Proof.
  split.
  - apply (post_statuses env0 req_create_blank st_alice
             {["sessionId" := "00112233445566778899aabbccddeeff"]} wf_st_alice eq_refl
             eq_refl); [vm_compute; reflexivity|reflexivity].
  - apply (post_statuses env0 req_login st0 ∅ wf_st0 eq_refl eq_refl eq_refl). reflexivity.
Defined.

Lemma not_found_unless_post_witness :
  exists r h, snd (app env0 req_get_nowhere st0) = Responded r /\ status r = 404
    /\ html r = Some h /\ h_body h = Body404.
Proof.
  apply (not_found_unless_post env0 req_get_nowhere st0 ∅ wf_st0).
  - reflexivity.
  - discriminate.
  - reflexivity.
Defined.

(** ** The forms and the handlers that write *)

(** X18. Without a session [/create] and [/update] answer 302 to [/login],
    with any method and any query; with a session [/login] answers 302 to
    [/]. Nothing is looked up or changed. *)
Theorem forms_need_login env req st :
  (getLoggedInUser req st = (st, Ok None) ->
   pathname req = "/create" \/ pathname req = "/update" ->
   app env req st = (st, Responded (redirect ToLogin None)))
  /\ (forall st1 me, getLoggedInUser req st = (st1, Ok (Some me)) ->
        pathname req = "/login" ->
        app env req st = (st1, Responded (redirect ToRoot None))).
Proof.
  split.
  - intros Hg Hp. unfold app, dispatch. rewrite (bind_ok _ _ _ _ _ Hg).
    by destruct Hp as [->| ->].
  - intros st1 me Hg Hp. unfold app, dispatch. rewrite (bind_ok _ _ _ _ _ Hg).
    by rewrite Hp.
Qed.

Lemma forms_need_login_witness :
  app env0 (request "GET" "/update" [("id", VStr "1")] None []) st0
  = (st0, Responded (redirect ToLogin None))
  /\ snd (app env0 (request "GET" "/login" [] alice_cookie []) st_alice)
     = Responded (redirect ToRoot None).
Proof.
  split.
  - apply (proj1 (forms_need_login env0 _ st0)); [vm_compute; reflexivity|].
    right. reflexivity.
  - destruct (getLoggedInUser (request "GET" "/login" [] alice_cookie []) st_alice)
      as [st1 r] eqn:Hg.
    assert (exists me, r = Ok (Some me)) as [me ->].
    { revert Hg. vm_compute. intros [= _ <-]. by eexists. }
    rewrite (proj2 (forms_need_login env0 _ st_alice) st1 me Hg eq_refl). reflexivity.
Defined.

(** X19. [/update?id=N] asked by the author of post N answers 200 with the
    edit form filled with the stored post, and carries the list position
    of the query (page 1, 10 per page, 'latest' when absent); nothing
    changes. *)
Theorem author_gets_edit_form env req st u t :
  wf st -> logged_in_as req st u -> pathname req = "/update" ->
  NoDup (Topic.id <$> topicsV st) -> t ∈ topicsV st ->
  parseInt (get (query req) "id") = Fin (Topic.id t) ->
  Topic.author t = User.id u ->
  (exists r h, snd (app env req st) = Responded r /\ status r = 200
     /\ html r = Some h
     /\ h_body h = BodyUpdateForm t (or_else (get (query req) "page") (VNum (Fin 1)))
                     (or_else (get (query req) "limit") (VNum (Fin 10)))
                     (or_else (get (query req) "sort") (VStr "latest"))
     /\ h_user h = Some u)
  /\ topicsV (fst (app env req st)) = topicsV st.
Proof.
  intros Hwf Hu Hp Hnd Hin Hid Hau.
  destruct (app_update env req st u Hwf Hp Hu) as (st1 & me & Hf & Hwf1 & Hme & ->).
  assert (update req (Some me) st1
          = (st1, Ok (page 200 (templateHTML (VStr "글 수정") (emptyListHtml st1)
                                  (BodyUpdateForm t (or_else (get (query req) "page") (VNum (Fin 1)))
                                     (or_else (get (query req) "limit") (VNum (Fin 10)))
                                     (or_else (get (query req) "sort") (VStr "latest")))
                                  None (or_else (get (query req) "sort") (VStr "latest"))
                                  (or_else (get (query req) "limit") (VNum (Fin 10)))
                                  (or_else (get (query req) "page") (VNum (Fin 1)))
                                  (Some u))))) as ->.
  { unfold update, snapshot. msimpl.
    destruct (wf_topics _ Hwf1) as (tl & Ht & Harr & _ & Hall). rewrite Harr.
    pose proof (find_view _ _ _ _ _ Hall
                  (has_id_view (heap st1) (parseInt (get (query req) "id")))) as Hfind.
    rewrite (frame_topicsV _ _ Hwf Hf), Hid, (find_has_id_unique _ _ Hnd Hin) in Hfind.
    rewrite Hid.
    destruct (find (has_topic_id _ _) tl) as [l|]; [|done].
    destruct Hfind as (t' & Hl & [= <-] & _). msimpl.
    unfold topic_of, user_of. rewrite Hl, Hme. msimpl.
    rewrite Hau, Z.eqb_refl. cbn [negb]. msimpl. done. }
  cbn [fst snd]. split; [by eexists _, _|]. by apply frame_topicsV.
Qed.

Lemma author_gets_edit_form_witness :
  exists r h, snd (app env0 req_update_own st_alice) = Responded r /\ status r = 200
    /\ html r = Some h
    /\ h_body h = BodyUpdateForm hello (VStr "2") (VNum (Fin 10)) (VStr "latest").
Proof.
  assert (NoDup (Topic.id <$> topicsV st_alice)) as Hnd.
  { apply (bool_decide_unpack _). vm_compute. exact I. }
  destruct (author_gets_edit_form env0 req_update_own st_alice (strip_password alice) hello
              wf_st_alice (alice_logged_in req_update_own eq_refl) eq_refl Hnd)
    as [(r & h & Hr & Hs & Hh & Hb & _) _].
  - vm_compute. apply list_elem_of_In. left. reflexivity.
  - vm_compute. reflexivity.
  - reflexivity.
  - exists r, h. split; [exact Hr|]. split; [exact Hs|]. split; [exact Hh|exact Hb].
Defined.

(** X20. A logged-in user who posts a title and a description that are not
    blank has the post appended with the next id, the fields as posted,
    the two clock readings and the user's id as author, and the
    collection saved. The answer is 302 to the list, at the position the
    form carried, when [http] takes that [Location], and the 500 page
    when it refuses it, the post being added and saved either way. The
    file gets the collection if the write succeeds, is left as it was if
    it cannot be opened, and is unreadable if the write is cut short. *)
Theorem create_appends_post env req st u :
  wf st -> logged_in_as req st u ->
  method req = "POST" -> pathname req = "/create_process" ->
  isEmptyOrWhitespace (get (body req) "title") = Ok false ->
  isEmptyOrWhitespace (get (body req) "description") = Ok false ->
  let st' := fst (app env req st) in
  let to := ToList (or_else (get (body req) "page") (VNum (Fin 1)))
                   (or_else (get (body req) "limit") (VNum (Fin 10)))
                   (or_else (get (body req) "sort") (VStr "latest")) in
  to = list_location req
  /\ snd (app env req st)
     = Responded (if accepted to then redirect to None else page500 st')
  /\ topicsV st' = topicsV st ++ [ {| Topic.id := nextId st;
                                      Topic.title := get (body req) "title";
                                      Topic.description := get (body req) "description";
                                      Topic.created_at := now env 0;
                                      Topic.updated_at := now env 1;
                                      Topic.author := User.id u |} ]
  /\ usersV st' = usersV st /\ sessions st' = sessions st
  /\ topics_json (disk st')
     = match writeFileSync env with
       | Written => Content (topicsV st')
       | NotOpened => topics_json (disk st)
       | Cut => Unreadable
       end
  /\ users_json (disk st') = users_json (disk st).
Proof.
  intros Hwf Hu Hm Hp Hbt Hbd st' to. split; [done|]. subst to.
  destruct (app_post_logged_in env req st u _ Hwf Hm Hp eq_refl Hu)
    as (st2 & me & Hf & Hwf2 & Hme & Happ).
  rewrite (post_route_at _ _ _ _ _ Hp) in Happ. cbn [String.eqb Ascii.eqb Bool.eqb] in Happ.
  pose proof (create_process_spec env (post_ctx req (Some me)) st2 me u Hwf2 eq_refl Hme)
    as H. cbn [post_ctx post] in H. unfold blank2 in H.
  rewrite Hbt in H. cbn [mbind result_bind] in H. rewrite Hbd in H.
  destruct H as (s & H & _ & Et & Eu & _ & _ & Es & Ed).
  rewrite (some_result _ _ _ _ H) in Happ. unfold writeHead302 in Happ.
  cbn [p_page p_limit p_sort] in Happ. unfold accepted.
  assert (fst (app env req st) = s) as Est.
  { rewrite Happ. by destruct (header_ok _). }
  assert (snd (app env req st)
          = Responded (if header_ok (location_text
                             (ToList (or_else (get (body req) "page") (VNum (Fin 1)))
                                     (or_else (get (body req) "limit") (VNum (Fin 10)))
                                     (or_else (get (body req) "sort") (VStr "latest"))))
                       then redirect
                              (ToList (or_else (get (body req) "page") (VNum (Fin 1)))
                                      (or_else (get (body req) "limit") (VNum (Fin 10)))
                                      (or_else (get (body req) "sort") (VStr "latest")))
                              None
                       else page500 s)) as Eo.
  { rewrite Happ. by destruct (header_ok _). }
  subst st'. rewrite Eo, Est. clear Happ Eo Est.
  pose proof (frame_topicsV _ _ Hwf Hf) as Ht2.
  pose proof (frame_usersV _ _ Hwf Hf) as Hu2.
  destruct Hf as (_ & _ & _ & En2 & _ & Es2 & Ed2).
  assert (topicsV s = topicsV st ++ [ {| Topic.id := nextId st;
                                      Topic.title := get (body req) "title";
                                      Topic.description := get (body req) "description";
                                      Topic.created_at := now env 0;
                                      Topic.updated_at := now env 1;
                                      Topic.author := User.id u |} ]) as Et'.
  { rewrite Et, Ht2. unfold newTopic. cbn [post_ctx post]. by rewrite En2. }
  split; [done|]. split; [done|]. split; [congruence|]. split; [congruence|].
  rewrite Ed, Ed2. cbn. unfold saveData. by destruct (writeFileSync env).
Qed.

Lemma create_appends_post_witness :
  Topic.title <$> topicsV (fst (app env0 req_create st_alice))
  = [VStr "Hello"; VStr "Howdy"; VStr "T"]
  /\ Topic.author <$> topicsV (fst (app env0 req_create st_alice)) = [1; 2; 1].
Proof.
  destruct (create_appends_post env0 req_create st_alice (strip_password alice)
              wf_st_alice (alice_logged_in req_create eq_refl) eq_refl eq_refl
              eq_refl eq_refl) as (_ & _ & Et & _).
  rewrite Et. split; vm_compute; reflexivity.
Defined.

(** X21. The author's [/delete_process] removes the post and saves the
    collection: the others stay, in their order, and the counter stays.
    The answer is 302 to the list, at the position the form carried, when
    [http] takes that [Location], and the 500 page when it refuses it,
    the post being removed and the collection saved either way. The file
    gets the collection if the write succeeds, is left as it was if it
    cannot be opened, and is unreadable if the write is cut short. *)
Theorem author_deletes_post env req st u t :
  wf st -> logged_in_as req st u ->
  method req = "POST" -> pathname req = "/delete_process" ->
  NoDup (Topic.id <$> topicsV st) ->
  t ∈ topicsV st -> parseInt (get (body req) "id") = Fin (Topic.id t) ->
  Topic.author t = User.id u ->
  let st' := fst (app env req st) in
  let to := ToList (or_else (get (body req) "page") (VNum (Fin 1)))
                   (or_else (get (body req) "limit") (VNum (Fin 10)))
                   (or_else (get (body req) "sort") (VStr "latest")) in
  to = list_location req
  /\ snd (app env req st)
     = Responded (if accepted to then redirect to None else page500 st')
  /\ topicsV st' = filter (fun t' => Topic.id t' ≠ Topic.id t) (topicsV st)
  /\ (t ∉ topicsV st')
  /\ (forall t', t' ∈ topicsV st -> t' ≠ t -> t' ∈ topicsV st')
  /\ nextId st' = nextId st /\ usersV st' = usersV st /\ sessions st' = sessions st
  /\ topics_json (disk st')
     = match writeFileSync env with
       | Written => Content (topicsV st')
       | NotOpened => topics_json (disk st)
       | Cut => Unreadable
       end.
Proof.
  intros Hwf Hu Hm Hp Hnd Hin Hid Hau st' to. split; [done|]. subst to.
  destruct (app_delete env req st u Hwf Hm Hp Hu) as (st2 & me & Hf & Hwf2 & Hme & Happ).
  pose proof (delete_process_spec env (post_ctx req (Some me)) st2 me u Hwf2 eq_refl Hme)
    as H. cbn zeta in H. cbn [post_ctx post] in H.
  rewrite (frame_topicsV _ _ Hwf Hf), Hid, (find_has_id_unique _ _ Hnd Hin) in H.
  rewrite Hau, Z.eqb_refl in H. cbn [negb] in H.
  destruct H as (s & H & _ & Et & Eu & En & _ & Es & Ed).
  rewrite (some_result _ _ _ _ H) in Happ. unfold writeHead302 in Happ.
  cbn [p_page p_limit p_sort] in Happ. unfold accepted.
  assert (fst (app env req st) = s) as Est.
  { rewrite Happ. by destruct (header_ok _). }
  assert (snd (app env req st)
          = Responded (if header_ok (location_text
                             (ToList (or_else (get (body req) "page") (VNum (Fin 1)))
                                     (or_else (get (body req) "limit") (VNum (Fin 10)))
                                     (or_else (get (body req) "sort") (VStr "latest"))))
                       then redirect
                              (ToList (or_else (get (body req) "page") (VNum (Fin 1)))
                                      (or_else (get (body req) "limit") (VNum (Fin 10)))
                                      (or_else (get (body req) "sort") (VStr "latest")))
                              None
                       else page500 s)) as Eo.
  { rewrite Happ. by destruct (header_ok _). }
  subst st'. rewrite Eo, Est. clear Happ Eo Est.
  pose proof (frame_usersV _ _ Hwf Hf) as Hu2.
  destruct Hf as (_ & _ & _ & En2 & _ & Es2 & Ed2).
  assert (topicsV s = filter (fun t' => Topic.id t' ≠ Topic.id t) (topicsV st)) as Et'.
  { rewrite Et. apply list_filter_iff. intros t'. unfold has_id, Num.eq.
    destruct (Z.eqb_spec (Topic.id t') (Topic.id t)); naive_solver. }
  split; [done|]. split; [done|]. split; [|split].
  - rewrite Et'. intros [? _]%list_elem_of_filter. done.
  - intros t' Hin' Hne. rewrite Et'. apply list_elem_of_filter. split; [|done].
    intros E. apply Hne. clear -Hnd Hin Hin' E.
    apply list_elem_of_lookup in Hin as [i Hi]. apply list_elem_of_lookup in Hin' as [j Hj].
    assert (i = j); [|congruence].
    eapply NoDup_lookup; [exact Hnd| |]; rewrite list_lookup_fmap.
    + by rewrite Hi.
    + rewrite Hj. cbn. by rewrite E.
  - split; [congruence|]. split; [congruence|]. split; [congruence|].
    rewrite Ed, Ed2. cbn. unfold saveData. by destruct (writeFileSync env).
Qed.

Lemma author_deletes_post_witness :
  topicsV (fst (app env0 req_delete_own st_alice)) = [howdy]
  /\ nextId (fst (app env0 req_delete_own st_alice)) = 3.
Proof.
  assert (NoDup (Topic.id <$> topicsV st_alice)) as Hnd.
  { apply (bool_decide_unpack _). vm_compute. exact I. }
  destruct (author_deletes_post env0 req_delete_own st_alice (strip_password alice) hello
              wf_st_alice (alice_logged_in req_delete_own eq_refl) eq_refl eq_refl Hnd)
    as (_ & _ & Et & _ & _ & En & _).
  - vm_compute. apply list_elem_of_In. left. reflexivity.
  - vm_compute. reflexivity.
  - reflexivity.
  - split; [rewrite Et|rewrite En]; vm_compute; reflexivity.
Defined.

(** ** The list page over the two views *)

Lemma insert_by_view {A B} (R : A -> B -> Prop) (f : A -> A -> Z) (g : B -> B -> Z)
    l x ls xs :
  R l x -> Forall2 R ls xs ->
  (forall l' x', l' ∈ ls -> R l' x' -> f l l' = g x x') ->
  Forall2 R (insert_by f l ls) (insert_by g x xs).
Proof.
  intros Hlx Hall. induction Hall as [|l' x' ls xs Hl' Hall IH]; intros Hfg; cbn.
  - by repeat constructor.
  - rewrite (Hfg l' x' (list_elem_of_here _ _) Hl').
    destruct (g x x' <=? 0); [by repeat constructor|].
    constructor; [done|]. apply IH. intros l'' x'' Hin. apply Hfg. by right.
Qed.

Lemma sort_by_view {A B} (R : A -> B -> Prop) (f : A -> A -> Z) (g : B -> B -> Z) ls xs :
  Forall2 R ls xs ->
  (forall l x l' x', l ∈ ls -> l' ∈ ls -> R l x -> R l' x' -> f l l' = g x x') ->
  Forall2 R (sort_by f ls) (sort_by g xs).
Proof.
  intros Hall. induction Hall as [|l x ls xs Hlx Hall IH]; intros Hfg; cbn; [constructor|].
  apply insert_by_view.
  - done.
  - apply IH. intros l1 x1 l2 x2 H1 H2. apply Hfg; by right.
  - intros l' x' Hin HR. apply Hfg; [by left| |done|done]. right.
    by apply (elem_of_Permutation_proper _ _ _ (sort_by_perm f ls)) in Hin.
Qed.

Lemma slice_view {A B} (R : A -> B -> Prop) ls xs a b :
  Forall2 R ls xs -> Forall2 R (slice ls a b) (slice xs a b).
Proof.
  intros Hall. unfold slice. rewrite (Forall2_length _ _ _ Hall).
  by apply Forall2_take, Forall2_drop.
Qed.

Lemma comparator_order env h sort a b ta tb :
  topic_at h a = Some ta -> topic_at h b = Some tb ->
  (sort = VStr "title_asc" -> exists s, Topic.title ta = VStr s) ->
  comparator env h sort a b = Ok (order env sort ta tb).
Proof.
  intros Ha Hb Hs. unfold comparator, order.
  destruct (strict_eq sort (VStr "latest")).
  { unfold by_latest, topic_of. by rewrite Ha, Hb. }
  destruct (strict_eq sort (VStr "oldest")).
  { unfold by_oldest, topic_of. by rewrite Ha, Hb. }
  destruct (strict_eq sort (VStr "title_asc")) eqn:E.
  { apply strict_eq_true in E. destruct (Hs E) as [s Es].
    unfold by_title, topic_of. rewrite Ha, Hb. cbn. by rewrite Es. }
  unfold by_latest, topic_of. by rewrite Ha, Hb.
Qed.

Lemma sortTopics_view env sort st :
  wf st -> sortable sort (topicsV st) ->
  exists sorted,
    sortTopics env (topics st) sort st
    = (set_heap (<[fresh (dom (heap st)) := Arr sorted]> (heap st)) st,
       Ok (fresh (dom (heap st))))
    /\ Forall2 (fun l t => topic_at (heap st) l = Some t) sorted
         (sort_by (order env sort) (topicsV st))
    /\ length sorted = length (topicsV st).
Proof.
  intros Hwf Hs. destruct (wf_topics _ Hwf) as (tl & Ht & Harr & Hnd & Hall).
  pose proof (sortTopics_spec env (topics st) sort st) as H. cbn zeta in H.
  rewrite Harr in H.
  rewrite (sortM_pure (order_at env (heap st) sort)) in H.
  2:{ intros x y Hx Hy.
      apply list_elem_of_lookup in Hx as [i Hi]. apply list_elem_of_lookup in Hy as [j Hj].
      destruct (Forall2_lookup_l _ _ _ _ _ Hall Hi) as (tx & Htx & Ex).
      destruct (Forall2_lookup_l _ _ _ _ _ Hall Hj) as (ty & Hty & Ey).
      unfold order_at. rewrite Ex, Ey. apply comparator_order; [done..|].
      intros E. apply (Hs E). by eapply list_elem_of_lookup_2. }
  exists (sort_by (order_at env (heap st) sort) tl). split; [done|]. split.
  - apply sort_by_view; [done|]. intros l x l' x' _ _ Hl Hl'.
    unfold order_at. by rewrite Hl, Hl'.
  - rewrite (Permutation_length (sort_by_perm _ tl)). by eapply Forall2_length.
Qed.

Lemma authorName_view st a :
  wf st -> authorName (heap st) (users st) a = author_of (usersV st) a.
Proof.
  intros Hwf. destruct (wf_users _ Hwf) as (ul & _ & Harr & _ & Hall).
  unfold authorName, author_of. rewrite Harr.
  pose proof (find_view _ _ (fun u => User.id u =? a) _ _ Hall
                (fun l u H => has_user_id_view (heap st) a l u H)) as Hf.
  destruct (find (has_user_id _ _) ul) as [l|]; [|by rewrite Hf].
  destruct Hf as (u & Hl & -> & _). by rewrite Hl.
Qed.

Lemma templateList_view st ls posts page limit sort :
  wf st -> Forall2 (fun l t => topic_at (heap st) l = Some t) ls posts ->
  l_items (templateList (heap st) (users st) ls page limit sort)
  = list_item (usersV st) <$> posts.
Proof.
  intros Hwf Hall. cbn. induction Hall as [|l t ls posts Hl Hall IH]; [done|].
  cbn. rewrite Hl. cbn. rewrite IH. unfold list_item. by rewrite authorName_view.
Qed.

Lemma root_spec env req me st :
  wf st ->
  sortable (or_else (get (query req) "sort") (VStr "latest")) (topicsV st) ->
  exists st1, frame st st1 /\ wf st1
    /\ root env req me st
       = (st1, root_page env req (topicsV st) (usersV st) (snapshot (heap st) me)).
Proof.
  intros Hwf Hs.
  set (sort := or_else (get (query req) "sort") (VStr "latest")) in *.
  destruct (sortTopics_view env sort st Hwf Hs) as (sorted & Hsort & Hall & Hlen).
  pose proof (fresh_free (heap st)) as Hfree.
  set (l := fresh (dom (heap st))) in *.
  set (st1 := set_heap (<[l := Arr sorted]> (heap st)) st) in *.
  assert (frame st st1) as Hf by (by apply frame_alloc).
  pose proof (wf_frame _ _ Hwf Hf) as Hwf1.
  exists st1. split; [done|]. split; [done|].
  unfold root. msimpl. fold sort. rewrite (bind_ok _ _ _ _ _ Hsort). msimpl.
  change (<[l := Arr sorted]> (heap st)) with (heap st1).
  change (users st) with (users st1). change (topics st) with (topics st1).
  assert (arr (heap st1) l = sorted) as -> by apply arr_insert_eq.
  assert (Forall2 (fun l t => topic_at (heap st1) l = Some t) sorted
            (sort_by (order env sort) (topicsV st))) as Hall1.
  { eapply Forall2_impl; [exact Hall|]. intros x t Hx. cbn in Hx.
    eapply topic_at_weaken; [apply Hf|done]. }
  assert (snapshot (heap st1) me = snapshot (heap st) me) as Hsnap.
  { destruct me as [m|]; [|done]. cbn. destruct (decide (m = l)) as [->|Hne].
    - unfold user_at. cbn. rewrite lookup_insert_eq. fold l. by rewrite Hfree.
    - unfold st1. cbn. by rewrite user_at_insert_ne. }
  unfold root_page. fold sort. cbn zeta.
  set (page_ := parseInt_or (get (query req) "page") (Fin 1)).
  set (limit := parseInt_or (get (query req) "limit") DEFAULT_ITEMS_PER_PAGE).
  rewrite Hlen.
  destruct (templatePagination (length (topicsV st)) page_ limit sort) as [pager|e|];
    msimpl; [|done|done].
  assert ({| l_pager := pager;
             l_items := l_items (templateList (heap st1) (users st1)
                                   (pagedTopics sorted page_ limit)
                                   (VNum page_) (VNum limit) sort);
             l_page := l_page (templateList (heap st1) (users st1)
                                 (pagedTopics sorted page_ limit)
                                 (VNum page_) (VNum limit) sort);
             l_limit := l_limit (templateList (heap st1) (users st1)
                                   (pagedTopics sorted page_ limit)
                                   (VNum page_) (VNum limit) sort);
             l_sort := l_sort (templateList (heap st1) (users st1)
                                 (pagedTopics sorted page_ limit)
                                 (VNum page_) (VNum limit) sort) |}
          = listing env (topicsV st) (usersV st) page_ limit sort pager) as ->.
  { unfold listing.
    rewrite (templateList_view st1 _ (pagedTopics (sort_by (order env sort) (topicsV st))
                                        page_ limit)); [|done|by apply slice_view].
    by rewrite (frame_usersV _ _ Hwf Hf). }
  rewrite Hsnap.
  destruct (truthy _); msimpl; [|done].
  destruct (wf_topics _ Hwf1) as (tl & _ & Harr & _ & Hallt). rewrite Harr.
  rewrite (frame_topicsV _ _ Hwf Hf) in Hallt.
  pose proof (find_view _ _ _ _ _ Hallt
                (has_id_view (heap st1) (parseInt (get (query req) "id")))) as Hfind.
  destruct (find (has_topic_id _ _) tl) as [x|]; msimpl; [|by rewrite Hfind].
  destruct Hfind as (t & Hx & -> & _). unfold topic_of. rewrite Hx. msimpl.
  destruct (marked_parse _ _); msimpl; [|done|done].
  rewrite authorName_view by done. rewrite (frame_usersV _ _ Hwf Hf).
  unfold is_author. rewrite Hsnap.
  destruct (snapshot (heap st) me) as [u|]; [by destruct (User.id u =? _)|done].
Qed.

Lemma app_root env req st st1 me :
  wf st -> getLoggedInUser req st = (st1, Ok me) -> pathname req = "/" ->
  sortable (or_else (get (query req) "sort") (VStr "latest")) (topicsV st) ->
  exists st2, frame st st2
    /\ app env req st
       = (st2, outcome_of (root_page env req (topicsV st) (usersV st)
                             (snapshot (heap st1) me))).
Proof.
  intros Hwf Hg Hp Hs.
  destruct (getLoggedInUser_cases req st Hwf) as (st1' & r & Hg' & Hf & Hwf1 & _).
  rewrite Hg in Hg'. injection Hg' as <- <-.
  rewrite <- (frame_topicsV _ _ Hwf Hf) in Hs.
  destruct (root_spec env req me st1 Hwf1 Hs) as (st2 & Hf2 & _ & Hr).
  rewrite (frame_topicsV _ _ Hwf Hf), (frame_usersV _ _ Hwf Hf) in Hr.
  exists st2. split; [by eapply frame_trans|].
  unfold app, dispatch. rewrite (bind_ok _ _ _ _ _ Hg), Hp.
  cbn [String.eqb Ascii.eqb Bool.eqb]. unfold some, bind, ret. rewrite Hr.
  by destruct (root_page _ _ _ _ _).
Qed.

(** The pager returns for a page within 2^52 of zero: its numbers are
    exact and its loop makes five turns at most. *)
Lemma pager_returns totalTopics p limit sort :
  Z.abs p <= 2 ^ 52 ->
  exists pager, templatePagination totalTopics (Fin p) limit sort = Ok pager.
Proof.
  intros Hp. unfold templatePagination. cbv zeta.
  destruct (Num.le _ (Fin 1)); [by eexists|].
  pose proof overflow_beyond as Ho.
  rewrite (ceil_div_safe p 5) by lia.
  set (g := - (- p / 5)).
  assert (5 * g - 4 <= p <= 5 * g) as Hg.
  { unfold g. pose proof (Z.div_mod (- p) 5 ltac:(lia)).
    pose proof (Z.mod_pos_bound (- p) 5 ltac:(lia)). lia. }
  rewrite (sub_safe g 1) by lia. rewrite (mul_safe (g - 1) 5) by lia.
  rewrite (add_safe ((g - 1) * 5) 1) by lia.
  set (s := (g - 1) * 5 + 1).
  rewrite (add_safe s 5) by lia. rewrite (sub_safe (s + 5) 1) by lia.
  assert (exists e, (e = NaN \/ e = Inf true \/ exists z, e = Fin z /\ z <= s + 4)
                    /\ Num.min (Fin (s + 5 - 1)) (Num.ceil_div (Fin (Z.of_nat totalTopics)) limit)
                       = e) as (e & He & ->).
  { destruct (Num.ceil_div _ limit) as [t| [] |]; cbn.
    - destruct (Z.ltb_spec t (s + 5 - 1)); eexists; (split; [|done]); right; right;
        eexists; (split; [done|lia]).
    - eexists. split; [|done]. by right; left.
    - eexists. split; [|done]. right; right. eexists. split; [done|lia].
    - eexists. split; [|done]. by left. }
  destruct He as [->|[->|(z & -> & Hz)]].
  - destruct (distance _ _); cbn; by eexists.
  - destruct (distance _ _); cbn; by eexists.
  - cbn [distance]. rewrite pageLinks_safe by lia. by eexists.
Qed.

(** Further from zero the loop may not end: [parseInt] rounds the digits
    to -2^53, the first page of the group is -2^53 - 4, and adding 1 to it
    gives the same number again. *)
Example pager_loop_ex :
  let req := request "GET" "/" [("page", VStr "-9007199254740993"); ("limit", VStr "1")]
               None [] in
  parseInt (get (query req) "page") = Fin (- 2 ^ 53)
  /\ Num.add (Fin (- 2 ^ 53 - 4)) (Fin 1) = Fin (- 2 ^ 53 - 4)
  /\ templatePagination 2 (Fin (- 2 ^ 53)) (Fin 1) (VStr "latest") = Diverge
  /\ snd (app env0 req st0) = Hangs.
Proof. vm_compute. repeat split; reflexivity. Qed.

(** X22. The list of a ['/'] page is the window of the page, cut from the
    posts sorted by the key, each with the nickname of its author (the
    system name when no user has the author's id), with the pager of the
    whole collection. Without an [id], and for a page number within 2^52
    of zero, the request is answered with the welcome page; further from
    zero the loop of the pager may not end. A sort by title is for string
    titles and a consistent collation. *)
Theorem listing_shows_page env req st st1 me :
  wf st -> getLoggedInUser req st = (st1, Ok me) -> pathname req = "/" ->
  let sort := or_else (get (query req) "sort") (VStr "latest") in
  let page_ := parseInt_or (get (query req) "page") (Fin 1) in
  let limit := parseInt_or (get (query req) "limit") DEFAULT_ITEMS_PER_PAGE in
  sortable sort (topicsV st) -> (sort = VStr "title_asc" -> collates env) ->
  (forall r, snd (app env req st) = Responded r ->
     status r = 200
     /\ exists h, html r = Some h
          /\ l_items (h_list h)
             = list_item (usersV st)
               <$> pagedTopics (sort_by (order env sort) (topicsV st)) page_ limit
          /\ templatePagination (length (topicsV st)) page_ limit sort
             = Ok (l_pager (h_list h))
          /\ h_user h = snapshot (heap st1) me)
  /\ (truthy (get (query req) "id") = false ->
      forall p, page_ = Fin p -> Z.abs p <= 2 ^ 52 ->
      exists r h, snd (app env req st) = Responded r /\ html r = Some h
                  /\ h_body h = BodyIntro /\ h_control h = None).
Proof.
  intros Hwf Hg Hp sort page_ limit Hs _.
  destruct (app_root env req st st1 me Hwf Hg Hp Hs) as (st2 & _ & ->). cbn [snd].
  unfold root_page. cbn zeta. fold sort page_ limit. split.
  - intros r.
    destruct (templatePagination _ page_ limit sort) as [pager|e|]; cbn; [|done|done].
    destruct (truthy _).
    + destruct (find _ _) as [t|].
      * destruct (marked_parse _ _); cbn; [|done|done].
        intros [= <-]. split; [done|]. by eexists.
      * cbn. intros [= <-]. split; [done|]. by eexists.
    + cbn. intros [= <-]. split; [done|]. by eexists.
  - intros -> p Ep Hb. rewrite Ep.
    destruct (pager_returns (length (topicsV st)) p limit sort Hb) as [pager ->].
    cbn. by eexists _, _.
Qed.

Lemma listing_shows_page_witness :
  exists r h, snd (app env0 (request "GET" "/" [("limit", VStr "1")] None []) st0)
              = Responded r
    /\ html r = Some h
    /\ li_topic <$> l_items (h_list h) = [howdy]
    /\ li_author <$> l_items (h_list h) = [VStr "Bob"].
Proof.
  set (req := request "GET" "/" [("limit", VStr "1")] None []).
  assert (getLoggedInUser req st0 = (st0, Ok None)) as Hg by (vm_compute; reflexivity).
  destruct (listing_shows_page env0 req st0 st0 None wf_st0 Hg eq_refl) as [Hall Hintro].
  - intros E. vm_compute in E. discriminate.
  - intros E. vm_compute in E. discriminate.
  - destruct (Hintro eq_refl 1 eq_refl) as (r & h & Hr & Hh & _).
    { vm_compute. discriminate. }
    destruct (Hall r Hr) as (_ & h' & Hh' & Hitems & _).
    exists r, h. split; [exact Hr|]. split; [exact Hh|].
    assert (h' = h) as -> by congruence.
    rewrite Hitems. split; vm_compute; reflexivity.
Defined.

(** X23. ['/?id=N'] for a stored post, with a page number within 2^52 of
    zero (the pager is made before the post is looked up, and further
    from zero its loop may not end), answers 200 with the post, the
    nickname of its author and what the Markdown renderer makes of its
    description; the edit and delete controls are there exactly when the
    viewer is the author. If the renderer throws, nothing catches it. For
    an id that no post has the answer is still a 200 page, titled
    '404 Not Found'. *)
Theorem topic_page env req st st1 me p :
  wf st -> getLoggedInUser req st = (st1, Ok me) -> pathname req = "/" ->
  sortable (or_else (get (query req) "sort") (VStr "latest")) (topicsV st) ->
  truthy (get (query req) "id") = true ->
  parseInt_or (get (query req) "page") (Fin 1) = Fin p -> Z.abs p <= 2 ^ 52 ->
  (forall t,
     NoDup (Topic.id <$> topicsV st) -> t ∈ topicsV st ->
     parseInt (get (query req) "id") = Fin (Topic.id t) ->
     match marked_parse env (Topic.description t) with
     | Ok markdown =>
         exists r h, snd (app env req st) = Responded r /\ status r = 200
           /\ html r = Some h /\ h_title h = Topic.title t
           /\ h_body h = BodyTopic (Topic.title t) (author_of (usersV st) (Topic.author t))
                           (Topic.created_at t) markdown
           /\ h_control h
              = match snapshot (heap st1) me with
                | Some u => if User.id u =? Topic.author t
                            then Some (get (query req) "id") else None
                | None => None
                end
     | Throw e => snd (app env req st) = Crashed e
     | Diverge => snd (app env req st) = Hangs
     end)
  /\ ((forall t, t ∈ topicsV st -> parseInt (get (query req) "id") ≠ Fin (Topic.id t)) ->
      exists r h, snd (app env req st) = Responded r /\ status r = 200
        /\ html r = Some h /\ h_title h = VStr "404 Not Found"
        /\ h_body h = BodyTopicNotFound /\ h_control h = None).
Proof.
  intros Hwf Hg Hp Hs Hid Epage Hb.
  destruct (app_root env req st st1 me Hwf Hg Hp Hs) as (st2 & _ & ->). cbn [snd].
  unfold root_page. cbn zeta. rewrite Hid, Epage.
  destruct (pager_returns (length (topicsV st)) p
              (parseInt_or (get (query req) "limit") DEFAULT_ITEMS_PER_PAGE)
              (or_else (get (query req) "sort") (VStr "latest")) Hb) as [pager ->].
  cbn [mbind result_bind]. split.
  - intros t Hnd Hin Ht. rewrite Ht, (find_has_id_unique _ _ Hnd Hin).
    destruct (marked_parse _ _); cbn; [|done|done]. by eexists _, _.
  - intros Hno. rewrite (find_has_id_none _ _ Hno). cbn. by eexists _, _.
Qed.

Lemma topic_page_witness :
  (exists r h, snd (app env0 (request "GET" "/" [("id", VStr "1")] alice_cookie [])
                      st_alice) = Responded r
     /\ html r = Some h /\ h_title h = VStr "Hello" /\ h_control h = Some (VStr "1"))
  /\ (exists r h, snd (app env0 (request "GET" "/" [("id", VStr "2")] alice_cookie [])
                         st_alice) = Responded r
        /\ html r = Some h /\ h_title h = VStr "Howdy" /\ h_control h = None)
  /\ (exists r h, snd (app env0 (request "GET" "/" [("id", VStr "9")] alice_cookie [])
                         st_alice) = Responded r
        /\ status r = 200 /\ html r = Some h /\ h_title h = VStr "404 Not Found").
Proof.
  assert (NoDup (Topic.id <$> topicsV st_alice)) as Hnd.
  { apply (bool_decide_unpack _). vm_compute. exact I. }
  assert (forall q, exists st1 l,
            getLoggedInUser (request "GET" "/" q alice_cookie []) st_alice
            = (st1, Ok (Some l))
            /\ snapshot (heap st1) (Some l) = Some (strip_password alice)) as Hg.
  { intros q.
    destruct (alice_logged_in (request "GET" "/" q alice_cookie []) eq_refl)
      as (st1 & l & Hg & Hl).
    by exists st1, l. }
  split; [|split].
  - destruct (Hg [("id", VStr "1")]) as (st1 & l & Hg1 & Hsn).
    destruct (topic_page env0 _ st_alice st1 (Some l) 1 wf_st_alice Hg1 eq_refl) as [H _].
    + intros E. vm_compute in E. discriminate.
    + reflexivity.
    + reflexivity.
    + vm_compute. discriminate.
    + specialize (H hello Hnd). rewrite Hsn in H.
      destruct H as (r & h & Hr & _ & Hh & Ht & _ & Hc).
      * vm_compute. apply list_elem_of_In. left. reflexivity.
      * vm_compute. reflexivity.
      * exists r, h. split; [exact Hr|]. split; [exact Hh|]. split; [exact Ht|exact Hc].
  - destruct (Hg [("id", VStr "2")]) as (st1 & l & Hg1 & Hsn).
    destruct (topic_page env0 _ st_alice st1 (Some l) 1 wf_st_alice Hg1 eq_refl) as [H _].
    + intros E. vm_compute in E. discriminate.
    + reflexivity.
    + reflexivity.
    + vm_compute. discriminate.
    + specialize (H howdy Hnd). rewrite Hsn in H.
      destruct H as (r & h & Hr & _ & Hh & Ht & _ & Hc).
      * vm_compute. apply list_elem_of_In. right. left. reflexivity.
      * vm_compute. reflexivity.
      * exists r, h. split; [exact Hr|]. split; [exact Hh|]. split; [exact Ht|exact Hc].
  - destruct (Hg [("id", VStr "9")]) as (st1 & l & Hg1 & Hsn).
    destruct (topic_page env0 _ st_alice st1 (Some l) 1 wf_st_alice Hg1 eq_refl) as [_ H].
    + intros E. vm_compute in E. discriminate.
    + reflexivity.
    + reflexivity.
    + vm_compute. discriminate.
    + destruct H as (r & h & Hr & Hs & Hh & Ht & _).
      * intros t Ht. vm_compute in Ht. apply list_elem_of_In in Ht.
        destruct Ht as [<-|[<-|[]]]; vm_compute; discriminate.
      * exists r, h. split; [exact Hr|]. split; [exact Hs|]. split; [exact Hh|exact Ht].
Defined.

Lemma session_user_no_password req st u :
  session_user req st = Ok (Some u) -> User.password u = None.
Proof.
  unfold session_user. destruct (parseCookies req) as [cookies| |]; [|done|done].
  cbn [mbind result_bind]. intros [= H]. revert H.
  destruct (cookies !! "sessionId") as [sid|]; [|done].
  destruct (negb _); [|done].
  destruct (sessions st !! sid) as [uid|]; [|done].
  destruct (negb _); [|done].
  destruct (find _ _); [|done]. by intros [= <-].
Qed.

(** The user the pages of the POST branch are rendered for. *)
Lemma post_route_viewer env req c st st' r h :
  wf st ->
  (forall me, postLoggedInUser c = Some me -> exists u, user_at (heap st) me = Some u) ->
  post_route env req c st = (st', Ok (Some r)) -> html r = Some h ->
  h_user h = snapshot (heap st) (postLoggedInUser c).
Proof.
  intros Hwf Hme. unfold post_route.
  destruct (String.eqb _ "/create_process").
  { destruct (postLoggedInUser c) as [me|] eqn:E.
    - destruct (Hme _ eq_refl) as [u Hu].
      pose proof (create_process_spec env c st me u Hwf E Hu) as H.
      destruct (blank2 _ _) as [[]| |].
      + rewrite (some_ok _ _ _ _ H). intros [= <- <-] [= <-]. cbn. by rewrite Hu.
      + destruct H as (s & H & _). rewrite (some_result _ _ _ _ H). unfold writeHead302.
        destruct (header_ok _); [by intros [= <- <-]|done].
      + by rewrite (some_throw _ _ _ _ H).
      + by rewrite (some_diverge _ _ _ H).
    - unfold some, create_process, require_login. rewrite E. by msimpl. }
  destruct (String.eqb _ "/update_process").
  { destruct (postLoggedInUser c) as [me|] eqn:E.
    - destruct (Hme _ eq_refl) as [u Hu].
      pose proof (update_process_spec env c st me u Hwf E Hu) as H. cbn zeta in H.
      destruct (findIndex _ _).
      2:{ rewrite (some_ok _ _ _ _ H). intros [= <- <-] [= <-]. cbn. by rewrite Hu. }
      destruct H as (t & Ht & H). destruct (negb _).
      + rewrite (some_ok _ _ _ _ H). intros [= <- <-] [= <-]. cbn. by rewrite Hu.
      + destruct H as (s & H & _). rewrite (some_result _ _ _ _ H). unfold writeHead302.
        destruct (header_ok _); [by intros [= <- <-]|done].
    - unfold some, update_process, require_login. rewrite E. by msimpl. }
  destruct (String.eqb _ "/delete_process").
  { destruct (postLoggedInUser c) as [me|] eqn:E.
    - destruct (Hme _ eq_refl) as [u Hu].
      pose proof (delete_process_spec env c st me u Hwf E Hu) as H. cbn zeta in H.
      destruct (find _ _).
      2:{ rewrite (some_ok _ _ _ _ H). intros [= <- <-] [= <-]. cbn. by rewrite Hu. }
      destruct (negb _).
      + rewrite (some_ok _ _ _ _ H). intros [= <- <-] [= <-]. cbn. by rewrite Hu.
      + destruct H as (s & H & _). rewrite (some_result _ _ _ _ H). unfold writeHead302.
        destruct (header_ok _); [by intros [= <- <-]|done].
    - unfold some, delete_process, require_login. rewrite E. by msimpl. }
  destruct (String.eqb _ "/register_process").
  { pose proof (register_process_spec env c st Hwf) as H.
    destruct (blank3 _ _ _) as [[]| |].
    - rewrite (some_ok _ _ _ _ H). by intros [= <- <-] [= <-].
    - destruct (existsb _ _).
      + rewrite (some_ok _ _ _ _ H). by intros [= <- <-] [= <-].
      + destruct H as (s & H & _). rewrite (some_ok _ _ _ _ H). by intros [= <- <-].
    - by rewrite (some_throw _ _ _ _ H).
    - by rewrite (some_diverge _ _ _ H). }
  destruct (String.eqb _ "/login_process").
  { pose proof (login_process_spec env c st Hwf) as H.
    destruct (find _ _); rewrite (some_ok _ _ _ _ H).
    - by intros [= <- <-].
    - by intros [= <- <-] [= <-]. }
  done.
Qed.

(** The user the page of ['/'] is rendered for. *)
Lemma root_viewer env req me st st' r h u :
  user_at (heap st) me = Some u ->
  root env req (Some me) st = (st', Ok r) -> html r = Some h -> h_user h = Some u.
Proof.
  intros Hu. unfold root. msimpl.
  pose proof (sortTopics_frame env (topics st)
                (or_else (get (query req) "sort") (VStr "latest")) st) as Hf.
  unfold bind at 1.
  destruct (sortTopics env (topics st) _ st) as [st1 [sorted|e|]]; [|done|done].
  cbn [fst] in Hf. msimpl.
  destruct (templatePagination _ _ _ _) as [pager|e|]; msimpl; [|done|done].
  assert (snapshot (heap st1) (Some me) = Some u) as Hsnap.
  { cbn. eapply user_at_weaken; [apply Hf|done]. }
  rewrite Hsnap.
  destruct (truthy _); msimpl; [|by intros [= <- <-] [= <-]].
  destruct (find _ _); msimpl; [|by intros [= <- <-] [= <-]].
  destruct (topic_of _ _); msimpl; [|done|done].
  destruct (marked_parse _ _); msimpl; [|done|done]. by intros [= <- <-] [= <-].
Qed.

Lemma root_anonymous env req st st' r h :
  root env req None st = (st', Ok r) -> html r = Some h -> h_user h = None.
Proof.
  unfold root. msimpl. unfold bind at 1.
  destruct (sortTopics env (topics st) _ st) as [st1 [sorted|e|]]; [|done|done]. msimpl.
  destruct (templatePagination _ _ _ _) as [pager|e|]; msimpl; [|done|done].
  destruct (truthy _); msimpl; [|by intros [= <- <-] [= <-]].
  destruct (find _ _); msimpl; [|by intros [= <- <-] [= <-]].
  destruct (topic_of _ _); msimpl; [|done|done].
  destruct (marked_parse _ _); msimpl; [|done|done]. by intros [= <- <-] [= <-].
Qed.

Lemma update_viewer req me st st' r h :
  update req me st = (st', Ok r) -> html r = Some h ->
  h_user h = snapshot (heap st) me.
Proof.
  unfold update. msimpl. destruct me as [me|]; msimpl; [|by intros [= <- <-]].
  destruct (find _ _); msimpl; [|by intros [= <- <-] [= <-]].
  destruct (topic_of _ _); msimpl; [|done|done].
  destruct (user_of _ _); msimpl; [|done|done].
  destruct (negb _); msimpl; by intros [= <- <-] [= <-].
Qed.

(** X24. No page is rendered with a password: the user that the listener
    hands to the template, for whatever request, is absent or has no
    password property. *)
Theorem pages_get_no_password env req st :
  wf st ->
  forall r h u, snd (app env req st) = Responded r -> html r = Some h ->
                h_user h = Some u -> User.password u = None.
Proof.
  intros Hwf r h u. unfold app, dispatch.
  destruct (getLoggedInUser_cases req st Hwf) as (st1 & res & Hg & Hf & Hwf1 & Hr).
  destruct res as [me|e|];
    [|by rewrite (bind_throw _ _ _ _ _ Hg)|by rewrite (bind_diverge _ _ _ _ Hg)].
  rewrite (bind_ok _ _ _ _ _ Hg).
  assert (forall v, snapshot (heap st1) me = Some v -> User.password v = None) as Hme.
  { intros v Hv. destruct me as [l|]; [|done]. destruct Hr as (u' & Hs & Hu' & _).
    cbn in Hv. rewrite Hu' in Hv. injection Hv as <-.
    by eapply session_user_no_password. }
  assert (forall (m : M Response),
            (forall st' r h, m st1 = (st', Ok r) -> html r = Some h ->
                             h_user h = snapshot (heap st1) me) ->
            snd (let (st', r0) := some m st1 in
                 match r0 with
                 | Ok (Some r) => (st', Responded r)
                 | Ok None => (st', NoResponse)
                 | Throw e => (st', Crashed e)
                 | Diverge => (st', Hangs)
                 end) = Responded r ->
            html r = Some h -> h_user h = Some u -> User.password u = None) as Hget.
  { intros m Hm. unfold some, bind, ret. destruct (m st1) as [st' [r'|e|]] eqn:E; [|done|done].
    cbn. intros [= ->] Hh Hu. apply Hme. by rewrite <- (Hm _ _ _ eq_refl Hh). }
  destruct (String.eqb _ "/").
  { apply Hget. intros st' r' h' Hroot Hh'. destruct me as [l|].
    - destruct Hr as (u' & _ & Hu' & _). cbn. rewrite Hu'.
      by eapply root_viewer.
    - by eapply root_anonymous. }
  destruct (String.eqb _ "/create").
  { apply Hget. unfold create. msimpl. intros st' r' h'.
    destruct me; [by intros [= <- <-] [= <-]|by intros [= <- <-]]. }
  destruct (String.eqb _ "/update").
  { apply Hget. intros st' r' h'. apply update_viewer. }
  destruct (String.eqb _ "/login").
  { apply Hget. unfold login. msimpl. intros st' r' h'.
    destruct me; [by intros [= <- <-]|by intros [= <- <-] [= <-]]. }
  destruct (String.eqb _ "/register").
  { apply Hget. unfold register. msimpl. intros st' r' h'. by intros [= <- <-] [= <-]. }
  destruct (String.eqb _ "/logout_process").
  { unfold some, logout_process, bind, ret, lift.
    destruct (parseCookies req); [|done|done].
    destruct (_ !! _) as [sid|]; [destruct (negb _)|]; cbn; by intros [= <-]. }
  destruct (String.eqb _ "POST").
  2:{ apply Hget. unfold not_found. msimpl. intros st' r' h'. by intros [= <- <-] [= <-]. }
  unfold post_process, catch.
  destruct (getLoggedInUser_cases req st1 Hwf1) as (st2 & res & Hg2 & Hf2 & Hwf2 & Hr2).
  destruct res as [me2|e|].
  2:{ rewrite (bind_throw _ _ _ _ _ Hg2). unfold error500. msimpl. cbn.
      by intros [= <-] [= <-]. }
  2:{ by rewrite (bind_diverge _ _ _ _ Hg2). }
  rewrite (bind_ok _ _ _ _ _ Hg2).
  assert (forall l, postLoggedInUser (post_ctx req me2) = Some l ->
                    exists v, user_at (heap st2) l = Some v) as Hvalid.
  { intros l. cbn. intros ->. destruct Hr2 as (u' & _ & ? & _). by exists u'. }
  destruct (post_route env req (post_ctx req me2) st2) as [st3 [[r'|]|e|]] eqn:Hpost.
  - cbn. intros [= ->] Hh Hu.
    rewrite (post_route_viewer _ _ _ _ _ _ _ Hwf2 Hvalid Hpost Hh) in Hu.
    cbn [post_ctx postLoggedInUser] in Hu. destruct me2 as [l|]; [|done].
    destruct Hr2 as (u' & Hs & Hu' & _). cbn in Hu. rewrite Hu' in Hu. injection Hu as <-.
    by eapply session_user_no_password.
  - done.
  - unfold error500. msimpl. cbn. by intros [= <-] [= <-].
  - done.
Qed.

Lemma pages_get_no_password_witness :
  exists r h u,
    snd (app env0 req_update_other st_alice) = Responded r /\ html r = Some h
    /\ h_user h = Some u /\ User.password u = None.
Proof.
  assert (exists r h u, snd (app env0 req_update_other st_alice) = Responded r
                        /\ html r = Some h /\ h_user h = Some u)
    as (r & h & u & Hr & Hh & Hu).
  { vm_compute. eexists _, _, _. split; [reflexivity|]. split; reflexivity. }
  exists r, h, u. split; [exact Hr|]. split; [exact Hh|]. split; [exact Hu|].
  exact (pages_get_no_password env0 req_update_other st_alice wf_st_alice r h u Hr Hh Hu).
Defined.

(** ** Sorting *)

Lemma order_cases env sort :
  (sort = VStr "oldest"
   /\ order env sort = fun a b => Topic.created_at a - Topic.created_at b)
  \/ (sort = VStr "title_asc"
      /\ order env sort
         = fun a b => localeCompare env (toString (Topic.title a)) (toString (Topic.title b)))
  \/ (sort ≠ VStr "oldest" /\ sort ≠ VStr "title_asc"
      /\ order env sort = fun a b => Topic.created_at b - Topic.created_at a).
Proof.
  unfold order.
  destruct (strict_eq sort (VStr "latest")) eqn:E1.
  { apply strict_eq_true in E1 as ->. right. right. done. }
  destruct (strict_eq sort (VStr "oldest")) eqn:E2.
  { apply strict_eq_true in E2 as ->. left. done. }
  destruct (strict_eq sort (VStr "title_asc")) eqn:E3.
  { apply strict_eq_true in E3 as ->. right. left. done. }
  right. right. split; [by intros ->|]. split; [by intros ->|done].
Qed.

(** X25. For every sort key the array that [sortTopics] returns holds the
    stored posts, each once, in the order of the key: by creation time,
    newest first, for ['latest'] and for any key that is not one of the
    three; oldest first for ['oldest']; by the collation of the titles for
    ['title_asc'], when the titles are strings and the collation is a
    consistent comparison function. Posts that the key does
    not tell apart are allowed; the stored collection keeps its own
    order. *)
Theorem sortTopics_sorted env sort st :
  wf st -> sortable sort (topicsV st) -> (sort = VStr "title_asc" -> collates env) ->
  exists st1 sorted posts,
    sortTopics env (topics st) sort st = (st1, Ok sorted)
    /\ Forall2 (fun l t => topic_at (heap st1) l = Some t) (arr (heap st1) sorted) posts
    /\ posts ≡ₚ topicsV st
    /\ topicsV st1 = topicsV st
    /\ (sort = VStr "oldest" ->
        StronglySorted (fun a b => Topic.created_at a <= Topic.created_at b) posts)
    /\ (sort = VStr "title_asc" ->
        StronglySorted (fun a b => localeCompare env (toString (Topic.title a))
                                     (toString (Topic.title b)) <= 0) posts)
    /\ (sort ≠ VStr "oldest" -> sort ≠ VStr "title_asc" ->
        StronglySorted (fun a b => Topic.created_at b <= Topic.created_at a) posts).
Proof.
  intros Hwf Hs Hc.
  destruct (sortTopics_view env sort st Hwf Hs) as (sorted & Hsort & Hall & _).
  pose proof (fresh_free (heap st)) as Hfree.
  set (l := fresh (dom (heap st))) in *.
  set (st1 := set_heap (<[l := Arr sorted]> (heap st)) st) in *.
  assert (frame st st1) as Hf by (by apply frame_alloc).
  exists st1, l, (sort_by (order env sort) (topicsV st)).
  split; [done|]. split.
  { replace (arr (heap st1) l) with sorted by (symmetry; apply arr_insert_eq).
    eapply Forall2_impl; [exact Hall|]. intros x t Hx. cbn in Hx.
    eapply topic_at_weaken; [apply Hf|done]. }
  split; [apply sort_by_perm|]. split; [by apply frame_topicsV|].
  destruct (order_cases env sort) as [[E ->]|[[E ->]|(E1 & E2 & ->)]].
  - split; [|split]; [|congruence..]. intros _.
    apply (sort_by_sorted _ (fun a b => Topic.created_at a <= Topic.created_at b)).
    + intros a b. lia.
    + intros a b c. lia.
    + intros a b. lia.
  - destruct (Hc E) as [Hsym Htrans]. split; [|split]; [congruence| |congruence]. intros _.
    assert (forall a b, localeCompare env a b <= 0 \/ localeCompare env b a <= 0) as Htotal.
    { intros a b. destruct (Z_le_gt_dec (localeCompare env a b) 0) as [|Hgt]; [by left|].
      right. assert (localeCompare env b a < 0); [|lia]. apply Hsym. lia. }
    apply (sort_by_sorted _ (fun a b => localeCompare env (toString (Topic.title a))
                                          (toString (Topic.title b)) <= 0)).
    + done.
    + intros a b c. apply Htrans.
    + intros a b. apply Htotal.
  - split; [|split]; [congruence..|]. intros _ _.
    apply (sort_by_sorted _ (fun a b => Topic.created_at b <= Topic.created_at a)).
    + intros a b. lia.
    + intros a b c. lia.
    + intros a b. lia.
Qed.

Lemma sortTopics_sorted_witness :
  exists st1 sorted posts,
    sortTopics env0 (topics st0) (VStr "oldest") st0 = (st1, Ok sorted)
    /\ Forall2 (fun l t => topic_at (heap st1) l = Some t) (arr (heap st1) sorted) posts
    /\ posts ≡ₚ topicsV st0
    /\ StronglySorted (fun a b => Topic.created_at a <= Topic.created_at b) posts.
Proof.
  destruct (sortTopics_sorted env0 (VStr "oldest") st0 wf_st0)
    as (st1 & sorted & posts & H1 & H2 & H3 & _ & H4 & _).
  - intros E. discriminate E.
  - intros E. discriminate E.
  - exists st1, sorted, posts. split; [exact H1|]. split; [exact H2|].
    split; [exact H3|]. apply H4. reflexivity.
Defined.

Lemma sortM_throw {A} (cmp : A -> A -> result Z) (l : list A) e :
  (forall x y, x ∈ l -> y ∈ l -> cmp x y = Throw e) ->
  (2 <= length l)%nat -> sortM cmp l = Throw e.
Proof.
  induction l as [|x [|y r] IH]; intros Hc Hl; [cbn in Hl; lia..|].
  change (sortM cmp (x :: y :: r)) with (sortM cmp (y :: r) ≫= insertM cmp x).
  destruct r as [|z r].
  - cbn. rewrite Hc; [done|by left|by right; left].
  - rewrite IH; [done| |cbn; lia]. intros a b Ha Hb. apply Hc; by right.
Qed.

(** X26. A list sorted by title needs string titles: with two or more
    posts of which none has a string as title (none at all, or an array),
    ['/?sort=title_asc'] ends in a TypeError that nothing catches, and no
    response is sent. *)
Theorem title_sort_throws env req st st1 me :
  wf st -> getLoggedInUser req st = (st1, Ok me) -> pathname req = "/" ->
  get (query req) "sort" = VStr "title_asc" ->
  (2 <= length (topicsV st))%nat ->
  (forall t s, t ∈ topicsV st -> Topic.title t ≠ VStr s) ->
  snd (app env req st) = Crashed "TypeError"
  /\ topicsV (fst (app env req st)) = topicsV st.
Proof.
  intros Hwf Hg Hp Hsort Hlen Hno.
  destruct (getLoggedInUser_cases req st Hwf) as (st1' & r & Hg' & Hf & Hwf1 & _).
  rewrite Hg in Hg'. injection Hg' as <- <-.
  assert (root env req me st1 = (fst (root env req me st1), Throw "TypeError")) as Hr.
  { unfold root. msimpl. rewrite Hsort. cbn [or_else truthy String.eqb negb].
    pose proof (sortTopics_spec env (topics st1) (VStr "title_asc") st1) as H.
    cbn zeta in H. destruct (wf_topics _ Hwf1) as (tl & _ & Harr & _ & Hall).
    rewrite Harr in H. rewrite (frame_topicsV _ _ Hwf Hf) in Hall.
    rewrite (sortM_throw _ _ "TypeError") in H;
      [by rewrite (bind_throw _ _ _ _ _ H)| |by rewrite (Forall2_length _ _ _ Hall)].
    intros x y Hx Hy.
    apply list_elem_of_lookup in Hx as [i Hi]. apply list_elem_of_lookup in Hy as [j Hj].
    destruct (Forall2_lookup_l _ _ _ _ _ Hall Hi) as (tx & Htx & Ex).
    destruct (Forall2_lookup_l _ _ _ _ _ Hall Hj) as (ty & Hty & Ey).
    unfold comparator, by_title, topic_of. cbn. rewrite Ex, Ey. cbn.
    pose proof (Hno tx) as Hn. destruct (Topic.title tx); try done.
    exfalso. eapply Hn; [by eapply list_elem_of_lookup_2|done]. }
  assert (app env req st = (fst (root env req me st1), Crashed "TypeError")) as ->.
  { unfold app, dispatch. rewrite (bind_ok _ _ _ _ _ Hg), Hp.
    cbn [String.eqb Ascii.eqb Bool.eqb]. unfold some, bind, ret. by rewrite Hr. }
  split; [done|]. cbn [fst]. apply frame_topicsV; [done|].
  eapply frame_trans; [done|apply root_frame].
Qed.

Lemma title_sort_throws_witness :
  snd (app env0 req_by_title (startup env0 disk_untitled)) = Crashed "TypeError".
Proof.
  refine (proj1 (title_sort_throws env0 req_by_title (startup env0 disk_untitled)
                   (startup env0 disk_untitled) None _ _ eq_refl eq_refl _ _)).
  - apply startup_spec.
  - vm_compute. reflexivity.
  - vm_compute. lia.
  - intros t s Ht. vm_compute in Ht. apply list_elem_of_In in Ht.
    destruct Ht as [<-|[<-|[]]]; discriminate.
Defined.

(** ** The pager *)

(** X27. The pager of a list of more than one page, the pages numbering
    2^52 at most (an array has fewer than 2^32 elements): for a page that
    exists the pager is made, and it shows at most five consecutive page
    numbers, all of them pages that exist, the current one among them;
    the link back leads to the page before the first number and is there
    unless the page is one of the first five; the link forward leads to
    the page after the last number, which exists. A list of at most one
    page has no pager, whatever the page asked for. *)
Theorem pager_window totalTopics page limit sort totalPages :
  Num.ceil_div (Fin (Z.of_nat totalTopics)) limit = Fin totalPages ->
  (forall current,
     templatePagination totalTopics current limit sort = Ok None <-> totalPages <= 1)
  /\ (1 < totalPages <= 2 ^ 52 -> 1 <= page <= totalPages ->
      exists pager first last,
        templatePagination totalTopics (Fin page) limit sort = Ok (Some pager)
        /\ pg_pages pager = Fin <$> seqZ first (last - first + 1)
        /\ 1 <= first <= page /\ page <= last <= totalPages /\ last - first < 5
        /\ pg_current pager = Fin page
        /\ pg_prev pager = (if 5 <? page then Some (Fin (first - 1)) else None)
        /\ (5 < page -> 1 <= first - 1)
        /\ pg_next pager = (if last <? totalPages then Some (Fin (last + 1)) else None)
        /\ (last < totalPages -> last = first + 4)).
Proof.
  intros Hn. unfold templatePagination. rewrite Hn. cbv zeta. rewrite le_Fin. split.
  { intros current. destruct (Z.leb_spec totalPages 1); [done|].
    split; [|lia]. by destruct (pageLinks _ _ _). }
  intros Ht Hp. destruct (Z.leb_spec totalPages 1); [lia|].
  pose proof overflow_beyond as Ho.
  rewrite (ceil_div_safe page 5) by lia.
  set (g := - (- page / 5)).
  assert (5 * (g - 1) < page <= 5 * g) as Hg.
  { unfold g. pose proof (Z.div_mod (- page) 5 ltac:(lia)).
    pose proof (Z.mod_pos_bound (- page) 5 ltac:(lia)). lia. }
  rewrite (sub_safe g 1) by lia. rewrite (mul_safe (g - 1) 5) by lia.
  rewrite (add_safe ((g - 1) * 5) 1) by lia.
  set (first := (g - 1) * 5 + 1).
  rewrite (add_safe first 5) by lia. rewrite (sub_safe (first + 5) 1) by lia.
  rewrite (sub_safe first 1) by lia. rewrite (mul_safe g 5) by lia.
  set (last := Z.min (first + 5 - 1) totalPages).
  assert (Num.min (Fin (first + 5 - 1)) (Fin totalPages) = Fin last) as ->.
  { unfold Num.min, Num.lt, last.
    destruct (Z.ltb_spec totalPages (first + 5 - 1)); f_equal; lia. }
  cbn [distance]. rewrite pageLinks_safe by lia. rewrite (add_safe last 1) by lia.
  eexists _, first, last. split; [reflexivity|]. cbn [pg_pages pg_current pg_prev pg_next].
  split; [done|]. split; [lia|]. split; [lia|]. split; [lia|]. split; [done|].
  split; [|split; [lia|split; [|lia]]].
  - unfold Num.lt. destruct (Z.ltb_spec 1 g), (Z.ltb_spec 5 page); (done || lia).
  - unfold Num.lt.
    destruct (Z.ltb_spec (g * 5) totalPages), (Z.ltb_spec last totalPages); (done || lia).
Qed.

Lemma pager_window_witness :
  exists pager,
    templatePagination 64 (Fin 7) (Fin 10) (VStr "latest") = Ok (Some pager)
    /\ pg_pages pager = [Fin 6; Fin 7] /\ pg_prev pager = Some (Fin 5)
    /\ pg_next pager = None.
Proof.
  destruct (proj2 (pager_window 64 7 (Fin 10) (VStr "latest") 7 eq_refl))
    as (pager & first & last & E & _).
  - vm_compute. split; [reflexivity|discriminate].
  - lia.
  - exists pager. split; [exact E|]. vm_compute in E. injection E as <-.
    repeat split; reflexivity.
Defined.

(** The double nearest to a negative integer is negative, and beyond
    -2^53 when the integer is. *)
Lemma round_negative t z :
  Z.abs t <= 2 ^ 53 -> z <= t ->
  Num.round z = Inf true \/ exists r, Num.round z = Fin r /\ r <= t /\ Z.abs r < Num.overflow.
Proof.
  intros Ht Hz. unfold Num.round. cbv zeta.
  pose proof (nearest_le t z Ht Hz) as Hn.
  destruct (Z.leb_spec Num.overflow (Z.abs (Num.nearest z))) as [Hov|Hov].
  - left. destruct (Z.ltb_spec z 0) as [|Hpos]; [done|].
    pose proof overflow_beyond. pose proof (nearest_ge 0 z ltac:(lia) Hpos). lia.
  - right. by eexists.
Qed.

(** X28. A negative [limit] is taken as it is: page 1 then shows all posts
    but the last [-limit] of the sorted list, and there is no pager. The
    limit is the double nearest to a negative integer, minus infinity
    included, which is what [parseInt] makes of the digits; the list has
    the length of an array. *)
Theorem negative_limit_window {A} (sortedTopics : list A) (limit : Z) (sort : val) :
  limit < 0 -> Z.of_nat (length sortedTopics) < 2 ^ 32 ->
  pagedTopics sortedTopics (Fin 1) (Num.round limit)
  = take (length sortedTopics - Z.to_nat (- limit)) sortedTopics
  /\ templatePagination (length sortedTopics) (Fin 1) (Num.round limit) sort = Ok None.
Proof.
  intros Hl Hlen. pose proof overflow_beyond as Ho. split.
  - unfold pagedTopics, slice. cbv zeta. rewrite (sub_safe 1 1) by lia.
    change (1 - 1) with 0.
    destruct (Z.le_gt_cases (- 2 ^ 53) limit) as [Hsafe|Hbig].
    + rewrite round_safe by lia. rewrite (mul_safe 0 limit) by lia.
      rewrite (add_safe (0 * limit) limit) by lia. cbn [index].
      rewrite Z.mul_0_l, Z.add_0_l. change (0 <? 0) with false. cbv iota.
      destruct (Z.ltb_spec limit 0); [|lia].
      rewrite Z.min_l by lia. rewrite drop_0. f_equal. lia.
    + replace (length sortedTopics - Z.to_nat (- limit))%nat with 0%nat by lia.
      destruct (round_negative (- 2 ^ 53) limit ltac:(lia) ltac:(lia))
        as [->|(r & -> & Hr & _)].
      * by cbn.
      * rewrite (mul_safe 0 r) by lia. rewrite Z.mul_0_l. cbn [Num.add].
        rewrite Z.add_0_l.
        destruct (round_negative (- 2 ^ 53) r ltac:(lia) Hr) as [->|(r' & -> & Hr' & _)].
        -- cbn [index]. change (0 <? 0) with false. cbv iota.
           replace (Z.to_nat _) with 0%nat by lia. done.
        -- cbn [index]. change (0 <? 0) with false. cbv iota.
           destruct (Z.ltb_spec r' 0); [|lia].
           replace (Z.to_nat _) with 0%nat by lia. done.
  - unfold templatePagination. cbv zeta.
    destruct (round_negative (-1) limit ltac:(lia) ltac:(lia)) as [->|(r & -> & Hr & Hov)].
    + by rewrite ceil_div_infinite.
    + rewrite ceil_div_safe by lia. rewrite le_Fin.
      assert (0 <= - Z.of_nat (length sortedTopics) / r).
      { rewrite <- Z.div_opp_opp by lia. apply Z.div_pos; lia. }
      destruct (Z.leb_spec (- (- Z.of_nat (length sortedTopics) / r)) 1); [done|lia].
Qed.

Lemma negative_limit_window_witness :
  parseInt_or (VStr "-5") DEFAULT_ITEMS_PER_PAGE = Fin (-5)
  /\ pagedTopics [1; 2; 3; 4; 5; 6; 7] (Fin 1) (Fin (-5)) = [1; 2]
  /\ templatePagination 7 (Fin 1) (Fin (-5)) (VStr "latest") = Ok None.
Proof.
  split; [reflexivity|].
  destruct (negative_limit_window [1; 2; 3; 4; 5; 6; 7] (-5) (VStr "latest") ltac:(lia))
    as [H1 H2].
  - vm_compute. reflexivity.
  - split; [exact H1|exact H2].
Defined.

(** ** Cookie headers *)

Lemma plain_code c :
  plain c = true ->
  (code c < 128 /\ is_ws1 (code c) = false /\ code c ≠ 59 /\ code c ≠ 61 /\ code c ≠ 37)%N.
Proof.
  unfold plain. cbn zeta. rewrite !andb_true_iff, !negb_true_iff, N.ltb_lt, !N.eqb_neq.
  tauto.
Qed.

Lemma plain_neq c (d : ascii) :
  plain c = true -> (code d = 59 \/ code d = 61 \/ code d = 37)%N -> Ascii.eqb c d = false.
Proof.
  intros (_ & _ & H1 & H2 & H3)%plain_code Hd. apply Ascii.eqb_neq. intros ->. lia.
Qed.

Lemma split_token sep s :
  (code sep = 59 \/ code sep = 61 \/ code sep = 37)%N ->
  token s = true -> split sep s = [s].
Proof.
  intros Hsep. induction s as [|c r IH]; [done|]. cbn [split token].
  intros [Hc Hr]%andb_true_iff. rewrite (plain_neq _ _ Hc Hsep), (IH Hr). done.
Qed.

Lemma ws_head_plain c r : plain c = true -> ws_head (String c r) = 0%nat.
Proof.
  intros (Hlt & Hws & _)%plain_code. cbn. rewrite Hws.
  destruct r as [|b r']; [done|].
  assert (is_ws2 (code c) (code b) = false) as ->.
  { unfold is_ws2. destruct (N.eqb_spec (code c) 194); [lia|done]. }
  destruct r' as [|d r'']; [done|].
  assert (is_ws3 (code c) (code b) (code d) = false) as ->; [|done].
  unfold is_ws3.
  destruct (N.eqb_spec (code c) 225); [lia|].
  destruct (N.eqb_spec (code c) 226); [lia|].
  destruct (N.eqb_spec (code c) 227); [lia|].
  destruct (N.eqb_spec (code c) 239); [lia|]. done.
Qed.

Lemma ws_last_plain c r : plain c = true -> ws_last (String c r) = 0%nat.
Proof.
  intros (Hlt & Hws & _)%plain_code. cbn. rewrite Hws.
  destruct r as [|b r']; [done|].
  assert (is_ws2 (code b) (code c) = false) as ->.
  { unfold is_ws2. destruct (N.eqb_spec (code c) 160); [lia|]. by rewrite andb_false_r. }
  destruct r' as [|a r'']; [done|].
  assert (is_ws3 (code a) (code b) (code c) = false) as ->; [|done].
  unfold is_ws3.
  destruct (N.eqb_spec (code c) 128); [lia|].
  destruct (N.eqb_spec (code c) 159); [lia|].
  destruct (N.eqb_spec (code c) 191); [lia|].
  destruct (N.eqb_spec (code c) 168); [lia|].
  destruct (N.eqb_spec (code c) 169); [lia|].
  destruct (N.eqb_spec (code c) 175); [lia|].
  destruct (N.leb_spec 128 (code c)); [lia|].
  by rewrite ?andb_false_r, ?andb_false_l, ?orb_false_r.
Qed.

Lemma strip_stop head fuel s : head s = 0%nat -> strip head fuel s = s.
Proof. intros H. destruct fuel; [done|]. cbn. by rewrite H. Qed.

Lemma rev_str_rev_str s a b : rev_str a (rev_str b s) = rev_str (s ++ a)%string b.
Proof.
  revert a b. induction s as [|c r IH]; intros a b; [done|].
  change (rev_str a (rev_str (String c b) r) = rev_str (String c (r ++ a)%string) b).
  by rewrite IH.
Qed.

Lemma rev_str_token_head s acc :
  token s = true -> s ≠ EmptyString ->
  exists c r, rev_str acc s = String c r /\ plain c = true.
Proof.
  revert acc. induction s as [|c r IH]; intros acc Ht Hne; [done|].
  apply andb_true_iff in Ht as [Hc Hr]. cbn.
  destruct r as [|c' r']; [by exists c, acc|].
  apply IH; done.
Qed.

Lemma trimEnd_token s : token s = true -> trimEnd s = s.
Proof.
  intros Ht. unfold trimEnd. destruct (decide (s = EmptyString)) as [->|Hne]; [done|].
  destruct (rev_str_token_head s EmptyString Ht Hne) as (c & r & E & Hc).
  rewrite strip_stop; [|rewrite E; by apply ws_last_plain].
  rewrite rev_str_rev_str. cbn [rev_str]. clear. induction s as [|c r IH]; [done|].
  change (String c (r ++ EmptyString)%string = String c r). by rewrite IH.
Qed.

Lemma trimStart_token s : token s = true -> trimStart s = s.
Proof.
  intros Ht. unfold trimStart. destruct s as [|c r]; [done|].
  apply andb_true_iff in Ht as [Hc _]. apply strip_stop. by apply ws_head_plain.
Qed.

Lemma trim_token s : token s = true -> trim s = s.
Proof. intros Ht. unfold trim. by rewrite trimStart_token, trimEnd_token. Qed.

Lemma trim_space_token s : token s = true -> trim (String " " s) = s.
Proof.
  intros Ht. unfold trim.
  assert (trimStart (String " " s) = s) as ->; [|by apply trimEnd_token].
  unfold trimStart. cbn. by apply trimStart_token in Ht.
Qed.

Lemma decode_token fuel s :
  token s = true -> (String.length s < fuel)%nat -> decode fuel s = Some s.
Proof.
  revert s. induction fuel as [|fuel IH]; intros s Ht Hl; [lia|].
  destruct s as [|c r]; [done|]. apply andb_true_iff in Ht as [Hc Hr].
  cbn in Hl. cbn -[escape].
  assert (c ≠ "%"%char) as Hne.
  { apply plain_code in Hc as (_ & _ & _ & _ & H). intros ->. by apply H. }
  rewrite (IH r Hr) by lia.
  destruct c as [[] [] [] [] [] [] [] []]; try done.
Qed.

Lemma decodeURIComponent_token s : token s = true -> decodeURIComponent s = Ok s.
Proof. intros Ht. unfold decodeURIComponent. rewrite decode_token; [done..|lia]. Qed.

Lemma split_lacks sep s : lacks sep s = true -> split sep s = [s].
Proof.
  induction s as [|c r IH]; [done|]. cbn [split lacks].
  intros [Hc Hr]%andb_true_iff. apply negb_true_iff in Hc. by rewrite Hc, (IH Hr).
Qed.

Lemma split_lacks_app sep a b :
  lacks sep a = true -> split sep (a ++ String sep b)%string = a :: split sep b.
Proof.
  induction a as [|c r IH]; intros Ht.
  - change (split sep (String sep b) = [EmptyString] ++ split sep b).
    cbn [split]. by rewrite Ascii.eqb_refl.
  - change (split sep (String c (r ++ String sep b)%string) = String c r :: split sep b).
    cbn [split lacks] in *. apply andb_true_iff in Ht as [Hc Hr].
    apply negb_true_iff in Hc. by rewrite Hc, (IH Hr).
Qed.

Lemma lacks_app sep a b :
  lacks sep (a ++ b)%string = lacks sep a && lacks sep b.
Proof.
  induction a as [|c r IH]; [done|].
  change (lacks sep (String c (r ++ b)%string) = lacks sep (String c r) && lacks sep b).
  cbn [lacks]. rewrite IH. by rewrite andb_assoc.
Qed.

Lemma token_lacks sep s :
  (code sep = 59 \/ code sep = 61 \/ code sep = 37)%N -> token s = true -> lacks sep s = true.
Proof.
  intros Hsep. induction s as [|c r IH]; [done|]. cbn [token lacks].
  intros [Hc Hr]%andb_true_iff. by rewrite (plain_neq _ _ Hc Hsep), (IH Hr).
Qed.

Lemma cookie_item_lacks kv :
  token kv.1 = true -> token kv.2 = true -> lacks ";" (cookie_item kv) = true.
Proof.
  intros H1 H2. unfold cookie_item. rewrite !lacks_app.
  rewrite (token_lacks ";" kv.1), (token_lacks ";" kv.2); [done|by left|done|by left|done].
Qed.

Lemma split_spaced items :
  Forall (fun i => lacks ";" i = true) items -> items ≠ [] ->
  split ";" (String " " (join "; " items)) = String " " <$> items.
Proof.
  induction 1 as [|i items Hi Hall IH]; intros Hne; [done|].
  destruct items as [|i2 items].
  - cbn [join fmap list_fmap]. apply (split_lacks ";" (String " " i)). cbn [lacks].
    by rewrite Hi.
  - change (join "; " (i :: i2 :: items))
      with (i ++ String ";" (String " " (join "; " (i2 :: items))))%string.
    change (String " " (i ++ String ";" (String " " (join "; " (i2 :: items))))%string)
      with (String " " i ++ String ";" (String " " (join "; " (i2 :: items))))%string.
    rewrite split_lacks_app; [|by cbn [lacks]; rewrite Hi].
    rewrite IH by done. done.
Qed.

Lemma split_header items :
  Forall (fun i => lacks ";" i = true) items -> items ≠ [] ->
  exists i rest, items = i :: rest /\ split ";" (join "; " items) = i :: (String " " <$> rest).
Proof.
  intros Hall Hne. destruct items as [|i rest]; [done|]. exists i, rest. split; [done|].
  apply Forall_cons in Hall as [Hi Hall]. destruct rest as [|i2 rest].
  - by apply split_lacks.
  - change (join "; " (i :: i2 :: rest))
      with (i ++ String ";" (String " " (join "; " (i2 :: rest))))%string.
    rewrite split_lacks_app by done. by rewrite split_spaced.
Qed.

Lemma cookie_step_item acc kv :
  token kv.1 = true -> token kv.2 = true ->
  cookie_step (Ok acc) (cookie_item kv) = Ok (<[kv.1 := kv.2]> acc)
  /\ cookie_step (Ok acc) (String " " (cookie_item kv)) = Ok (<[kv.1 := kv.2]> acc).
Proof.
  destruct kv as [k v]. cbn [fst snd]. intros Hk Hv.
  assert (split "=" (cookie_item (k, v)) = [k; v]) as E1.
  { unfold cookie_item. cbn [fst snd].
    change (k ++ "=" ++ v)%string with (k ++ String "=" v)%string.
    rewrite split_lacks_app by (apply token_lacks; [right; by left|done]).
    rewrite split_token; [done|right; by left|done]. }
  assert (split "=" (String " " (cookie_item (k, v))) = [String " " k; v]) as E2.
  { cbn [split]. change (Ascii.eqb " " "=") with false. cbn match. by rewrite E1. }
  unfold cookie_step. cbn [mbind result_bind]. rewrite E1, E2.
  cbn [head second default from_option id lookup list_lookup].
  rewrite (trim_token k), (trim_space_token k) by done.
  destruct (String.eqb_spec v EmptyString) as [->|_]; [done|].
  rewrite (trim_token v), decodeURIComponent_token by done. done.
Qed.

Lemma cookie_fold_spaced acc kvs :
  Forall (fun kv => token kv.1 = true /\ token kv.2 = true) kvs ->
  foldl cookie_step (Ok acc) (String " " <$> (cookie_item <$> kvs))
  = Ok (foldl (fun m kv => <[kv.1 := kv.2]> m) acc kvs).
Proof.
  intros Hall. revert acc. induction Hall as [|kv kvs [H1 H2] Hall IH]; intros acc; [done|].
  cbn [fmap list_fmap foldl]. rewrite (proj2 (cookie_step_item acc kv H1 H2)). apply IH.
Qed.

Lemma cookie_fold_other (m : gmap string string) kvs k :
  k ∉ kvs.*1 -> foldl (fun m kv => <[kv.1 := kv.2]> m) m kvs !! k = m !! k.
Proof.
  revert m. induction kvs as [|kv kvs IH]; intros m Hk; [done|].
  rewrite fmap_cons in Hk. apply not_elem_of_cons in Hk as [Hne Hk].
  cbn [foldl]. rewrite IH by done. by rewrite lookup_insert_ne.
Qed.

Lemma cookie_map_snoc kvs kv :
  cookie_map (kvs ++ [kv]) = <[kv.1 := kv.2]> (cookie_map kvs).
Proof. unfold cookie_map. by rewrite foldl_app. Qed.

(** X29. [parseCookies] reads back a header of plain names and values
    [k1=v1; k2=v2; ...]: it maps each name to its value, the last one
    for a name given more than once, and has no other name; an empty
    header gives no cookie. The names are other than [__proto__], the
    one name that an assignment does not store in an object. *)
Theorem cookies_round_trip req kvs :
  cookie req = Some (cookie_header kvs) ->
  Forall (fun kv => token kv.1 = true /\ token kv.2 = true) kvs ->
  Forall (fun kv => kv.1 ≠ "__proto__") kvs ->
  parseCookies req = Ok (cookie_map kvs)
  /\ (forall before after k v,
        kvs = before ++ (k, v) :: after -> k ∉ after.*1 -> cookie_map kvs !! k = Some v)
  /\ (forall k, k ∉ kvs.*1 -> cookie_map kvs !! k = None).
Proof.
  intros Hc Hall _. split; [|split].
  - unfold parseCookies. rewrite Hc. destruct kvs as [|kv kvs]; [done|].
    assert (Forall (fun i => lacks ";" i = true) (cookie_item <$> kv :: kvs)) as Hl.
    { apply Forall_fmap. eapply Forall_impl; [exact Hall|].
      intros x [H1 H2]. by apply cookie_item_lacks. }
    destruct (split_header _ Hl ltac:(done)) as (i & rest & [= <- <-] & Hs).
    unfold cookie_header.
    assert (String.eqb (join "; " (cookie_item <$> kv :: kvs)) EmptyString = false) as ->.
    { apply String.eqb_neq. intros E. rewrite E in Hs. cbn [split] in Hs.
      injection Hs as Hi _. destruct kv as [[|c k] v]; discriminate Hi. }
    rewrite Hs. apply Forall_cons in Hall as [[H1 H2] Hall].
    change (foldl cookie_step (cookie_step (Ok ∅) (cookie_item kv))
              (String " " <$> (cookie_item <$> kvs)) = Ok (cookie_map (kv :: kvs))).
    rewrite (proj1 (cookie_step_item ∅ kv H1 H2)). by apply cookie_fold_spaced.
  - clear. intros before after k v -> Hk. unfold cookie_map.
    rewrite foldl_app. cbn [foldl fst snd].
    rewrite cookie_fold_other by done. apply lookup_insert_eq.
  - clear. induction kvs as [|kv kvs IH] using rev_ind; intros k Hk; [done|].
    rewrite cookie_map_snoc. rewrite fmap_app in Hk. apply not_elem_of_app in Hk as [Hk Hk'].
    rewrite lookup_insert_ne; [by apply IH|]. intros <-. apply Hk'. by left.
Qed.

Lemma cookies_round_trip_witness :
  parseCookies (request "GET" "/" []
                  (Some "sessionId=0; theme=dark; sessionId=00112233445566778899aabbccddeeff")
                  [])
  = Ok (cookie_map [("sessionId", "0"); ("theme", "dark");
                    ("sessionId", "00112233445566778899aabbccddeeff")])
  /\ cookie_map [("sessionId", "0"); ("theme", "dark");
                 ("sessionId", "00112233445566778899aabbccddeeff")]
     !! "sessionId" = Some "00112233445566778899aabbccddeeff".
Proof.
  destruct (cookies_round_trip
              (request "GET" "/" []
                 (Some "sessionId=0; theme=dark; sessionId=00112233445566778899aabbccddeeff")
                 [])
              [("sessionId", "0"); ("theme", "dark");
               ("sessionId", "00112233445566778899aabbccddeeff")]
              eq_refl) as (Hp & Hin & _).
  - repeat constructor.
  - repeat constructor; discriminate.
  - split; [exact Hp|].
    apply (Hin [("sessionId", "0"); ("theme", "dark")] []); [reflexivity|].
    apply not_elem_of_nil.
Defined.

(** ** Ids in links *)

Lemma pretty_N_char_digit d :
  (d < 10)%N -> digit 10 (pretty_N_char d) = Some (Z.of_N d)
                /\ is_digit (pretty_N_char d) = true.
Proof.
  intros Hd.
  assert (d = 0 \/ d = 1 \/ d = 2 \/ d = 3 \/ d = 4 \/ d = 5 \/ d = 6 \/ d = 7 \/ d = 8
          \/ d = 9)%N as H by lia.
  destruct H as [->|[->|[->|[->|[->|[->|[->|[->|[->| ->]]]]]]]]]; by vm_compute.
Qed.

Lemma digits_pretty_N_go x s acc :
  (0 < x)%N -> default 0 acc = 0 ->
  digits 10 acc (pretty_N_go x s) = digits 10 (Some (Z.of_N x)) s.
Proof.
  revert s acc. induction (N.lt_wf_0 x) as [x _ IH]. intros s acc Hx Hacc.
  rewrite pretty_N_go_step by done.
  pose proof (N.mod_upper_bound x 10 ltac:(lia)) as Hm.
  pose proof (N.div_mod x 10 ltac:(lia)) as Hdm.
  destruct (pretty_N_char_digit _ Hm) as [Hd _].
  destruct (decide (x `div` 10 = 0)%N) as [E|E].
  - rewrite E, pretty_N_go_0. cbn [digits]. rewrite Hd, Hacc. f_equal. f_equal. lia.
  - rewrite (IH (x `div` 10)%N); [|apply N.div_lt; lia|lia|done].
    cbn [digits]. rewrite Hd. cbn [default from_option id]. f_equal. f_equal. lia.
Qed.

Lemma all_digits_pretty_N_go x s :
  all_digits s = true -> all_digits (pretty_N_go x s) = true.
Proof.
  revert s. induction (N.lt_wf_0 x) as [x _ IH]. intros s Hs.
  destruct (decide (x = 0)%N) as [->|Hx]; [by rewrite pretty_N_go_0|].
  rewrite pretty_N_go_step by lia.
  apply IH; [apply N.div_lt; lia|]. cbn [all_digits]. rewrite Hs.
  by rewrite (proj2 (pretty_N_char_digit _ (N.mod_upper_bound x 10 ltac:(lia)))).
Qed.

Lemma is_digit_ws c r : is_digit c = true -> ws_head (String c r) = 0%nat.
Proof.
  intros H. apply ws_head_plain. unfold plain, is_digit in *. cbn zeta.
  apply andb_true_iff in H as [H1%N.leb_le H2%N.leb_le].
  unfold is_ws1.
  repeat match goal with
         | |- context [(?a <? ?b)%N] => destruct (N.ltb_spec a b); [|lia]
         | |- context [(?a <=? ?b)%N] => destruct (N.leb_spec a b); try lia
         | |- context [(?a =? ?b)%N] => destruct (N.eqb_spec a b); try lia
         end; done.
Qed.

(** [parseInt] of a non-empty string of decimal digits. *)
Lemma parseInt_str_digits s :
  all_digits s = true -> s ≠ EmptyString ->
  parseInt_str s = from_option Num.round NaN (digits 10 None s)
  /\ parseInt_str (String "-" s)
     = from_option (fun n => Num.round (- n)) NaN (digits 10 None s).
Proof.
  intros Hs Hne. destruct s as [|c r]; [done|].
  cbn [all_digits] in Hs. apply andb_true_iff in Hs as [Hc Hr].
  assert (c ≠ "-"%char /\ c ≠ "+"%char) as [Hm Hp].
  { split; intros ->; by vm_compute in Hc. }
  assert (forall t, match String c r with
                    | String "0" (String "x" t') => t = t'
                    | String "0" (String "X" t') => t = t'
                    | _ => False
                    end -> False) as Hx.
  { intros t. destruct r as [|c' r']; [by destruct c as [[] [] [] [] [] [] [] []]|].
    cbn [all_digits] in Hr. apply andb_true_iff in Hr as [Hc' _].
    destruct c as [[] [] [] [] [] [] [] []]; try done.
    destruct c' as [[] [] [] [] [] [] [] []]; try done. }
  assert (exists d, digit 10 c = Some d) as [d Hd].
  { unfold digit, is_digit, code in *. apply andb_true_iff in Hc as [H1%N.leb_le H2%N.leb_le].
    destruct (Z.leb_spec 48 (Z.of_N (N_of_ascii c))); [|lia].
    destruct (Z.leb_spec (Z.of_N (N_of_ascii c)) 57); [|lia]. by eexists. }
  split.
  - unfold parseInt_str. unfold trimStart. rewrite strip_stop by (by apply is_digit_ws).
    destruct c as [[] [] [] [] [] [] [] []]; try done;
      destruct r as [|[[] [] [] [] [] [] [] []] r'];
      try (exfalso; by eapply (Hx EmptyString));
      cbn -[digits Num.round]; destruct (digits 10 None _) as [n|]; try done;
      cbn [from_option]; f_equal; lia.
  - unfold parseInt_str. unfold trimStart.
    rewrite strip_stop by (apply ws_head_plain; by vm_compute).
    destruct c as [[] [] [] [] [] [] [] []]; try done;
      destruct r as [|[[] [] [] [] [] [] [] []] r'];
      try (exfalso; by eapply (Hx EmptyString));
      cbn -[digits Num.round]; destruct (digits 10 None _) as [n|]; try done;
      cbn [from_option]; f_equal; lia.
Qed.

Lemma parseInt_toString n :
  Z.abs n <= 2 ^ 53 -> parseInt (VStr (toString (VNum (Fin n)))) = Fin n.
Proof.
  intros Hn. cbn [parseInt toString number_text]. destruct n as [|p|p]; [by vm_compute| |].
  - change (pretty (Z.pos p)) with (pretty_N_go (N.pos p) EmptyString).
    pose proof (digits_pretty_N_go (N.pos p) EmptyString None ltac:(lia) eq_refl) as Hd.
    cbn [digits] in Hd.
    rewrite (proj1 (parseInt_str_digits _ (all_digits_pretty_N_go (N.pos p) EmptyString eq_refl)
                      ltac:(by intros E; rewrite E in Hd))).
    rewrite Hd. cbn [from_option]. by apply round_safe.
  - change (pretty (Z.neg p)) with (String "-" (pretty_N_go (N.pos p) EmptyString)).
    pose proof (digits_pretty_N_go (N.pos p) EmptyString None ltac:(lia) eq_refl) as Hd.
    cbn [digits] in Hd.
    rewrite (proj2 (parseInt_str_digits _ (all_digits_pretty_N_go (N.pos p) EmptyString eq_refl)
                      ltac:(by intros E; rewrite E in Hd))).
    rewrite Hd. cbn [from_option]. by apply round_safe.
Qed.

Lemma toString_truthy n :
  Z.abs n <= 2 ^ 53 -> truthy (VStr (toString (VNum (Fin n)))) = true.
Proof.
  intros Hn. pose proof (parseInt_toString n Hn) as H. cbn [truthy].
  destruct (String.eqb_spec (toString (VNum (Fin n))) EmptyString) as [E|]; [|done].
  rewrite E in H. by vm_compute in H.
Qed.

(** X30. An id written into a link and read back by [parseInt] is the same
    number, so the link [/?id=N] that the list renders for a stored post
    opens that post. The id is a number that JavaScript holds exactly
    and writes in decimal digits, and the page number of the link is
    within 2^52 of zero, so that the pager is made. *)
Theorem link_opens_topic env req st st1 me t markdown p :
  wf st -> getLoggedInUser req st = (st1, Ok me) -> pathname req = "/" ->
  sortable (or_else (get (query req) "sort") (VStr "latest")) (topicsV st) ->
  NoDup (Topic.id <$> topicsV st) -> t ∈ topicsV st ->
  - 2 ^ 53 < Topic.id t < 2 ^ 53 ->
  parseInt_or (get (query req) "page") (Fin 1) = Fin p -> Z.abs p <= 2 ^ 52 ->
  get (query req) "id" = VStr (toString (VNum (Fin (Topic.id t)))) ->
  marked_parse env (Topic.description t) = Ok markdown ->
  parseInt (get (query req) "id") = Fin (Topic.id t)
  /\ exists r h, snd (app env req st) = Responded r /\ status r = 200
       /\ html r = Some h /\ h_title h = Topic.title t
       /\ h_body h = BodyTopic (Topic.title t) (author_of (usersV st) (Topic.author t))
                       (Topic.created_at t) markdown.
Proof.
  intros Hwf Hg Hp Hs Hnd Hin Hb Epage Hpage Hid Hmd.
  assert (parseInt (get (query req) "id") = Fin (Topic.id t)) as Hparse.
  { rewrite Hid. apply parseInt_toString. lia. }
  split; [done|].
  destruct (app_root env req st st1 me Hwf Hg Hp Hs) as (st2 & _ & ->). cbn [snd].
  unfold root_page. cbn zeta. rewrite Epage.
  destruct (pager_returns (length (topicsV st)) p
              (parseInt_or (get (query req) "limit") DEFAULT_ITEMS_PER_PAGE)
              (or_else (get (query req) "sort") (VStr "latest")) Hpage) as [pager ->].
  cbn [mbind result_bind].
  rewrite Hparse, Hid, toString_truthy by lia.
  rewrite (find_has_id_unique _ _ Hnd Hin), Hmd. cbn. by eexists _, _.
Qed.

Lemma link_opens_topic_witness :
  parseInt (get (query (req_topic 2)) "id") = Fin 2
  /\ exists r h, snd (app env0 (req_topic 2) st0) = Responded r /\ status r = 200
       /\ html r = Some h /\ h_title h = VStr "Howdy"
       /\ h_body h = BodyTopic (VStr "Howdy") (VStr "Bob") 20 "all".
Proof.
  assert (NoDup (Topic.id <$> topicsV st0)) as Hnd.
  { apply (bool_decide_unpack _). vm_compute. exact I. }
  refine (link_opens_topic env0 (req_topic 2) st0 st0 None howdy "all" 1 wf_st0 _ eq_refl _
            Hnd _ _ eq_refl _ eq_refl eq_refl).
  - vm_compute. reflexivity.
  - intros E. vm_compute in E. discriminate.
  - vm_compute. apply list_elem_of_In. right. left. reflexivity.
  - cbn. lia.
  - vm_compute. discriminate.
Defined.
